(** * MedAssist.AI: the ingestion pipeline and the symptom index

    A shallow embedding of
    - [src/indexing/orphanet_index.py]   (index builder and query engine),
    - [scripts/fetch_all_checkpointed.py] (checkpointed fetch orchestrator),
    - [scripts/cleanup_duplicate_raw.py]  (deduplicator),
    - [scripts/cleanup_metadata.py]       (manifest pruner),
    followed by the properties of the specification that concern them.

    Conventions.  A Python [str] is a [string]; the text is taken to be
    ASCII, so that a character is one [ascii] (bytes above 127 are carried
    along unchanged and are never whitespace).  A [dict] keyed by strings
    whose iteration order does not reach the result is a [gmap]; a Python
    [set] is a [gset].  An exception is a value of [exn] carried by
    [res]. *)

From stdpp Require Import gmap strings list fin_maps sorting.
From Stdlib Require Import ZArith Ascii String DecimalString.

Local Open Scope string_scope.
Set Warnings "-register-all".

(** ** Python strings *)

Module PyStr.

(** [str.isspace] on one ASCII character; [str.strip] and the regular
    expression class [\s] both use it: 0x09-0x0D, 0x1C-0x1F and 0x20. *)
Definition is_space (c : ascii) : bool :=
  let n := nat_of_ascii c in
  ((9 <=? n)%nat && (n <=? 13)%nat) || ((28 <=? n)%nat && (n <=? 32)%nat).

(** [str.lower] on one ASCII character. *)
Definition lower_char (c : ascii) : ascii :=
  let n := nat_of_ascii c in
  if ((65 <=? n)%nat && (n <=? 90)%nat) then ascii_of_nat (n + 32) else c.

Fixpoint lower (s : string) : string :=
  match s with
  | EmptyString => EmptyString
  | String c r => String (lower_char c) (lower r)
  end.

Fixpoint lstrip (s : string) : string :=
  match s with
  | EmptyString => EmptyString
  | String c r => if is_space c then lstrip r else s
  end.

Fixpoint rstrip (s : string) : string :=
  match s with
  | EmptyString => EmptyString
  | String c r =>
      match rstrip r with
      | EmptyString => if is_space c then EmptyString else String c EmptyString
      | r' => String c r'
      end
  end.

(** [s.strip()] *)
Definition strip (s : string) : string := rstrip (lstrip s).

(** [re.sub(r"\s+", " ", s)]: every maximal run of whitespace becomes one
    space.  [in_run] tells that the previous character was whitespace. *)
Fixpoint collapse_from (in_run : bool) (s : string) : string :=
  match s with
  | EmptyString => EmptyString
  | String c r =>
      if is_space c
      then (if in_run then collapse_from true r
            else String " "%char (collapse_from true r))
      else String c (collapse_from false r)
  end.

Definition collapse_ws (s : string) : string := collapse_from false s.

(** [a in b] on strings: [a] occurs in [b] as a contiguous substring. *)
Fixpoint contains (a b : string) : bool :=
  if String.prefix a b then true
  else match b with
       | EmptyString => false
       | String _ r => contains a r
       end.

(** Python truthiness of a string. *)
Definition nonempty (s : string) : bool :=
  match s with EmptyString => false | _ => true end.

(** Every character of [s] is whitespace (this includes the empty string). *)
Fixpoint all_space (s : string) : bool :=
  match s with
  | EmptyString => true
  | String c r => is_space c && all_space r
  end.

End PyStr.

(** ** The symptom index ([src/indexing/orphanet_index.py]) *)

(** [_normalize_symptom] *)
Definition _normalize_symptom (term : string) : string :=
  if PyStr.nonempty term
  then PyStr.collapse_ws (PyStr.lower (PyStr.strip term))
  else "".

Module SymptomIndex.

(** An index entry: (orpha_code, disease_name, frequency, hpo_id). *)
Definition entry : Type := string * string * string * string.

(** What a query compares: (orpha_code, disease_name, frequency). *)
Definition triple : Type := string * string * string.

Definition drop_id (e : entry) : triple :=
  let '(orpha, name, freq, _) := e in (orpha, name, freq).

(** The loop [for orpha, name, freq, _ in entries: result.add(...)]. *)
Definition triples_of (entries : list entry) : gset triple :=
  list_to_set (drop_id <$> entries).

(** [self._symptom_to_diseases] *)
Abbreviation index := (gmap string (list entry)).

(** The condition of the fallback loop: [norm in key or key in norm]. *)
Definition key_matches (norm key : string) : bool :=
  PyStr.contains norm key || PyStr.contains key norm.

(** The fallback loop over [self._symptom_to_diseases.items()]. *)
Definition substring_scan (idx : index) (norm : string) : gset triple :=
  ⋃ ((λ kv : string * list entry,
        if key_matches norm kv.1 then triples_of kv.2 else ∅)
     <$> map_to_list idx).

(** Which of its three exits [_diseases_for_symptom] took. *)
Inductive lookup_path : Type :=
| EmptyTerm      (* [if not norm: return set()] *)
| ExactBucket    (* the exact bucket gave a result; no scan *)
| SubstringScan. (* the loop over every indexed key ran *)

(** [_diseases_for_symptom], together with the exit taken. *)
Definition _diseases_for_symptom_run (idx : index) (symptom : string)
  : lookup_path * gset triple :=
  let norm := _normalize_symptom symptom in
  if negb (PyStr.nonempty norm) then (EmptyTerm, ∅)
  else
    let direct := default [] (idx !! norm) in
    let result := triples_of direct in
    if decide (result = ∅)
    then (SubstringScan, result ∪ substring_scan idx norm)
    else (ExactBucket, result).

Definition _diseases_for_symptom (idx : index) (symptom : string) : gset triple :=
  (_diseases_for_symptom_run idx symptom).2.

(** One element of the list [query] returns. *)
Record result_record : Type := {
  orpha_code : string;
  disease_name : string;
  matched_symptoms : list string;
  frequency : string;
  orpha_url : string;
}.

(** The loop collecting the non-empty per-term sets. *)
Fixpoint collect_sets (idx : index) (symptoms : list string) : list (gset triple) :=
  match symptoms with
  | [] => []
  | s :: rest =>
      let ds := _diseases_for_symptom idx s in
      if decide (ds = ∅) then collect_sets idx rest
      else ds :: collect_sets idx rest
  end.

(** The intersection of all the collected sets when [match_all] (the set
    itself when there is only one), their union otherwise; [sets] is the
    non-empty list [first :: others]. *)
Definition combine (match_all : bool) (first : gset triple)
    (others : list (gset triple)) : gset triple :=
  if match_all then foldl (∩) first others else foldl (∪) first others.

Definition make_record (symptoms : list string) (t : triple) : result_record :=
  let '(orpha, name, freq) := t in
  {| orpha_code := orpha;
     disease_name := name;
     matched_symptoms := symptoms;
     frequency := freq;
     orpha_url :=
       "https://www.orpha.net/consor/cgi-bin/OC_Exp.php?lng=en&Expert=" ++ orpha |}.

(** [query].  The result list follows the iteration order of a Python
    set, which is unspecified; [elements] fixes one. *)
Definition query (idx : index) (symptoms : list string) (match_all : bool)
  : list result_record :=
  match symptoms with
  | [] => []
  | _ =>
      match collect_sets idx symptoms with
      | [] => []
      | first :: others =>
          make_record symptoms <$> elements (combine match_all first others)
      end
  end.

(** A result list read as a set of (code, name, frequency) triples. *)
Definition as_triples (rs : list result_record) : gset triple :=
  list_to_set ((λ r, (orpha_code r, disease_name r, frequency r)) <$> rs).

(** *** The laws stated of the query engine *)

(** What the substring scan is said to return for the term [term]: the
    triples of every bucket whose key contains the normalized term or is
    contained in it. *)
Definition returns_matching_buckets (idx : index) (term : string) : Prop :=
  let norm := _normalize_symptom term in
  ∀ t : triple,
    t ∈ _diseases_for_symptom idx term ↔
    ∃ key entries,
      idx !! key = Some entries
      ∧ ((∃ pre post, key = pre ++ norm ++ post) ∨ (∃ pre post, norm = pre ++ key ++ post))
      ∧ t ∈ triples_of entries.

(** The intersection law for two terms, on (code, name, frequency) triples. *)
Definition intersection_law (idx : index) (A B : string) : Prop :=
  as_triples (query idx [A; B] true)
  = as_triples (query idx [A] true) ∩ as_triples (query idx [B] true).

End SymptomIndex.

(** ** Python values read from JSON files *)

Module Py.

(** What [json.load] returns.  Numbers are taken to be integers (the code
    below tests a number for truth, equality and type only; a float would
    differ in [str] alone); a [dict] keeps its bindings in insertion order
    and, as [json.load] builds it, binds no key twice. *)
Inductive json : Type :=
| JNull
| JBool (b : bool)
| JNum (n : Z)
| JStr (s : string)
| JList (items : list json)
| JDict (fields : list (string * json)).

(** The exceptions raised by the operations used below. *)
Inductive exn : Type :=
| AttributeError
| TypeError.

(** The outcome of a computation that may raise. *)
Inductive res (A : Type) : Type :=
| Ok (a : A)
| Raise (e : exn).
Global Arguments Ok {A} a.
Global Arguments Raise {A} e.

Definition bind {A B} (m : res A) (k : A → res B) : res B :=
  match m with
  | Ok a => k a
  | Raise e => Raise e
  end.

(** [bool(j)] *)
Definition truthy (j : json) : bool :=
  match j with
  | JNull => false
  | JBool b => b
  | JNum n => negb (n =? 0)%Z
  | JStr s => PyStr.nonempty s
  | JList items => match items with [] => false | _ => true end
  | JDict fields => match fields with [] => false | _ => true end
  end.

Definition is_dict (j : json) : bool :=
  match j with JDict _ => true | _ => false end.

Definition is_list (j : json) : bool :=
  match j with JList _ => true | _ => false end.

(** The binding of [k] in a dict. *)
Fixpoint dict_get (fields : list (string * json)) (k : string) : option json :=
  match fields with
  | [] => None
  | (k', v) :: rest => if String.eqb k' k then Some v else dict_get rest k
  end.

(** [d.get(k, dflt)]; only a dict has the method. *)
Definition get (d : json) (k : string) (dflt : json) : res json :=
  match d with
  | JDict fields => Ok (default dflt (dict_get fields k))
  | _ => Raise AttributeError
  end.

(** [a or b] *)
Definition or_else (a b : json) : json := if truthy a then a else b.

(** [len(j)] *)
Definition len (j : json) : res Z :=
  match j with
  | JStr s => Ok (Z.of_nat (String.length s))
  | JList items => Ok (Z.of_nat (List.length items))
  | JDict fields => Ok (Z.of_nat (List.length fields))
  | _ => Raise TypeError
  end.

(** [for x in j]: the values the loop visits. *)
Definition iter (j : json) : res (list json) :=
  match j with
  | JList items => Ok items
  | JDict fields => Ok ((λ kv, JStr kv.1) <$> fields)
  | JStr s => Ok ((λ c, JStr (String c EmptyString)) <$> list_ascii_of_string s)
  | _ => Raise TypeError
  end.

(** *** [repr] and [str] *)

Definition hex_digit (n : nat) : ascii :=
  ascii_of_nat (if (n <? 10)%nat then 48 + n else 87 + n).

(** One character inside [repr] of a string quoted with [q]. *)
Definition repr_char (q c : ascii) : string :=
  let n := nat_of_ascii c in
  if Ascii.eqb c "\"%char then "\\"
  else if Ascii.eqb c q then String "\"%char (String q EmptyString)
  else if (n =? 9)%nat then "\t"
  else if (n =? 10)%nat then "\n"
  else if (n =? 13)%nat then "\r"
  else if (n <? 32)%nat || (n =? 127)%nat
       then String "\"%char (String "x"%char
              (String (hex_digit (n / 16)) (String (hex_digit (n mod 16)) EmptyString)))
  else String c EmptyString.

Fixpoint has_char (c : ascii) (s : string) : bool :=
  match s with
  | EmptyString => false
  | String c' r => Ascii.eqb c c' || has_char c r
  end.

Fixpoint repr_chars (q : ascii) (s : string) : string :=
  match s with
  | EmptyString => EmptyString
  | String c r => repr_char q c ++ repr_chars q r
  end.

(** [repr(s)] of a string: single quotes, unless the text has a single
    quote and no double quote. *)
Definition repr_str (s : string) : string :=
  let q := if has_char "'"%char s && negb (has_char (ascii_of_nat 34) s)
           then ascii_of_nat 34 else "'"%char in
  String q (repr_chars q s ++ String q EmptyString).

Fixpoint join (sep : string) (parts : list string) : string :=
  match parts with
  | [] => EmptyString
  | [p] => p
  | p :: rest => p ++ sep ++ join sep rest
  end.

Definition repr_Z (n : Z) : string :=
  DecimalString.NilZero.string_of_int (Z.to_int n).

Fixpoint repr (j : json) : string :=
  match j with
  | JNull => "None"
  | JBool b => if b then "True" else "False"
  | JNum n => repr_Z n
  | JStr s => repr_str s
  | JList items => "[" ++ join ", " (map repr items) ++ "]"
  | JDict fields =>
      "{" ++ join ", " (map (λ kv, repr_str kv.1 ++ ": " ++ repr kv.2) fields) ++ "}"
  end.

(** [str(j)] *)
Definition str (j : json) : string :=
  match j with
  | JStr s => s
  | _ => repr j
  end.

(** *** Equality [a == b]

    [True == 1] and [False == 0]; lists compare element by element; two
    dicts are equal when they have as many bindings and every binding of
    the first has an equal one in the second. *)
Fixpoint eq (a b : json) {struct a} : bool :=
  match a, b with
  | JNull, JNull => true
  | JBool x, JBool y => Bool.eqb x y
  | JBool x, JNum n | JNum n, JBool x => (n =? Z.b2z x)%Z
  | JNum n, JNum m => (n =? m)%Z
  | JStr s, JStr t => String.eqb s t
  | JList xs, JList ys =>
      (fix all2 (xs ys : list json) : bool :=
         match xs, ys with
         | [], [] => true
         | x :: xs', y :: ys' => eq x y && all2 xs' ys'
         | _, _ => false
         end) xs ys
  | JDict fs, JDict gs =>
      (List.length fs =? List.length gs)%nat &&
      (fix all (fs : list (string * json)) : bool :=
         match fs with
         | [] => true
         | (k, v) :: fs' =>
             existsb (λ kw : string * json, String.eqb k kw.1 && eq v kw.2) gs
             && all fs'
         end) fs
  | _, _ => false
  end.

End Py.

(** ** The index builder ([src/indexing/orphanet_index.py]) *)

Module Builder.
Import Py.

(** [_extract_disorders]; the [try] catches [TypeError] and
    [AttributeError], which are all the exceptions [get] can raise. *)
Definition _extract_disorders (data : json) : json :=
  let attempt :=
    bind (get data "data" data) (λ inner,
    bind (get inner "HPODisorderSetStatusList" (JDict [])) (λ status_list,
    bind (get status_list "HPODisorderSetStatus" (JList [])) (λ disorders,
    Ok (if is_dict disorders then JList [disorders] else disorders)))) in
  match attempt with
  | Ok disorders => disorders
  | Raise AttributeError | Raise TypeError => JList []
  end.

(** A symptom of a disorder: (hpo_id, hpo_term, frequency). *)
Definition symptom : Type := json * json * json.

(** [x.get(k, dflt) if isinstance(x, dict) else dflt] *)
Definition get_if_dict (x : json) (k : string) (dflt : json) : json :=
  match x with
  | JDict fields => default dflt (dict_get fields k)
  | _ => dflt
  end.

(** The body of the loop over the associations of one disorder: the
    symptom it appends, if any. *)
Definition symptom_of_assoc (assoc : json) : option symptom :=
  let hpo := get_if_dict assoc "HPO" (JDict []) in
  let freq_obj := get_if_dict assoc "HPOFrequency" (JDict []) in
  let hpo_id := get_if_dict hpo "HPOId" (JStr "") in
  let hpo_term := get_if_dict hpo "HPOTerm" (JStr "") in
  let freq := get_if_dict freq_obj "Name" (JStr "") in
  if truthy hpo_term then Some (hpo_id, hpo_term, freq) else None.

(** [_extract_disease_and_symptoms]: (orpha_code, name, symptoms), the first
    two [None] when the disorder is skipped. *)
Definition _extract_disease_and_symptoms (disorder : json)
  : res (option string * option json * list symptom) :=
  let disorder_obj := get_if_dict disorder "Disorder" (JDict []) in
  if negb (truthy disorder_obj) then Ok (None, None, [])
  else
    bind (get disorder_obj "OrphaCode" JNull) (λ code1,
    bind (if truthy code1 then Ok code1 else get disorder_obj "OrphaCode" JNull)
      (λ orpha_code,
    bind (get disorder_obj "Name" (JStr "")) (λ name,
    if negb (truthy orpha_code) || negb (truthy name) then Ok (None, None, [])
    else
      bind (get disorder_obj "HPODisorderAssociationList" JNull) (λ assoc_list,
      if negb (is_dict assoc_list) then Ok (Some (str orpha_code), Some name, [])
      else
        bind (get assoc_list "HPODisorderAssociation" JNull) (λ raw_assoc,
        let associations :=
          match raw_assoc with
          | JList items => items
          | JDict _ => [raw_assoc]
          | _ => []
          end in
        Ok (Some (str orpha_code), Some name,
            omap symptom_of_assoc associations)))))).

(** An entry of the index under construction:
    (orpha_code, disease_name, frequency, hpo_id). *)
Definition entry : Type := string * json * json * json.

(** Equality of two entries (tuples compare component by component). *)
Definition entry_eq (x y : entry) : bool :=
  let '(c1, n1, f1, i1) := x in
  let '(c2, n2, f2, i2) := y in
  String.eqb c1 c2 && eq n1 n2 && eq f1 f2 && eq i1 i2.

(** [e in bucket] *)
Definition entry_in (e : entry) (bucket : list entry) : bool :=
  existsb (λ x, entry_eq x e) bucket.

(** The two dictionaries the build loop fills: [index] and
    [disease_info] (code to name). *)
Record state : Type := {
  index : gmap string (list entry);
  disease_info : gmap string json;
}.

Definition empty_state : state := {| index := ∅; disease_info := ∅ |}.

(** [_normalize_symptom(hpo_term)] on a JSON value: only a [str] has
    [strip]; a falsy value never reaches the call. *)
Definition normalize_value (hpo_term : json) : res string :=
  match hpo_term with
  | JStr s => Ok (_normalize_symptom s)
  | _ => if truthy hpo_term then Raise AttributeError else Ok ""
  end.

(** The body of the inner loop of [build_symptom_index]. *)
Definition add_symptom (orpha_code : string) (disease_name : json)
    (idx : gmap string (list entry)) (sym : symptom)
  : res (gmap string (list entry)) :=
  let '(hpo_id, hpo_term, freq) := sym in
  bind (normalize_value hpo_term) (λ norm,
  if negb (PyStr.nonempty norm) then Ok idx
  else
    let e : entry := (orpha_code, disease_name, freq, hpo_id) in
    let idx1 := match idx !! norm with
                | None => <[norm := []]> idx
                | Some _ => idx
                end in
    let bucket := default [] (idx1 !! norm) in
    if entry_in e bucket then Ok idx1
    else Ok (<[norm := (bucket ++ [e])%list]> idx1)).

(** The inner loop. *)
Fixpoint add_symptoms (orpha_code : string) (disease_name : json)
    (idx : gmap string (list entry)) (syms : list symptom)
  : res (gmap string (list entry)) :=
  match syms with
  | [] => Ok idx
  | sym :: rest =>
      bind (add_symptom orpha_code disease_name idx sym) (λ idx',
      add_symptoms orpha_code disease_name idx' rest)
  end.

(** The body of the outer loop. *)
Definition add_disorder (st : state) (disorder : json) : res state :=
  bind (_extract_disease_and_symptoms disorder) (λ extracted,
  let '(orpha_code, disease_name, symptoms) := extracted in
  match orpha_code with
  | None => Ok st
  | Some code =>
      if negb (PyStr.nonempty code) then Ok st
      else
        let name := default JNull disease_name in
        bind (add_symptoms code name (index st) symptoms) (λ idx',
        Ok {| index := idx'; disease_info := <[code := name]> (disease_info st) |})
  end).

(** The outer loop, from a given state. *)
Fixpoint add_disorders (st : state) (disorders : list json) : res state :=
  match disorders with
  | [] => Ok st
  | d :: rest => bind (add_disorder st d) (λ st', add_disorders st' rest)
  end.

(** What [build_symptom_index] persists (without the source path). *)
Record payload : Type := {
  symptom_to_diseases : gmap string (list entry);
  disease_count : nat;
  symptom_count : nat;
}.

(** [build_symptom_index] on the parsed content [raw] of the dataset. *)
Definition build_symptom_index (raw : json) : res payload :=
  bind (iter (_extract_disorders raw)) (λ disorders,
  bind (add_disorders empty_state disorders) (λ st,
  Ok {| symptom_to_diseases := index st;
        disease_count := size (disease_info st);
        symptom_count := size (index st) |})).

(** *** What is stated of the builder *)

(** A disorder record without a code or without a name: in its [Disorder]
    object (the empty dict when the record has none) [OrphaCode] or [Name]
    is missing or falsy (empty, [null], zero). *)
Definition lacks_code_or_name (disorder : json) : Prop :=
  ∃ obj,
    get_if_dict disorder "Disorder" (JDict []) = JDict obj
    ∧ (truthy (default JNull (dict_get obj "OrphaCode")) = false
       ∨ truthy (default (JStr "") (dict_get obj "Name")) = false).

(** The dataset whose disorder list is [disorders]. *)
Definition dataset (disorders : list json) : json :=
  JDict [("HPODisorderSetStatusList",
          JDict [("HPODisorderSetStatus", JList disorders)])].

(** No two entries of the bucket are equal: an entry differs from every
    entry that precedes it. *)
Definition distinct_entries (bucket : list entry) : Prop :=
  ∀ i j x y, (i < j)%nat → bucket !! i = Some x → bucket !! j = Some y →
             entry_eq x y = false.

(** Every bucket of the index has distinct entries. *)
Definition distinct_buckets (idx : gmap string (list entry)) : Prop :=
  ∀ norm bucket, idx !! norm = Some bucket → distinct_entries bucket.

End Builder.

(** ** The checkpointed fetch orchestrator ([scripts/fetch_all_checkpointed.py]) *)

Module Orchestrator.
Import Py.

(** A job of [CONFIG]: (key, display name, keyword arguments). *)
Definition job : Type := string * string * list (string * json).

Definition CONFIG : list job :=
  [ ("orphanet", "Orphanet", [("dataset", JStr "phenotypes")]);
    ("pubmed", "PubMed", [("term", JStr "rare disease"); ("max_records", JNum 5000)]);
    ("pmc", "PMC", [("term", JStr "rare disease"); ("max_records", JNum 2000)]);
    ("openfda_label", "OpenFDA (labels)",
       [("endpoint", JStr "label"); ("max_records", JNum 25000)]);
    ("openfda_event", "OpenFDA (events)",
       [("endpoint", JStr "event"); ("max_records", JNum 25000)]);
    ("rxnorm", "RxNorm", [("query", JStr "aspirin"); ("max_records", JNum 100)]);
    ("who", "WHO", [("endpoint", JStr "documents"); ("limit", JNum 200)]);
    ("ncbi_bookshelf", "NCBI Bookshelf",
       [("term", JStr "pharmacology"); ("max_records", JNum 100)]);
    ("openstax", "OpenStax (pharmacology)", [("book", JStr "pharmacology")]) ].

(** The keys of [fetcher_map]. *)
Definition fetcher_map : list string :=
  [ "orphanet"; "pubmed"; "pmc"; "openfda_label"; "openfda_event";
    "rxnorm"; "who"; "ncbi_bookshelf"; "openstax" ].

(** The checkpoint file as a reader finds it. *)
Inductive file : Type :=
| Absent                (* no such file *)
| Truncated             (* the file exists and is empty *)
| Corrupt               (* text that [json.loads] rejects *)
| Document (j : json).  (* the text of the JSON document [j] *)

(** The document [save_checkpoint] serialises. *)
Definition checkpoint_doc (completed : list json) (last_error : option string) : json :=
  JDict [ ("completed", JList completed);
          ("last_error", match last_error with
                         | None => JNull
                         | Some msg => JStr msg
                         end) ].

(** [load_checkpoint] *)
Definition load_checkpoint (f : file) : json :=
  match f with
  | Document j => j
  | Absent | Truncated | Corrupt => checkpoint_doc [] None
  end.

(** The file operations of [Path.write_text(data)]: the file is opened in
    mode ["w"], which creates or empties it, and then the text is written. *)
Inductive file_op : Type :=
| OpenTruncate
| WriteText (doc : json).

Definition apply_op (f : file) (op : file_op) : file :=
  match op with
  | OpenTruncate => Truncated
  | WriteText doc => Document doc
  end.

Definition write_text (doc : json) : list file_op := [OpenTruncate; WriteText doc].

(** The file operations of [save_checkpoint], in order. *)
Definition save_checkpoint_ops (completed : list json) (last_error : option string)
  : list file_op :=
  write_text (checkpoint_doc completed last_error).

(** The successive contents of the file while the operations run: what a
    reader can find between two of them, and the final content last. *)
Fixpoint contents_during (f : file) (ops : list file_op) : list file :=
  match ops with
  | [] => []
  | op :: rest => apply_op f op :: contents_during (apply_op f op) rest
  end.

(** [save_checkpoint]: the file once the call has returned. *)
Definition save_checkpoint (f : file) (completed : list json)
    (last_error : option string) : file :=
  foldl apply_op f (save_checkpoint_ops completed last_error).

(** What [fetcher.fetch] does when called: it returns, or raises an
    [Exception] with the given type name and message. *)
Inductive fetch_outcome : Type :=
| Fetched
| Failed (type_name message : string).

(** The fetch collaborators: the outcome of a call, given the keys already
    invoked in this run, the key and the keyword arguments. *)
Definition collaborator : Type :=
  list string → string → list (string * json) → fetch_outcome.

(** The state of a run: the list [completed], the checkpoint file and the
    keys whose collaborator has been invoked, in order. *)
Record state : Type := {
  completed : list json;
  checkpoint : file;
  invoked : list string;
}.

(** [key in completed] *)
Definition key_in (key : string) (completed : list json) : bool :=
  existsb (λ c, eq c (JStr key)) completed.

(** How the loop ends: it runs through, or [sys.exit(1)] stops it. *)
Inductive loop_end : Type :=
| RanThrough (st : state)
| Exited (st : state).

(** The [for] loop of [main] over the jobs. *)
Fixpoint run_jobs (fetch : collaborator) (st : state) (jobs : list job) : loop_end :=
  match jobs with
  | [] => RanThrough st
  | (key, name, kwargs) :: rest =>
      if key_in key (completed st) then run_jobs fetch st rest
      else if negb (bool_decide (key ∈ fetcher_map)) then
        (* [fetcher_map[key]] raises [KeyError] inside the [try] *)
        Exited {| completed := completed st;
                  checkpoint := save_checkpoint (checkpoint st) (completed st)
                                  (Some ("KeyError: " ++ repr_str key));
                  invoked := invoked st |}
      else
        match fetch (invoked st) key kwargs with
        | Fetched =>
            let completed' := (completed st ++ [JStr key])%list in
            run_jobs fetch
              {| completed := completed';
                 checkpoint := save_checkpoint (checkpoint st) completed' None;
                 invoked := (invoked st ++ [key])%list |}
              rest
        | Failed type_name message =>
            let err_msg := type_name ++ ": " ++ message in
            Exited {| completed := completed st;
                      checkpoint := save_checkpoint (checkpoint st) (completed st)
                                      (Some err_msg);
                      invoked := (invoked st ++ [key])%list |}
        end
  end.

(** The start of [main], up to the loop: the checkpoint is loaded and,
    with [--reset], cleared.  [cp['last_error'][:200]] is evaluated when
    [last_error] is truthy and raises unless it is a string or a list (a
    number has no slice; neither has a dict, for which the exception is
    [KeyError] from Python 3.12 on). *)
Definition startup (argv : list string) (f : file) : res state :=
  let cp := load_checkpoint f in
  bind (get cp "completed" (JList [])) (λ c,
  bind (iter c) (λ completed0,
  bind (get cp "last_error" JNull) (λ last_error,
  bind (if truthy last_error
        then match last_error with
             | JStr _ | JList _ => Ok tt
             | _ => Raise TypeError
             end
        else Ok tt) (λ _,
  if bool_decide ("--reset" ∈ argv)
  then Ok {| completed := []; checkpoint := save_checkpoint f [] None; invoked := [] |}
  else Ok {| completed := completed0; checkpoint := f; invoked := [] |})))).

(** How the process ends. *)
Inductive exit_status : Type :=
| ExitCode (code : Z)
| Uncaught (e : exn).  (* a traceback; the interpreter exits with code 1 *)

Record run : Type := {
  status : exit_status;
  final : option state;  (* [None] when [main] raised before the loop *)
}.

(** [main] with the job list as a parameter, and [sys.exit(main())]. *)
Definition main_with (jobs : list job) (argv : list string) (fetch : collaborator)
    (f : file) : run :=
  match startup argv f with
  | Raise e => {| status := Uncaught e; final := None |}
  | Ok st0 =>
      match run_jobs fetch st0 jobs with
      | Exited st => {| status := ExitCode 1; final := Some st |}
      | RanThrough st =>
          {| status := ExitCode 0;
             final := Some {| completed := completed st;
                              checkpoint := save_checkpoint (checkpoint st)
                                              (completed st) None;
                              invoked := invoked st |} |}
      end
  end.

Definition main : list string → collaborator → file → run := main_with CONFIG.

(** *** What is stated of the orchestrator *)

Definition job_key (j : job) : string := j.1.1.

(** Every job of the list has its key in [completed]. *)
Definition all_completed (jobs : list job) (completed : list json) : Prop :=
  Forall (λ j, key_in (job_key j) completed = true) jobs.

(** A save is an atomic replacement when whatever a reader finds in the
    file while it runs is the old content or the new one. *)
Definition atomic_replace (f : file) (completed : list json)
    (last_error : option string) : Prop :=
  ∀ c, c ∈ contents_during f (save_checkpoint_ops completed last_error) →
       c = f ∨ c = save_checkpoint f completed last_error.

(** The state in which a loop ends. *)
Definition end_state (e : loop_end) : state :=
  match e with RanThrough st | Exited st => st end.

End Orchestrator.

(** ** The deduplicator ([scripts/cleanup_duplicate_raw.py]) *)

Module Dedup.
Import Py.

(** [len(body.get(field, []))] *)
Definition len_of_field (body : json) (field : string) : res Z :=
  bind (get body field (JList [])) len.

(** The body of the [try] of [record_count], once the file is parsed. *)
Definition count_records (data : json) (source : string) : res Z :=
  bind (get data "data" data) (λ body,
  if String.eqb source "pubmed" then len_of_field body "articles"
  else if String.eqb source "pmc" then len_of_field body "articles"
  else if String.eqb source "openfda" then len_of_field body "results"
  else if String.eqb source "rxnorm" then
    bind (len_of_field body "drugs") (λ n,
    if negb (n =? 0)%Z then Ok n
    else
      bind (get body "raw_response" (JDict [])) (λ raw_response,
      bind (get raw_response "approximateGroup" (JDict [])) (λ group,
      len_of_field group "candidate")))
  else if String.eqb source "who" then
    bind (if is_list body then get body "results" body
          else get body "items" (JList [])) len
  else if String.eqb source "ncbi_bookshelf" then len_of_field body "books"
  else if String.eqb source "orphanet" then
    bind (get body "HPODisorderSetStatusList" (JDict [])) (λ st1,
    bind (if truthy st1 then Ok st1 else get body "data" (JDict [])) (λ st,
    bind (get st "HPODisorderSetStatus" (JList [])) (λ disorders,
    if is_list disorders then len disorders else Ok 1%Z)))
  else if String.eqb source "openstax" then len_of_field body "chapters"
  else Ok 0%Z).

(** [record_count]; [content] is what [json.load] makes of the file,
    [None] when opening or parsing it raises. *)
Definition record_count (content : option json) (source subdir : string) : Z :=
  match content with
  | None => (-1)%Z
  | Some data =>
      match count_records data source with
      | Ok n => n
      | Raise _ => (-1)%Z
      end
  end.

(** A candidate file of a directory.  [mtime] stands for the float
    [st_mtime]: the code only negates and compares it, and the finite
    floats embed in the integers with their order (every one is an integer
    multiple of 2^-1074). *)
Record candidate : Type := {
  path : string;
  content : option json;
  mtime : Z;
}.

Definition SOURCES : list (string * string) :=
  [ ("pubmed", ""); ("pmc", ""); ("openfda", "label"); ("openfda", "event");
    ("rxnorm", ""); ("who", "documents"); ("ncbi_bookshelf", "sections");
    ("orphanet", "phenotypes"); ("openstax", "extracted") ].

(** [source.split("/")[0] if "/" in source else source]: the text before
    the first slash. *)
Fixpoint source_head (source : string) : string :=
  match source with
  | EmptyString => EmptyString
  | String c r => if Ascii.eqb c "/"%char then EmptyString else String c (source_head r)
  end.

(** The sort key of a candidate: [(-c, -mtime)]. *)
Definition key (source subdir : string) (p : candidate) : Z * Z :=
  let c := record_count (content p) (source_head source) subdir in
  ((- c)%Z, (- mtime p)%Z).

(** Tuples compare lexicographically. *)
Definition key_le (a b : Z * Z) : bool :=
  (a.1 <? b.1)%Z || ((a.1 =? b.1)%Z && (a.2 <=? b.2)%Z).

(** [sorted(files, key=key)]: ascending and stable, as an insertion sort
    that puts an element before the later elements of equal key. *)
Fixpoint insert_by {A} (k : A → Z * Z) (x : A) (l : list A) : list A :=
  match l with
  | [] => [x]
  | y :: r => if key_le (k x) (k y) then x :: y :: r else y :: insert_by k x r
  end.

Fixpoint sorted_by {A} (k : A → Z * Z) (l : list A) : list A :=
  match l with
  | [] => []
  | x :: r => insert_by k x (sorted_by k r)
  end.

(** The body of the loop of [main] for one existing directory whose
    [*.json] files are [files], in the order of the listing: the file kept
    (none when the directory is left alone) and the files unlinked. *)
Definition dedup_dir (source subdir : string) (files : list candidate)
  : option candidate * list candidate :=
  if (List.length files <=? 1)%nat then (None, [])
  else
    match sorted_by (key source subdir) files with
    | [] => (None, [])
    | keep :: to_remove => (Some keep, to_remove)
    end.

(** [main]: [listing source subdir] is [None] when the directory does not
    exist.  The result is the list [kept] and the files deleted. *)
Fixpoint main_over (sources : list (string * string))
    (listing : string → string → option (list candidate))
  : list candidate * list candidate :=
  match sources with
  | [] => ([], [])
  | (source, subdir) :: rest =>
      let '(kept, deleted) := main_over rest listing in
      match listing source subdir with
      | None => (kept, deleted)
      | Some files =>
          let '(keep, to_remove) := dedup_dir source subdir files in
          (option_list keep ++ kept, to_remove ++ deleted)%list
      end
  end.

Definition main := main_over SOURCES.

(** *** What is stated of the deduplicator *)

(** The record count the ranking gives a candidate. *)
Definition count (source subdir : string) (p : candidate) : Z :=
  record_count (content p) (source_head source) subdir.

(** [q] ranks at least as high as [p]: more records, or as many and not
    older. *)
Definition ranks_below (source subdir : string) (p q : candidate) : Prop :=
  (count source subdir p < count source subdir q)%Z
  ∨ (count source subdir p = count source subdir q ∧ (mtime p <= mtime q)%Z).

(** The fields the accessor of a source looks up in the body. *)
Definition accessor_fields (source : string) : list string :=
  if String.eqb source "pubmed" then ["articles"]
  else if String.eqb source "pmc" then ["articles"]
  else if String.eqb source "openfda" then ["results"]
  else if String.eqb source "rxnorm" then ["drugs"; "raw_response"]
  else if String.eqb source "who" then ["items"]
  else if String.eqb source "ncbi_bookshelf" then ["books"]
  else if String.eqb source "orphanet" then ["HPODisorderSetStatusList"; "data"]
  else if String.eqb source "openstax" then ["chapters"]
  else [].

(** [x] comes no later than [y] in the order of the sort by [k]. *)
Definition sorts_before {A} (k : A → Z * Z) (x y : A) : Prop :=
  key_le (k x) (k y) = true.

(** The files [main] deletes, directory by directory. *)
Definition deleted_per_directory (sources : list (string * string))
    (listing : string → string → option (list candidate)) : list candidate :=
  List.concat ((λ sd : string * string,
             match listing sd.1 sd.2 with
             | None => []
             | Some files => (dedup_dir sd.1 sd.2 files).2
             end) <$> sources).

End Dedup.

(** ** The manifest pruner ([scripts/cleanup_metadata.py]) *)

Module Pruner.
Import Py.

(** Whether a value can be put in a [set]. *)
Definition hashable (j : json) : bool :=
  match j with
  | JList _ | JDict _ => false
  | _ => true
  end.

(** The body of the [try] for one raw file already parsed: the identifier
    added to [kept_ids], if any. *)
Definition kept_id_of (doc : json) : res (option json) :=
  bind (get doc "_header" (JDict [])) (λ h,
  bind (get h "fetch_id" JNull) (λ fid,
  if truthy fid
  then (if hashable fid then Ok (Some fid) else Raise TypeError)
  else Ok None)).

(** The first loop: the elements of [kept_ids].  A raw file is [None] when
    opening or parsing it raises; every exception is swallowed. *)
Fixpoint collect_kept_ids (raw : list (option json)) : list json :=
  match raw with
  | [] => []
  | f :: rest =>
      match f with
      | Some doc =>
          match kept_id_of doc with
          | Ok (Some fid) => fid :: collect_kept_ids rest
          | Ok None | Raise _ => collect_kept_ids rest
          end
      | None => collect_kept_ids rest
      end
  end.

(** [fid in kept_ids] for a string [fid]. *)
Definition id_in (fid : string) (kept_ids : list json) : bool :=
  existsb (λ k, eq k (JStr fid)) kept_ids.

(** [s.endswith(suffix)] *)
Definition ends_with (s suffix : string) : bool :=
  String.prefix (String.rev suffix) (String.rev s).

(** A name selected by [META.glob("*_manifest.json")]. *)
Definition is_manifest_name (name : string) : bool := ends_with name "_manifest.json".

(** [Path.stem] of a name with the suffix [.json]: the name without it. *)
Definition stem (name : string) : string :=
  String.substring 0 (String.length name - 5) name.

(** [s.replace(old, "")] for a non-empty [old]: every occurrence, left to
    right, is dropped.  [skip] counts the characters of an occurrence still
    to be dropped. *)
Fixpoint remove_from (skip : nat) (old s : string) : string :=
  match s with
  | EmptyString => EmptyString
  | String c r =>
      match skip with
      | S n => remove_from n old r
      | O =>
          if String.prefix old s
          then remove_from (String.length old - 1) old r
          else String c (remove_from 0 old r)
      end
  end.

(** [m.stem.replace("_manifest", "")] *)
Definition manifest_fetch_id (name : string) : string :=
  remove_from 0 "_manifest" (stem name).

(** The second loop: the manifests unlinked, in the order of the listing
    [meta] of the metadata directory. *)
Definition deleted_manifests (kept_ids : list json) (meta : list string) : list string :=
  filter (λ name, is_manifest_name name = true
                  ∧ id_in (manifest_fetch_id name) kept_ids = false) meta.

(** [main]: the manifests deleted and the files left in the metadata
    directory. *)
Definition main (raw : list (option json)) (meta : list string)
  : list string * list string :=
  let kept_ids := collect_kept_ids raw in
  let deleted := deleted_manifests kept_ids meta in
  (deleted, filter (λ name, name ∉ deleted) meta).

(** *** What is stated of the pruner *)

(** The [fetch_id] found in the [_header] of a parsed raw artifact. *)
Definition header_fetch_id (doc : json) : option json :=
  match doc with
  | JDict top =>
      match dict_get top "_header" with
      | Some (JDict h) => dict_get h "fetch_id"
      | _ => None
      end
  | _ => None
  end.

(** No manifest is deleted whose fetch identifier is the [fetch_id] in the
    header of a raw artifact that is there and readable. *)
Definition keeps_manifests_of_retained (raw : list (option json)) (meta : list string)
  : Prop :=
  ∀ name doc fid,
    name ∈ meta →
    Some doc ∈ raw →
    header_fetch_id doc = Some (JStr fid) →
    manifest_fetch_id name = fid →
    name ∉ (main raw meta).1.

End Pruner.

(** ** Statements about normal forms *)

Module NormalForm.

(** The text has no whitespace at its end. *)
Fixpoint no_trailing_space (s : string) : bool :=
  match s with
  | EmptyString => true
  | String c r =>
      match r with
      | EmptyString => negb (PyStr.is_space c)
      | _ => no_trailing_space r
      end
  end.

(** The text has no whitespace at its start. *)
Definition no_leading_space (s : string) : bool :=
  match s with
  | EmptyString => true
  | String c _ => negb (PyStr.is_space c)
  end.

(** The shape of a normalized term: no upper-case ASCII letter; the only
    whitespace is the space character, never first, never last and never
    after another space.  [after_space] tells that a space (or the start of
    the text) comes just before. *)
Fixpoint clean_from (after_space : bool) (s : string) : bool :=
  match s with
  | EmptyString => true
  | String c r =>
      Ascii.eqb (PyStr.lower_char c) c
      && (if PyStr.is_space c
          then Ascii.eqb c " "%char && negb after_space && PyStr.nonempty r
               && clean_from true r
          else clean_from false r)
  end.

Definition clean (s : string) : bool := clean_from true s.

End NormalForm.

(** ** Statements about the index built *)

Module BuilderStatements.
Import Py Builder.

(** The bucket of [norm] holds an entry equal to [e]. *)
Definition has_entry (idx : gmap string (list entry)) (norm : string) (e : entry) : Prop :=
  ∃ bucket, idx !! norm = Some bucket ∧ entry_in e bucket = true.

(** The entry [e] under the key [norm] comes from an association of one of
    the disorders: the disorder has a code and a name, the association a
    text term whose normal form is [norm], not empty. *)
Definition generated (disorders : list json) (norm : string) (e : entry) : Prop :=
  ∃ d code name syms hpo_id term freq,
    d ∈ disorders
    ∧ _extract_disease_and_symptoms d = Ok (Some code, Some name, syms)
    ∧ (hpo_id, JStr term, freq) ∈ syms
    ∧ _normalize_symptom term = norm
    ∧ norm ≠ ""
    ∧ e = (code, name, freq, hpo_id).

(** Keys and entries as the build makes them: a key is a normal form and is
    not empty, its bucket is not empty, and every entry has a code that is
    not empty and a truthy name. *)
Definition well_keyed (idx : gmap string (list entry)) : Prop :=
  ∀ norm bucket,
    idx !! norm = Some bucket →
    norm ≠ "" ∧ _normalize_symptom norm = norm ∧ bucket ≠ []
    ∧ ∀ e, e ∈ bucket → e.1.1.1 ≠ "" ∧ truthy e.1.1.2 = true.

(** The raw artifact as [write_raw] lays it out: a header and the data. *)
Definition envelope (header data : json) : json :=
  JDict [("_header", header); ("data", data)].

End BuilderStatements.

(** ** Statements about the deduplicator and the pruner *)

Module CleanupStatements.
Import Py Dedup.

(** [p] ranks strictly below [q]: fewer records, or as many and older. *)
Definition ranks_strictly_below (source subdir : string) (p q : candidate) : Prop :=
  (count source subdir p < count source subdir q)%Z
  ∨ (count source subdir p = count source subdir q ∧ (mtime p < mtime q)%Z).

End CleanupStatements.


(** ** The writer of raw artifacts and manifests
    ([src/storage/writer.py], [src/storage/metadata.py]) *)

Module Storage.
Import Py Pruner.

(** An optional text or number as Python has it: the value or [None]. *)
Definition opt_str (o : option string) : json :=
  match o with Some s => JStr s | None => JNull end.

Definition opt_num (o : option Z) : json :=
  match o with Some n => JNum n | None => JNull end.


(** [create_manifest]; [now] is the text of the current time. *)
Definition create_manifest (now source fetch_id api_endpoint : string)
    (query_params : json) (record_count : Z) (total_available : option Z)
    (file_path status : string) (error checksum_sha256 : option string)
    (schema_version : string) : json :=
  JDict [ ("source", JStr source);
          ("fetch_id", JStr fetch_id);
          ("fetched_at", JStr now);
          ("schema_version", JStr schema_version);
          ("api_endpoint", JStr api_endpoint);
          ("query_params", query_params);
          ("record_count", JNum record_count);
          ("total_available", opt_num total_available);
          ("file_path", JStr file_path);
          ("checksum_sha256", opt_str checksum_sha256);
          ("status", JStr status);
          ("error", opt_str error) ].

(** The data directory: the files below the raw directory by their path
    from it, each with what [json.load] makes of it ([None] when opening or
    parsing it raises), and the files of the metadata directory by name. *)
Record disk : Type := {
  raw : gmap string (option json);
  metadata : gmap string json;
}.

(** The name [save_manifest] gives the manifest of a fetch. *)
Definition manifest_name (fetch_id : string) : string := fetch_id ++ "_manifest.json".

(** [save_manifest]: the metadata directory after the call; [None] when
    [manifest['fetch_id']] raises. *)
Definition save_manifest (manifest : json) (meta : gmap string json)
  : option (gmap string json) :=
  match manifest with
  | JDict fields =>
      match dict_get fields "fetch_id" with
      | Some fid => Some (<[manifest_name (str fid) := manifest]> meta)
      | None => None
      end
  | _ => None
  end.

(** The path of an artifact below the raw directory. *)
Definition artifact_path (source : string) (subdir : option string) (fetch_id : string)
  : string :=
  let out_dir := match subdir with
                 | Some s => if PyStr.nonempty s then source ++ "/" ++ s else source
                 | None => source
                 end in
  out_dir ++ "/" ++ fetch_id ++ ".json".

(** What [write_raw] serialises into the artifact. *)
Definition payload (now source fetch_id : string) (data : json) (include_header : bool)
  : json :=
  if include_header
  then JDict [ ("_header", JDict [ ("source", JStr source);
                                   ("fetch_id", JStr fetch_id);
                                   ("fetched_at", JStr now);
                                   ("schema_version", JStr "1.0") ]);
               ("data", data) ]
  else data.

(** [DataWriter.write_raw]: the disk after the call.  [data] is the JSON
    value that [json.dump] writes for the data; [sha256] gives the checksum
    of the file written from its content; [base] is the raw directory
    relative to its grandparent; [now] and [now'] are the two readings of
    the clock. *)
Definition write_raw (sha256 : json → string) (base now now' : string)
    (source fetch_id : string) (data : json) (api_endpoint : string)
    (query_params : json) (record_count : Z) (total_available : option Z)
    (subdir : option string) (include_header : bool) (d : disk) : option disk :=
  let file_path := artifact_path source subdir fetch_id in
  let content := payload now source fetch_id data include_header in
  let checksum := sha256 content in
  let manifest :=
    create_manifest now' source fetch_id api_endpoint query_params record_count
      total_available (base ++ "/" ++ file_path) "success" None (Some checksum) "1.0" in
  match save_manifest manifest (metadata d) with
  | Some meta => Some {| raw := <[file_path := Some content]> (raw d); metadata := meta |}
  | None => None
  end.


(** What [RAW.rglob("*.json")] yields, parsed, and the names in the
    metadata directory. *)
Definition raw_listing (d : disk) : list (option json) :=
  (map_to_list (filter (λ kv, ends_with kv.1 ".json" = true) (raw d))).*2.

Definition meta_listing (d : disk) : list string := (map_to_list (metadata d)).*1.

(** [main] of [scripts/cleanup_metadata.py] on a disk: the manifests it
    deletes are unlinked. *)
Definition cleanup_metadata (d : disk) : disk :=
  let deleted := (Pruner.main (raw_listing d) (meta_listing d)).1 in
  {| raw := raw d; metadata := filter (λ kv, kv.1 ∉ deleted) (metadata d) |}.

(** *** What is stated of the writer *)


(** Some readable raw artifact with the suffix [.json] holds [fid] as the
    [fetch_id] of its header. *)
Definition holds_id (d : disk) (fid : string) : Prop :=
  ∃ path doc, raw d !! path = Some (Some doc)
              ∧ ends_with path ".json" = true
              ∧ header_fetch_id doc = Some (JStr fid).

End Storage.

(** ** The pipeline runner ([scripts/run_pipeline_with_checkpoint.py]) *)

Module Pipeline.
Import Py.

(** The checkpoint [load_checkpoint] returns when there is no file or it
    cannot be parsed. *)
Definition fresh : json :=
  JDict [("fetch", JBool false); ("symptom_index", JBool false)].

(** [load_checkpoint] *)
Definition load_checkpoint (f : Orchestrator.file) : json :=
  match f with
  | Orchestrator.Document j => j
  | _ => fresh
  end.

(** [save_checkpoint]: the checkpoint file once the call has returned. *)
Definition save_checkpoint (state : json) : Orchestrator.file :=
  Orchestrator.Document state.

(** [d[k] = v] on the bindings of a dict. *)
Fixpoint set_item (fields : list (string * json)) (k : string) (v : json)
  : list (string * json) :=
  match fields with
  | [] => [(k, v)]
  | (k', v') :: rest =>
      if String.eqb k' k then (k', v) :: rest else (k', v') :: set_item rest k v
  end.

(** The three commands. *)
Definition FETCH : list string := ["python"; "scripts/fetch_all_checkpointed.py"].
Definition CLEANUP : list string := ["python"; "scripts/cleanup_duplicate_raw.py"].
Definition INDEX : list string := ["python"; "scripts/build_symptom_index.py"].

(** The child processes: the return code of a command, given the commands
    run before it in this run. *)
Definition processes : Type := list (list string) → list string → Z.

(** The state of a run: the dict [cp], the checkpoint file and the
    commands run, in order. *)
Record state : Type := {
  cp : json;
  checkpoint : Orchestrator.file;
  ran : list (list string);
}.

(** [run(cmd, step)] *)
Definition run (proc : processes) (cmd : list string) (st : state) : bool * state :=
  ((proc (ran st) cmd =? 0)%Z,
   {| cp := cp st; checkpoint := checkpoint st; ran := (ran st ++ [cmd])%list |}).

(** [cp[k] = True; save_checkpoint(cp)] *)
Definition mark (k : string) (st : state) : res state :=
  match cp st with
  | JDict fields =>
      let cp' := JDict (set_item fields k (JBool true)) in
      Ok {| cp := cp'; checkpoint := save_checkpoint cp'; ran := ran st |}
  | _ => Raise TypeError
  end.

(** How a step ends: the run goes on, or the process ends there. *)
Inductive step_end : Type :=
| Continue (st : state)
| Stop (status : Orchestrator.exit_status) (st : state).

(** Step 1 of [main]: fetch, then the cleanup of duplicates. *)
Definition fetch_step (proc : processes) (st : state) : step_end :=
  match get (cp st) "fetch" JNull with
  | Raise e => Stop (Orchestrator.Uncaught e) st
  | Ok flag =>
      if negb (truthy flag) then
        let (ok, st1) := run proc FETCH st in
        if ok then
          let (_, st2) := run proc CLEANUP st1 in
          match mark "fetch" st2 with
          | Ok st3 => Continue st3
          | Raise e => Stop (Orchestrator.Uncaught e) st2
          end
        else Stop (Orchestrator.ExitCode 1) st1
      else Continue st
  end.

(** Step 2 of [main]: the symptom index. *)
Definition index_step (proc : processes) (st : state) : step_end :=
  match get (cp st) "symptom_index" JNull with
  | Raise e => Stop (Orchestrator.Uncaught e) st
  | Ok flag =>
      if negb (truthy flag) then
        let (ok, st1) := run proc INDEX st in
        if ok then
          match mark "symptom_index" st1 with
          | Ok st2 => Continue st2
          | Raise e => Stop (Orchestrator.Uncaught e) st1
          end
        else Stop (Orchestrator.ExitCode 1) st1
      else Continue st
  end.

(** The start of [main]: the checkpoint is loaded and, with [--reset],
    replaced by a fresh one that is saved. *)
Definition startup (argv : list string) (f : Orchestrator.file) : state :=
  if bool_decide ("--reset" ∈ argv)
  then {| cp := fresh; checkpoint := save_checkpoint fresh; ran := [] |}
  else {| cp := load_checkpoint f; checkpoint := f; ran := [] |}.

Record outcome : Type := {
  status : Orchestrator.exit_status;
  final : state;
}.

(** [sys.exit(main())] *)
Definition main (argv : list string) (proc : processes) (f : Orchestrator.file)
  : outcome :=
  match fetch_step proc (startup argv f) with
  | Stop s st => {| status := s; final := st |}
  | Continue st1 =>
      match index_step proc st1 with
      | Stop s st => {| status := s; final := st |}
      | Continue st2 => {| status := Orchestrator.ExitCode 0; final := st2 |}
      end
  end.

(** *** What is stated of the pipeline runner *)

(** The flag [k] of a checkpoint file: whether the file holds a dict in
    which [k] is bound to a true value. *)
Definition flagged (f : Orchestrator.file) (k : string) : bool :=
  match f with
  | Orchestrator.Document (JDict fields) => truthy (default JNull (dict_get fields k))
  | _ => false
  end.

(** The return code [subprocess.run] reports for a run of the fetch
    orchestrator. *)
Definition returncode (r : Orchestrator.run) : Z :=
  match Orchestrator.status r with
  | Orchestrator.ExitCode code => code
  | Orchestrator.Uncaught _ => 1
  end.

End Pipeline.

(** * Properties *)

(** ** The embedding on sample inputs *)

Example normalize_sample : _normalize_symptom "  Acute   FEVER  " = "acute fever".
Proof. reflexivity. Qed.

Example contains_sample :
  PyStr.contains "fever" "acute fever" = true ∧ PyStr.contains "fevers" "acute fever" = false.
Proof. split; reflexivity. Qed.

Example str_sample :
  Py.str (Py.JList [Py.JNum (-12); Py.JBool true; Py.JNull; Py.JStr "x"])
  = "[-12, True, None, 'x']".
Proof. reflexivity. Qed.

Example record_count_sample :
  Dedup.record_count
    (Some (Py.JDict [("_header", Py.JDict [("source", Py.JStr "rxnorm")]);
                     ("data", Py.JDict [("drugs", Py.JList []);
                                        ("raw_response",
                                         Py.JDict [("approximateGroup",
                                           Py.JDict [("candidate",
                                             Py.JList [Py.JNull; Py.JNull])])])])]))
    "rxnorm" "" = 2%Z.
Proof. reflexivity. Qed.

Example manifest_fetch_id_sample :
  Pruner.manifest_fetch_id "pubmed_20240101_120000_manifest.json" = "pubmed_20240101_120000".
Proof. reflexivity. Qed.

Example extract_sample :
  Builder._extract_disease_and_symptoms
    (Py.JDict [("Disorder",
       Py.JDict [("OrphaCode", Py.JStr "558"); ("Name", Py.JStr "Marfan syndrome");
                 ("HPODisorderAssociationList",
                  Py.JDict [("HPODisorderAssociation",
                    Py.JDict [("HPO", Py.JDict [("HPOId", Py.JStr "HP:0001166");
                                                ("HPOTerm", Py.JStr "Arachnodactyly")]);
                              ("HPOFrequency", Py.JDict [("Name", Py.JStr "Very frequent")])])])])])
  = Py.Ok (Some "558", Some (Py.JStr "Marfan syndrome"),
           [(Py.JStr "HP:0001166", Py.JStr "Arachnodactyly", Py.JStr "Very frequent")]).
Proof. reflexivity. Qed.

(** ** Strings *)

Section string_facts.

Lemma append_cons (c : ascii) (a b : string) : String c a ++ b = String c (a ++ b).
Proof. reflexivity. Qed.

Lemma append_nil (b : string) : "" ++ b = b.
Proof. reflexivity. Qed.

Lemma prefix_spec (a b : string) :
  String.prefix a b = true ↔ ∃ post, b = a ++ post.
Proof.
  revert b. induction a as [|c a IH]; intros b; simpl.
  - destruct b; simpl; split; eauto.
  - destruct b as [|d b]; simpl.
    + split; [discriminate | intros [post H]; discriminate].
    + destruct (Ascii.ascii_dec c d) as [->|Hne].
      * rewrite IH. split; intros [post H]; exists post;
          rewrite append_cons in *; congruence.
      * split; [discriminate | intros [post H]; rewrite append_cons in H; congruence].
Qed.

Lemma contains_unfold (a b : string) :
  PyStr.contains a b =
    String.prefix a b || match b with "" => false | String _ r => PyStr.contains a r end.
Proof. destruct b as [|d b]; simpl; [destruct (String.prefix a "") | destruct (String.prefix a (String d b))]; done. Qed.

Lemma contains_spec (a b : string) :
  PyStr.contains a b = true ↔ ∃ pre post, b = pre ++ a ++ post.
Proof.
  induction b as [|d b IH]; rewrite contains_unfold, orb_true_iff, prefix_spec.
  - split.
    + intros [[post H]|?]; [|done]. by exists "", post.
    + intros (pre & post & H). left. destruct pre; [|discriminate]. eauto.
  - rewrite IH. split.
    + intros [[post H]|(pre & post & ->)].
      * by exists "", post.
      * by exists (String d pre), post.
    + intros (pre & post & H). destruct pre as [|c pre].
      * left. eauto.
      * right. rewrite append_cons in H. exists pre, post. congruence.
Qed.

Lemma contains_empty (b : string) : PyStr.contains "" b = true.
Proof. apply contains_spec. exists "", b. done. Qed.

Lemma nonempty_false (s : string) : PyStr.nonempty s = false ↔ s = "".
Proof. destruct s; simpl; split; congruence. Qed.

Lemma lstrip_all_space (s : string) : PyStr.all_space s = true → PyStr.lstrip s = "".
Proof.
  induction s as [|c s IH]; simpl; [done|].
  intros [Hc Hs]%andb_true_iff. rewrite Hc. auto.
Qed.

Lemma strip_all_space (s : string) : PyStr.all_space s = true → PyStr.strip s = "".
Proof. intros H. unfold PyStr.strip. by rewrite lstrip_all_space. Qed.

(** A term made of whitespace only has the empty normal form. *)
Lemma normalize_all_space (term : string) :
  PyStr.all_space term = true → _normalize_symptom term = "".
Proof.
  intros H. unfold _normalize_symptom.
  destruct (PyStr.nonempty term); [|done].
  by rewrite strip_all_space.
Qed.

End string_facts.

(** ** The query engine *)

Module SymptomIndexFacts.
Import SymptomIndex.

Lemma elem_of_triples_of (t : triple) (entries : list entry) :
  t ∈ triples_of entries ↔ ∃ e, e ∈ entries ∧ drop_id e = t.
Proof.
  unfold triples_of. rewrite elem_of_list_to_set, list_elem_of_fmap.
  split; [intros (e & -> & He) | intros (e & He & <-)]; eauto.
Qed.

(** The scan returns the triples of the buckets whose key matches. *)
Lemma elem_of_substring_scan (idx : index) (norm : string) (t : triple) :
  t ∈ substring_scan idx norm ↔
  ∃ key entries, idx !! key = Some entries ∧ key_matches norm key = true
                 ∧ t ∈ triples_of entries.
Proof.
  unfold substring_scan. rewrite elem_of_union_list. split.
  - intros (X & HX & Ht). apply list_elem_of_fmap in HX as ([key entries] & -> & Hin).
    apply elem_of_map_to_list in Hin. simpl in Ht.
    destruct (key_matches norm key) eqn:Hm; [|set_solver].
    eauto 6.
  - intros (key & entries & Hl & Hm & Ht).
    exists (triples_of entries). split; [|done].
    apply list_elem_of_fmap. exists (key, entries). simpl. rewrite Hm.
    split; [done|]. by apply elem_of_map_to_list.
Qed.

(** The three exits of [_diseases_for_symptom]. *)
Lemma run_empty_term (idx : index) (symptom : string) :
  _normalize_symptom symptom = "" →
  _diseases_for_symptom_run idx symptom = (EmptyTerm, ∅).
Proof. intros H. unfold _diseases_for_symptom_run. by rewrite H. Qed.

Lemma run_nonempty_term (idx : index) (symptom : string) :
  _normalize_symptom symptom ≠ "" →
  _diseases_for_symptom_run idx symptom =
    let norm := _normalize_symptom symptom in
    let result := triples_of (default [] (idx !! norm)) in
    if decide (result = ∅)
    then (SubstringScan, result ∪ substring_scan idx norm)
    else (ExactBucket, result).
Proof.
  intros H. unfold _diseases_for_symptom_run.
  destruct (PyStr.nonempty (_normalize_symptom symptom)) eqn:Hn; [done|].
  by apply nonempty_false in Hn.
Qed.

Lemma as_triples_make_record (symptoms : list string) (X : gset triple) :
  as_triples (make_record symptoms <$> elements X) = X.
Proof.
  unfold as_triples. apply set_eq. intros t.
  rewrite elem_of_list_to_set, <- list_fmap_compose, list_elem_of_fmap.
  split.
  - intros ([[o n] f] & -> & Hin). by apply elem_of_elements in Hin.
  - intros Hin. exists t. split; [by destruct t as [[o n] f]|].
    by apply elem_of_elements.
Qed.

(** The triples of a query, from the collected sets alone. *)
Lemma as_triples_query (idx : index) (symptoms : list string) (match_all : bool) :
  as_triples (query idx symptoms match_all) =
    match collect_sets idx symptoms with
    | [] => ∅
    | first :: others => combine match_all first others
    end.
Proof.
  unfold query. destruct symptoms as [|s rest]; [done|].
  destruct (collect_sets idx (s :: rest)); [done|].
  apply as_triples_make_record.
Qed.

Lemma collect_sets_app (idx : index) (l1 l2 : list string) :
  collect_sets idx (l1 ++ l2)%list = (collect_sets idx l1 ++ collect_sets idx l2)%list.
Proof.
  induction l1 as [|s l1 IH]; simpl; [done|].
  case_decide; simpl; by rewrite IH.
Qed.

End SymptomIndexFacts.

(** ** The claims on the query engine *)

Module QueryClaims.
Import SymptomIndex SymptomIndexFacts.

Lemma key_matches_spec (norm key : string) :
  key_matches norm key = true ↔
  (∃ pre post, key = pre ++ norm ++ post) ∨ (∃ pre post, norm = pre ++ key ++ post).
Proof. unfold key_matches. by rewrite orb_true_iff, !contains_spec. Qed.

Lemma scan_after_miss (idx : index) (term : string) :
  _normalize_symptom term ≠ "" →
  triples_of (default [] (idx !! _normalize_symptom term)) = ∅ →
  _diseases_for_symptom_run idx term
  = (SubstringScan, substring_scan idx (_normalize_symptom term)).
Proof.
  intros Hne Hmiss. rewrite run_nonempty_term by done. simpl.
  rewrite Hmiss. rewrite decide_True by done. f_equal. apply (left_id_L ∅ (∪)).
Qed.

(** C8, amended.  For a term whose normal form is not empty and keys no
    bucket, [_diseases_for_symptom] takes the scan and returns the triples of
    exactly the buckets whose key contains the normal form or is contained
    in it; the scan is taken only when the exact bucket gives no triple; with
    a bucket under "acute fever" and none under "fever", the term "fever"
    gets the diseases of that bucket (and only those when it is the only
    bucket). *)
Theorem substring_fallback :
  (∀ (idx : index) (term : string),
     _normalize_symptom term ≠ "" →
     idx !! _normalize_symptom term = None →
     (_diseases_for_symptom_run idx term).1 = SubstringScan
     ∧ returns_matching_buckets idx term)
  ∧ (∀ (idx : index) (term : string),
       (_diseases_for_symptom_run idx term).1 = SubstringScan →
       triples_of (default [] (idx !! _normalize_symptom term)) = ∅)
  ∧ (∀ (idx : index) (entries : list entry),
       idx !! "acute fever" = Some entries →
       idx !! "fever" = None →
       triples_of entries ⊆ _diseases_for_symptom idx "fever")
  ∧ (∀ entries : list entry,
       _diseases_for_symptom {[ "acute fever" := entries ]} "fever" = triples_of entries).
Proof.
  assert (∀ (idx : index) (term : string),
     _normalize_symptom term ≠ "" →
     idx !! _normalize_symptom term = None →
     (_diseases_for_symptom_run idx term).1 = SubstringScan
     ∧ returns_matching_buckets idx term) as Hscan.
  { intros idx term Hne Hnone.
    assert (triples_of (default [] (idx !! _normalize_symptom term)) = ∅) as Hmiss
      by (by rewrite Hnone).
    pose proof (scan_after_miss idx term Hne Hmiss) as Hrun.
    split; [by rewrite Hrun|].
    intros t. unfold _diseases_for_symptom. rewrite Hrun. simpl.
    rewrite elem_of_substring_scan.
    split; intros (key & entries & Hl & Hm & Ht); exists key, entries;
      (split; [done|]); (split; [|done]); by apply key_matches_spec. }
  split; [exact Hscan|]. split; [|split].
  - intros idx term. unfold _diseases_for_symptom_run.
    destruct (PyStr.nonempty _); simpl; [|done].
    case_decide; [done|]. simpl. discriminate.
  - intros idx entries Hacute Hfever t Ht.
    destruct (Hscan idx "fever") as [_ Hret]; [done | exact Hfever |].
    apply Hret. exists "acute fever", entries.
    split; [done|]. split; [|done]. left. by exists "acute ", "".
  - intros entries. apply set_eq. intros t.
    destruct (Hscan {[ "acute fever" := entries ]} "fever") as [_ Hret];
      [done | by apply lookup_singleton_ne |].
    rewrite (Hret t). split.
    + intros (key & es & Hl & _ & Ht).
      apply lookup_singleton_Some in Hl as [_ <-]. done.
    + intros Ht. exists "acute fever", entries.
      split; [apply lookup_singleton_eq|]. split; [|done].
      left. by exists "acute ", "".
Qed.

Lemma substring_fallback_witness :
  _normalize_symptom "Fever" ≠ ""
  ∧ ({[ "acute fever" := [("558", "Marfan syndrome", "Frequent", "HP:1")] ]}
       : index) !! _normalize_symptom "Fever" = None
  ∧ returns_matching_buckets
      {[ "acute fever" := [("558", "Marfan syndrome", "Frequent", "HP:1")] ]} "Fever".
Proof.
  split; [done|]. split; [done|].
  apply (proj1 substring_fallback); done.
Defined.

(** C8 as stated fails for a term of whitespace: no bucket is keyed by its
    normal form, the empty string is a substring of every key, and yet
    nothing is returned. *)
Lemma substring_fallback_counterexample :
  let idx : index := {[ "acute fever" := [("558", "Marfan syndrome", "Frequent", "HP:1")] ]} in
  idx !! _normalize_symptom " " = None
  ∧ ¬ returns_matching_buckets idx " ".
Proof.
  split; [done|]. intros Hret.
  specialize (Hret ("558", "Marfan syndrome", "Frequent")).
  destruct Hret as [_ Hret].
  assert (("558", "Marfan syndrome", "Frequent")
          ∈ _diseases_for_symptom
              {[ "acute fever" := [("558", "Marfan syndrome", "Frequent", "HP:1")] ]} " ")
    as Hin.
  { apply Hret. eexists "acute fever", _. split; [apply lookup_singleton_eq|].
    split; [left; by exists "", "acute fever"|].
    apply elem_of_triples_of. eexists. split; [apply list_elem_of_here|done]. }
  unfold _diseases_for_symptom in Hin. rewrite run_empty_term in Hin by done.
  simpl in Hin. set_solver.
Qed.

Lemma collect_one (idx : index) (A : string) :
  collect_sets idx [A]
  = if decide (_diseases_for_symptom idx A = ∅) then [] else [_diseases_for_symptom idx A].
Proof. simpl. by case_decide. Qed.

Lemma as_triples_query_one (idx : index) (A : string) (match_all : bool) :
  as_triples (query idx [A] match_all) = _diseases_for_symptom idx A.
Proof.
  rewrite as_triples_query, collect_one. case_decide as H; [by rewrite H|].
  by destruct match_all.
Qed.

Lemma as_triples_query_two (idx : index) (A B : string) :
  as_triples (query idx [A; B] true)
  = let a := _diseases_for_symptom idx A in
    let b := _diseases_for_symptom idx B in
    if decide (a = ∅) then b else if decide (b = ∅) then a else a ∩ b.
Proof.
  rewrite as_triples_query. simpl.
  destruct (decide (_diseases_for_symptom idx A = ∅)) as [Ha|Ha];
    destruct (decide (_diseases_for_symptom idx B = ∅)) as [Hb|Hb]; simpl; done.
Qed.

(** C1, amended.  On (code, name, frequency) triples, a query for one term
    is the set [_diseases_for_symptom] gives it; a match-all query for two
    terms is the intersection of the two sets when neither is empty and the
    other set when one is empty; so it is the intersection of the two
    one-term queries exactly when both sets are empty or neither is. *)
Theorem query_match_all_two_terms (idx : index) (A B : string) :
  let a := _diseases_for_symptom idx A in
  let b := _diseases_for_symptom idx B in
  as_triples (query idx [A] true) = a
  ∧ as_triples (query idx [B] true) = b
  ∧ as_triples (query idx [A; B] true)
    = (if decide (a = ∅) then b else if decide (b = ∅) then a else a ∩ b)
  ∧ (intersection_law idx A B ↔ (a = ∅ ↔ b = ∅)).
Proof.
  intros a b. split; [apply as_triples_query_one|].
  split; [apply as_triples_query_one|].
  split; [apply as_triples_query_two|].
  unfold intersection_law.
  rewrite as_triples_query_two, !as_triples_query_one. simpl. fold a b.
  destruct (decide (a = ∅)) as [Ha|Ha]; destruct (decide (b = ∅)) as [Hb|Hb].
  - rewrite Ha, Hb. split; [done|]. intros _. symmetry. apply (left_absorb_L ∅ (∩)).
  - split; [|intros [H _]; by apply H in Ha].
    intros H. exfalso. apply Hb. rewrite H, Ha. apply (left_absorb_L ∅ (∩)).
  - split; [|intros [_ H]; by apply H in Hb].
    intros H. exfalso. apply Ha. rewrite H, Hb. apply (right_absorb_L ∅ (∩)).
  - split; [|done]. intros _. split; intros; done.
Qed.

(** C1 as stated fails when one of the two terms yields nothing: the
    other term's diseases are returned, not the empty intersection. *)
Lemma query_match_all_counterexample :
  let idx : index := {[ "fever" := [("558", "Marfan syndrome", "Frequent", "HP:1")] ]} in
  as_triples (query idx ["fever"; "cough"] true) = {[ ("558", "Marfan syndrome", "Frequent") ]}
  ∧ as_triples (query idx ["fever"] true) ∩ as_triples (query idx ["cough"] true) = ∅
  ∧ ¬ intersection_law idx "fever" "cough".
Proof.
  assert (as_triples (query ({[ "fever" := [("558", "Marfan syndrome", "Frequent", "HP:1")] ]}) ["fever"; "cough"] true)
          = {[ ("558", "Marfan syndrome", "Frequent") ]}) as H1.
  { rewrite as_triples_query_two. vm_compute. reflexivity. }
  assert (as_triples (query ({[ "fever" := [("558", "Marfan syndrome", "Frequent", "HP:1")] ]}) ["fever"] true)
          ∩ as_triples (query ({[ "fever" := [("558", "Marfan syndrome", "Frequent", "HP:1")] ]}) ["cough"] true) = ∅) as H2.
  { rewrite !as_triples_query_one.
    assert (_diseases_for_symptom
              {[ "fever" := [("558", "Marfan syndrome", "Frequent", "HP:1")] ]} "cough" = ∅)
      as -> by (by vm_compute).
    apply (right_absorb_L ∅ (∩)). }
  simpl. split; [exact H1|]. split; [exact H2|].
  unfold intersection_law. rewrite H1, H2.
  intros H. apply (f_equal (λ X : gset triple, size X)) in H.
  rewrite size_singleton, size_empty in H. discriminate.
Qed.


(** C10.  A term that is empty or made of whitespace only normalizes to the
    empty string; [_diseases_for_symptom] leaves by its first exit with the
    empty set, so the scan, which would match every key, does not run; and
    [query] drops the term. *)
Theorem whitespace_term_is_discarded (idx : index) (term : string) :
  PyStr.all_space term = true →
  _normalize_symptom term = ""
  ∧ _diseases_for_symptom_run idx term = (EmptyTerm, ∅)
  ∧ _diseases_for_symptom idx term = ∅
  ∧ (∀ key : string, key_matches (_normalize_symptom term) key = true)
  ∧ ∀ (before after : list string) (match_all : bool),
      collect_sets idx (before ++ term :: after) = collect_sets idx (before ++ after)
      ∧ as_triples (query idx (before ++ term :: after) match_all)
        = as_triples (query idx (before ++ after) match_all).
Proof.
  intros Hws. pose proof (normalize_all_space term Hws) as Hn.
  pose proof (run_empty_term idx term Hn) as Hrun.
  assert (_diseases_for_symptom idx term = ∅) as Hds
    by (unfold _diseases_for_symptom; by rewrite Hrun).
  split; [done|]. split; [done|]. split; [done|]. split.
  { intros key. rewrite Hn. unfold key_matches. by rewrite contains_empty. }
  intros before after match_all. split.
  - rewrite !collect_sets_app. simpl. rewrite Hds. by case_decide.
  - rewrite !as_triples_query, !collect_sets_app. simpl. rewrite Hds.
    by case_decide.
Qed.

Lemma whitespace_term_is_discarded_witness :
  PyStr.all_space "   " = true
  ∧ _diseases_for_symptom
      {[ "acute fever" := [("558", "Marfan syndrome", "Frequent", "HP:1")] ]} "   " = ∅.
Proof.
  split; [reflexivity|].
  apply (whitespace_term_is_discarded _ "   "). reflexivity.
Defined.

End QueryClaims.

(** ** Python values *)

Module PyFacts.
Import Py.

(** Induction on a JSON value, with the hypothesis for every item of a list
    and every value of a dict. *)
Lemma json_nested_ind (P : json → Prop)
    (Hnull : P JNull)
    (Hbool : ∀ b, P (JBool b))
    (Hnum : ∀ n, P (JNum n))
    (Hstr : ∀ s, P (JStr s))
    (Hlist : ∀ items, Forall P items → P (JList items))
    (Hdict : ∀ fields, Forall (λ kv : string * json, P kv.2) fields → P (JDict fields)) :
  ∀ j, P j.
Proof.
  fix F 1. intros [ | b | n | s | items | fields ].
  - exact Hnull.
  - apply Hbool.
  - apply Hnum.
  - apply Hstr.
  - apply Hlist. induction items as [|x items IH]; constructor; [apply F | exact IH].
  - apply Hdict. induction fields as [|[k v] fields IH]; constructor; [apply F | exact IH].
Qed.

Lemma eq_refl (j : json) : eq j j = true.
Proof.
  induction j as [ | b | n | s | items IH | fields IH ] using json_nested_ind; simpl.
  - done.
  - by destruct b.
  - apply Z.eqb_refl.
  - apply String.eqb_refl.
  - induction IH as [|x items Hx _ IHitems]; [done|]. by rewrite Hx, IHitems.
  - rewrite Nat.eqb_refl. simpl.
    assert (∀ prefix rest, fields = (prefix ++ rest)%list →
      (fix all (fs : list (string * json)) : bool :=
         match fs with
         | [] => true
         | (k, v) :: fs' =>
             existsb (λ kw : string * json, String.eqb k kw.1 && eq v kw.2) fields
             && all fs'
         end) rest = true) as Hall.
    { intros prefix rest. revert prefix.
      induction rest as [|[k v] rest IHrest]; intros prefix Hsplit; [done|].
      rewrite (IHrest (prefix ++ [(k, v)])%list) by (by rewrite <- app_assoc).
      rewrite andb_true_r. apply existsb_exists. exists (k, v). split.
      - rewrite Hsplit. apply in_or_app. right. by left.
      - simpl. rewrite String.eqb_refl. simpl.
        rewrite Forall_forall in IH. apply (IH (k, v)).
        rewrite Hsplit. apply elem_of_app. right. apply list_elem_of_here. }
    by apply (Hall []).
Qed.

End PyFacts.

(** ** The index builder *)

Module BuilderFacts.
Import Py PyFacts Builder.

Lemma entry_eq_refl (e : entry) : entry_eq e e = true.
Proof.
  destruct e as [[[c n] f] i]. simpl.
  by rewrite String.eqb_refl, !eq_refl.
Qed.

Lemma entry_in_elem (e : entry) (bucket : list entry) :
  e ∈ bucket → entry_in e bucket = true.
Proof.
  intros Hin. apply existsb_exists. exists e.
  split; [by apply list_elem_of_In | apply entry_eq_refl].
Qed.

Lemma entry_in_false (e : entry) (bucket : list entry) :
  entry_in e bucket = false → ∀ x, x ∈ bucket → entry_eq x e = false.
Proof.
  intros Hf x Hx. destruct (entry_eq x e) eqn:Heq; [|done].
  assert (entry_in e bucket = true) as Ht; [|congruence].
  apply existsb_exists. exists x. split; [by apply list_elem_of_In | done].
Qed.

Lemma distinct_entries_NoDup (bucket : list entry) :
  distinct_entries bucket → NoDup bucket.
Proof.
  intros Hd. apply NoDup_alt. intros i j x Hi Hj.
  destruct (Nat.lt_trichotomy i j) as [Hlt|[Heq|Hgt]]; [|done|].
  - specialize (Hd i j x x Hlt Hi Hj). rewrite entry_eq_refl in Hd. discriminate.
  - specialize (Hd j i x x Hgt Hj Hi). rewrite entry_eq_refl in Hd. discriminate.
Qed.

Lemma distinct_entries_snoc (bucket : list entry) (e : entry) :
  distinct_entries bucket → entry_in e bucket = false →
  distinct_entries (bucket ++ [e]).
Proof.
  intros Hd Hnot i j x y Hlt Hi Hj.
  destruct (decide (j < List.length bucket)%nat) as [Hj'|Hj'].
  - rewrite lookup_app_l in Hi by lia. rewrite lookup_app_l in Hj by lia. eauto.
  - assert (j = List.length bucket) as ->.
    { apply lookup_lt_Some in Hj. rewrite length_app in Hj. simpl in Hj. lia. }
    rewrite lookup_app_l in Hi by lia.
    rewrite lookup_app_r, Nat.sub_diag in Hj by lia. simpl in Hj.
    injection Hj as <-. eapply entry_in_false; [done|].
    by eapply list_elem_of_lookup_2.
Qed.

Lemma add_symptom_distinct code name idx sym idx' :
  distinct_buckets idx →
  add_symptom code name idx sym = Ok idx' →
  distinct_buckets idx'.
Proof.
  intros Hd. destruct sym as [[hpo_id hpo_term] freq]. unfold add_symptom.
  destruct (normalize_value hpo_term) as [norm|]; simpl; [|discriminate].
  destruct (PyStr.nonempty norm); simpl; [|intros [= <-]; done].
  destruct (idx !! norm) as [bucket|] eqn:Hl; simpl.
  - rewrite Hl. simpl. destruct (entry_in _ bucket) eqn:Hin; intros [= <-]; [done|].
    intros k b. rewrite lookup_insert. case_decide as Hk.
    + intros [= <-]. apply distinct_entries_snoc; [by eapply Hd | done].
    + apply Hd.
  - rewrite lookup_insert_eq. simpl. intros [= <-].
    intros k b. rewrite lookup_insert. case_decide as Hk.
    + intros [= <-]. intros i j x y Hlt Hi Hj.
      apply lookup_lt_Some in Hi, Hj. simpl in *. lia.
    + rewrite lookup_insert_ne by done. apply Hd.
Qed.


Lemma add_symptoms_distinct code name syms : ∀ idx idx',
  distinct_buckets idx →
  add_symptoms code name idx syms = Ok idx' →
  distinct_buckets idx'.
Proof.
  induction syms as [|sym syms IH]; intros idx idx' Hd; simpl.
  - by intros [= <-].
  - destruct (add_symptom code name idx sym) as [idx1|] eqn:H1; simpl; [|discriminate].
    apply IH. by eapply add_symptom_distinct.
Qed.

Lemma add_disorder_distinct st d st' :
  distinct_buckets (index st) →
  add_disorder st d = Ok st' →
  distinct_buckets (index st').
Proof.
  intros Hd. unfold add_disorder.
  destruct (_extract_disease_and_symptoms d) as [[[code name] syms]|]; simpl; [|discriminate].
  destruct code as [code|]; [|by intros [= <-]].
  destruct (PyStr.nonempty code); simpl; [|by intros [= <-]].
  destruct (add_symptoms code _ (index st) syms) as [idx'|] eqn:H; simpl; [|discriminate].
  intros [= <-]. simpl. by eapply add_symptoms_distinct.
Qed.

Lemma add_disorders_distinct ds : ∀ st st',
  distinct_buckets (index st) →
  add_disorders st ds = Ok st' →
  distinct_buckets (index st').
Proof.
  induction ds as [|d ds IH]; intros st st' Hd; simpl.
  - by intros [= <-].
  - destruct (add_disorder st d) as [st1|] eqn:H1; simpl; [|discriminate].
    apply IH. by eapply add_disorder_distinct.
Qed.

Lemma add_disorders_app ds1 ds2 st :
  add_disorders st (ds1 ++ ds2)%list
  = bind (add_disorders st ds1) (λ st', add_disorders st' ds2).
Proof.
  revert st. induction ds1 as [|d ds1 IH]; intros st; simpl; [done|].
  destruct (add_disorder st d); simpl; [apply IH | done].
Qed.

(** A disorder without code or name is skipped by the extraction. *)
Lemma extract_lacking d :
  lacks_code_or_name d → _extract_disease_and_symptoms d = Ok (None, None, []).
Proof.
  intros (obj & Hobj & Hlack).
  unfold _extract_disease_and_symptoms. rewrite Hobj.
  destruct obj as [|kv obj]; [done|].
  remember (kv :: obj) as o. replace (truthy (JDict o)) with true by (by subst o).
  simpl.
  destruct (truthy (default JNull (dict_get o "OrphaCode"))) eqn:Hc; simpl.
  - destruct Hlack as [?|Hn]; [congruence|]. rewrite Hc, Hn. by rewrite orb_true_r.
  - by rewrite Hc.
Qed.

Lemma add_disorder_lacking st d :
  lacks_code_or_name d → add_disorder st d = Ok st.
Proof. intros H. unfold add_disorder. by rewrite extract_lacking. Qed.

(** Processing an association a second time changes nothing. *)
Lemma add_symptom_present code name idx hpo_id hpo_term freq norm bucket :
  normalize_value hpo_term = Ok norm →
  idx !! norm = Some bucket →
  (code, name, freq, hpo_id) ∈ bucket →
  add_symptom code name idx (hpo_id, hpo_term, freq) = Ok idx.
Proof.
  intros Hnorm Hl Hin. unfold add_symptom. rewrite Hnorm. simpl.
  destruct (PyStr.nonempty norm); simpl; [|done].
  rewrite Hl. simpl. rewrite Hl. simpl. by rewrite entry_in_elem.
Qed.

Lemma add_symptom_again code name idx sym idx' :
  add_symptom code name idx sym = Ok idx' →
  add_symptom code name idx' sym = Ok idx'.
Proof.
  destruct sym as [[hpo_id hpo_term] freq]. intros H.
  pose proof H as H'. unfold add_symptom in H'.
  destruct (normalize_value hpo_term) as [norm|] eqn:Hnorm; simpl in H'; [|discriminate].
  destruct (PyStr.nonempty norm) eqn:Hne; simpl in H'.
  2:{ injection H' as <-. exact H. }
  destruct (idx !! norm) as [bucket|] eqn:Hl; simpl in H'.
  - rewrite Hl in H'. simpl in H'.
    destruct (entry_in _ bucket) eqn:Hin; injection H' as <-; [exact H|].
    eapply add_symptom_present; [done | apply lookup_insert_eq |].
    apply elem_of_app. right. apply list_elem_of_here.
  - rewrite lookup_insert_eq in H'. simpl in H'. injection H' as <-.
    eapply add_symptom_present; [done | apply lookup_insert_eq |].
    apply list_elem_of_here.
Qed.

(** What one association with a usable term adds. *)
Lemma add_symptom_fresh code name (hpo_id freq : json) (term : string) :
  _normalize_symptom term ≠ "" →
  add_symptom code name ∅ (hpo_id, JStr term, freq)
  = Ok {[ _normalize_symptom term := [(code, name, freq, hpo_id)] ]}.
Proof.
  intros Hne. unfold add_symptom. simpl.
  destruct (PyStr.nonempty (_normalize_symptom term)) eqn:Hn;
    [|by apply nonempty_false in Hn].
  simpl. rewrite lookup_empty, lookup_insert_eq. simpl.
  by rewrite insert_insert_eq, insert_empty.
Qed.

Lemma repr_Z_nonempty (n : Z) : PyStr.nonempty (repr_Z n) = true.
Proof.
  unfold repr_Z. destruct (Z.to_int n) as [d|d]; simpl; [|done].
  by destruct d.
Qed.

(** [str] of a truthy value is not empty. *)
Lemma str_truthy (j : json) : truthy j = true → PyStr.nonempty (str j) = true.
Proof.
  destruct j as [ | b | n | s | items | fields ]; simpl; try done.
  - by intros ->.
  - intros _. apply repr_Z_nonempty.
Qed.

(** The extraction of a disorder with a code, a name and a list of
    associations. *)
Lemma extract_valid d fields obj code name al assocs :
  d = JDict fields →
  dict_get fields "Disorder" = Some (JDict obj) →
  dict_get obj "OrphaCode" = Some code → truthy code = true →
  dict_get obj "Name" = Some name → truthy name = true →
  dict_get obj "HPODisorderAssociationList" = Some (JDict al) →
  dict_get al "HPODisorderAssociation" = Some (JList assocs) →
  _extract_disease_and_symptoms d
  = Ok (Some (str code), Some name, omap symptom_of_assoc assocs).
Proof.
  intros -> Hobj Hcode Hct Hname Hnt Hal Hassoc.
  unfold _extract_disease_and_symptoms. simpl. rewrite Hobj. simpl.
  destruct obj as [|kv obj]; [done|].
  remember (kv :: obj) as o. replace (truthy (JDict o)) with true by (by subst o).
  simpl. rewrite Hcode. simpl. rewrite Hct. simpl. rewrite Hname. simpl.
  rewrite Hct, Hnt. simpl. rewrite Hal. simpl. by rewrite Hassoc.
Qed.


Lemma build_dataset (disorders : list json) :
  build_symptom_index (dataset disorders)
  = bind (add_disorders empty_state disorders) (λ st,
    Ok {| symptom_to_diseases := index st;
          disease_count := size (disease_info st);
          symptom_count := size (index st) |}).
Proof. reflexivity. Qed.

Lemma add_symptoms_twice code name idx sym :
  add_symptoms code name idx [sym; sym] = add_symptoms code name idx [sym].
Proof.
  simpl. destruct (add_symptom code name idx sym) as [idx'|] eqn:H; simpl; [|done].
  by rewrite (add_symptom_again _ _ _ _ _ H).
Qed.

Lemma distinct_buckets_empty : distinct_buckets ∅.
Proof. intros norm bucket H. by rewrite lookup_empty in H. Qed.

Lemma add_disorder_valid st d fields obj code name al assocs :
  d = JDict fields →
  dict_get fields "Disorder" = Some (JDict obj) →
  dict_get obj "OrphaCode" = Some code → truthy code = true →
  dict_get obj "Name" = Some name → truthy name = true →
  dict_get obj "HPODisorderAssociationList" = Some (JDict al) →
  dict_get al "HPODisorderAssociation" = Some (JList assocs) →
  add_disorder st d
  = bind (add_symptoms (str code) name (index st) (omap symptom_of_assoc assocs))
      (λ idx', Ok {| index := idx';
                     disease_info := <[str code := name]> (disease_info st) |}).
Proof.
  intros Hd Hobj Hcode Hct Hname Hnt Hal Hassoc. unfold add_disorder.
  rewrite (extract_valid d fields obj code name al assocs) by done.
  unfold bind at 1. by rewrite (str_truthy code Hct).
Qed.

Lemma omap_twice (a : json) (sym : symptom) :
  symptom_of_assoc a = Some sym → omap symptom_of_assoc [a; a] = [sym; sym].
Proof. intros H. simpl. by rewrite H. Qed.

End BuilderFacts.

(** ** The claim on the index builder *)

Module BuilderClaims.
Import Py PyFacts Builder BuilderFacts.

(** C6.  A disorder record without a code or without a name leaves the
    index (and the whole build) as if it were not in the dataset.  Two
    identical associations of one disorder put one entry in the bucket of
    their term: the second changes nothing, the index built from that
    disorder alone holds exactly that entry, and no bucket of any index
    built holds two equal entries. *)
Theorem index_build_skips_and_deduplicates :
  (∀ (st : state) (d : json), lacks_code_or_name d → add_disorder st d = Ok st)
  ∧ (∀ (before after : list json) (d : json),
       lacks_code_or_name d →
       build_symptom_index (dataset (before ++ d :: after))
       = build_symptom_index (dataset (before ++ after)))
  ∧ (∀ (code : string) (name : json) (idx : gmap string (list entry)) (sym : symptom),
       add_symptoms code name idx [sym; sym] = add_symptoms code name idx [sym])
  ∧ (∀ (fields obj al : list (string * json)) (code name a hpo_id freq : json)
       (term : string),
       dict_get fields "Disorder" = Some (JDict obj) →
       dict_get obj "OrphaCode" = Some code → truthy code = true →
       dict_get obj "Name" = Some name → truthy name = true →
       dict_get obj "HPODisorderAssociationList" = Some (JDict al) →
       dict_get al "HPODisorderAssociation" = Some (JList [a; a]) →
       symptom_of_assoc a = Some (hpo_id, JStr term, freq) →
       _normalize_symptom term ≠ "" →
       ∃ p, build_symptom_index (dataset [JDict fields]) = Ok p
            ∧ symptom_to_diseases p
              = {[ _normalize_symptom term := [(str code, name, freq, hpo_id)] ]})
  ∧ (∀ (raw : json) (p : payload),
       build_symptom_index raw = Ok p →
       distinct_buckets (symptom_to_diseases p)
       ∧ ∀ norm bucket, symptom_to_diseases p !! norm = Some bucket → NoDup bucket).
Proof.
  split; [exact add_disorder_lacking|]. split; [|split; [|split]].
  - intros before after d Hlack. rewrite !build_dataset, !add_disorders_app.
    destruct (add_disorders empty_state before) as [st|]; simpl; [|done].
    by rewrite add_disorder_lacking.
  - exact add_symptoms_twice.
  - intros fields obj al code name a hpo_id freq term
      Hobj Hcode Hct Hname Hnt Hal Hassoc Hsym Hne.
    rewrite build_dataset. unfold add_disorders.
    rewrite (add_disorder_valid _ _ fields obj code name al [a; a]) by done.
    rewrite (omap_twice a _ Hsym), add_symptoms_twice.
    unfold add_symptoms. simpl index. rewrite add_symptom_fresh by done.
    simpl. eauto.
  - intros raw p Hbuild.
    assert (distinct_buckets (symptom_to_diseases p)) as Hd.
    { unfold build_symptom_index in Hbuild.
      destruct (iter (_extract_disorders raw)) as [ds|]; simpl in Hbuild; [|discriminate].
      destruct (add_disorders empty_state ds) as [st|] eqn:Hst; simpl in Hbuild;
        [|discriminate].
      injection Hbuild as <-. simpl.
      eapply add_disorders_distinct; [|exact Hst]. apply distinct_buckets_empty. }
    split; [exact Hd|]. intros norm bucket Hl.
    apply distinct_entries_NoDup. by eapply Hd.
Qed.

Lemma index_build_skips_and_deduplicates_witness :
  lacks_code_or_name (JDict [("Disorder", JDict [("Name", JStr "Marfan syndrome")])])
  ∧ add_disorder empty_state
      (JDict [("Disorder", JDict [("Name", JStr "Marfan syndrome")])])
    = Ok empty_state.
Proof.
  assert (lacks_code_or_name
            (JDict [("Disorder", JDict [("Name", JStr "Marfan syndrome")])])) as H.
  { eexists. split; [reflexivity|]. by left. }
  split; [exact H|]. apply (proj1 index_build_skips_and_deduplicates). exact H.
Defined.

End BuilderClaims.

(** ** The orchestrator *)

Module OrchestratorFacts.
Import Py Orchestrator.

Lemma save_checkpoint_document (f : file) (completed : list json)
    (last_error : option string) :
  save_checkpoint f completed last_error
  = Document (checkpoint_doc completed last_error).
Proof. reflexivity. Qed.

(** A job whose key is in [completed] is passed over. *)
Lemma run_jobs_skip fetch st key name kwargs rest :
  key_in key (completed st) = true →
  run_jobs fetch st ((key, name, kwargs) :: rest) = run_jobs fetch st rest.
Proof. intros H. simpl. by rewrite H. Qed.

Lemma run_jobs_all_completed fetch st jobs :
  all_completed jobs (completed st) → run_jobs fetch st jobs = RanThrough st.
Proof.
  induction 1 as [|[[key name] kwargs] jobs Hkey _ IH]; [done|].
  rewrite run_jobs_skip by exact Hkey. exact IH.
Qed.

(** The loop over a list in two parts. *)
Lemma run_jobs_app fetch pre rest : ∀ st,
  run_jobs fetch st (pre ++ rest)%list
  = match run_jobs fetch st pre with
    | RanThrough st' => run_jobs fetch st' rest
    | Exited st' => Exited st'
    end.
Proof.
  induction pre as [|[[key name] kwargs] pre IH]; intros st; simpl; [done|].
  destruct (key_in key (completed st)); [apply IH|].
  destruct (negb (bool_decide (key ∈ fetcher_map))); [done|].
  destruct (fetch (invoked st) key kwargs); [apply IH | done].
Qed.

(** [completed] only grows, and only keys of the jobs are invoked. *)
Lemma run_jobs_grows fetch jobs : ∀ st,
  let st' := end_state (run_jobs fetch st jobs) in
  (∃ added, completed st' = (completed st ++ added)%list)
  ∧ (∃ called, invoked st' = (invoked st ++ called)%list
               ∧ ∀ k, k ∈ called → k ∈ job_key <$> jobs).
Proof.
  induction jobs as [|[[key name] kwargs] jobs IH]; intros st; simpl.
  - split; [exists []; by rewrite app_nil_r|].
    exists []. split; [by rewrite app_nil_r|]. intros k Hk. by apply elem_of_nil in Hk.
  - destruct (key_in key (completed st)).
    { destruct (IH st) as [Hc (called & Hi & Hk)]. split; [exact Hc|].
      exists called. split; [exact Hi|]. intros k Hin. right. by apply Hk. }
    destruct (negb (bool_decide (key ∈ fetcher_map))); simpl.
    { split; [exists []; by rewrite app_nil_r|].
      exists []. split; [by rewrite app_nil_r|]. intros k Hk. by apply elem_of_nil in Hk. }
    destruct (fetch (invoked st) key kwargs); simpl.
    + match goal with |- context [run_jobs fetch ?s jobs] =>
        destruct (IH s) as [[added Hc] (called & Hi & Hk)] end.
      simpl in Hc, Hi. split.
      * exists (JStr key :: added). by rewrite Hc, <- app_assoc.
      * exists (key :: called). split; [by rewrite Hi, <- app_assoc|].
        intros k [->|Hin]%elem_of_cons; [by left | right; by apply Hk].
    + split; [exists []; by rewrite app_nil_r|].
      exists [key]. split; [done|]. intros k ->%list_elem_of_singleton. by left.
Qed.

End OrchestratorFacts.

(** ** The claims on the orchestrator *)

Module OrchestratorClaims.
Import Py Orchestrator OrchestratorFacts.

(** C2.  When the checkpoint file holds a completed list with the key of
    every job and a null last_error, a run without [--reset] invokes no fetch
    collaborator, ends with exit code 0 and leaves the checkpoint as it was;
    in the loop, a job whose key is in the completed list is passed over
    whatever the state. *)
Theorem resume_invokes_nothing (jobs : list job) (argv : list string)
    (fetch : collaborator) (cp : json) (cs : list json) :
  "--reset" ∉ argv →
  get cp "completed" (JList []) = Ok (JList cs) →
  get cp "last_error" JNull = Ok JNull →
  all_completed jobs cs →
  main_with jobs argv fetch (Document cp)
  = {| status := ExitCode 0;
       final := Some {| completed := cs;
                        checkpoint := Document (checkpoint_doc cs None);
                        invoked := [] |} |}
  ∧ ∀ (st : state) (key name : string) (kwargs : list (string * json)) (rest : list job),
      key_in key (completed st) = true →
      run_jobs fetch st ((key, name, kwargs) :: rest) = run_jobs fetch st rest.
Proof.
  intros Hreset Hcompleted Herror Hall. split; [|intros; by apply run_jobs_skip].
  unfold main_with, startup. simpl load_checkpoint.
  rewrite Hcompleted. simpl. rewrite Herror. simpl.
  rewrite bool_decide_false by done.
  by rewrite run_jobs_all_completed.
Qed.

Lemma resume_invokes_nothing_witness :
  main [] (λ _ _ _, Failed "ConnectionError" "unreachable")
    (Document (checkpoint_doc (JStr <$> fetcher_map) None))
  = {| status := ExitCode 0;
       final := Some {| completed := JStr <$> fetcher_map;
                        checkpoint := Document (checkpoint_doc (JStr <$> fetcher_map) None);
                        invoked := [] |} |}.
Proof.
  apply (resume_invokes_nothing CONFIG [] _ _ (JStr <$> fetcher_map)).
  - apply not_elem_of_nil.
  - reflexivity.
  - reflexivity.
  - repeat constructor.
Defined.

(** C3.  When the jobs before the failing one run through (each passed over
    or fetched) and the collaborator of the next job, not yet completed,
    raises, the run saves a checkpoint whose last_error is the type name and
    the message of the exception and whose completed list is the one reached
    before that job, invokes no later job and ends with exit code 1; the
    completed list reached extends the one the run started with. *)
Theorem failure_halts_run (pre post : list job) (key name : string)
    (kwargs : list (string * json)) (argv : list string) (fetch : collaborator)
    (f : file) (st0 st1 : state) (type_name message : string) :
  startup argv f = Ok st0 →
  run_jobs fetch st0 pre = RanThrough st1 →
  key_in key (completed st1) = false →
  key ∈ fetcher_map →
  fetch (invoked st1) key kwargs = Failed type_name message →
  main_with (pre ++ (key, name, kwargs) :: post) argv fetch f
  = {| status := ExitCode 1;
       final := Some {| completed := completed st1;
                        checkpoint := Document (checkpoint_doc (completed st1)
                                        (Some (type_name ++ ": " ++ message)));
                        invoked := (invoked st1 ++ [key])%list |} |}
  ∧ (∃ added, completed st1 = (completed st0 ++ added)%list)
  ∧ (∀ k, k ∈ invoked st1 → k ∈ job_key <$> pre).
Proof.
  intros Hstart Hpre Hkey Hmap Hfail. split; [|split].
  - unfold main_with. rewrite Hstart, run_jobs_app, Hpre. simpl.
    rewrite Hkey. rewrite bool_decide_true by done. simpl. by rewrite Hfail.
  - pose proof (run_jobs_grows fetch pre st0) as [Hc _]. by rewrite Hpre in Hc.
  - pose proof (run_jobs_grows fetch pre st0) as [_ (called & Hi & Hk)].
    rewrite Hpre in Hi. simpl in Hi.
    assert (invoked st0 = []) as Hnil.
    { unfold startup in Hstart.
      destruct (get (load_checkpoint f) "completed" (JList [])) as [c|];
        simpl in Hstart; [|discriminate].
      destruct (iter c); simpl in Hstart; [|discriminate].
      destruct (get (load_checkpoint f) "last_error" JNull) as [e|];
        simpl in Hstart; [|discriminate].
      destruct (if truthy e then _ else _); simpl in Hstart; [|discriminate].
      destruct (bool_decide _); by injection Hstart as <-. }
    rewrite Hi, Hnil. simpl. exact Hk.
Qed.

Lemma failure_halts_run_witness :
  main [] (λ _ key _, if String.eqb key "pubmed"
                      then Failed "RetryError" "5 attempts" else Fetched) Absent
  = {| status := ExitCode 1;
       final := Some {| completed := [JStr "orphanet"];
                        checkpoint := Document (checkpoint_doc [JStr "orphanet"]
                                        (Some "RetryError: 5 attempts"));
                        invoked := ["orphanet"; "pubmed"] |} |}.
Proof.
  apply (failure_halts_run
           [("orphanet", "Orphanet", [("dataset", JStr "phenotypes")])]
           (drop 2 CONFIG) "pubmed" "PubMed"
           [("term", JStr "rare disease"); ("max_records", JNum 5000)]
           [] _ Absent
           {| completed := []; checkpoint := Absent; invoked := [] |}
           {| completed := [JStr "orphanet"];
              checkpoint := Document (checkpoint_doc [JStr "orphanet"] None);
              invoked := ["orphanet"] |}
           "RetryError" "5 attempts").
  - reflexivity.
  - reflexivity.
  - reflexivity.
  - apply list_elem_of_further, list_elem_of_here.
  - reflexivity.
Defined.

(** C9, amended.  A save leaves the file holding exactly the document of
    the state saved, whatever it held, and [load_checkpoint] reads that state
    back; on the way the file is first emptied, and a reader who loads it
    then gets the empty checkpoint. *)
Theorem save_overwrites_in_place (f : file) (completed : list json)
    (last_error : option string) :
  save_checkpoint f completed last_error = Document (checkpoint_doc completed last_error)
  ∧ load_checkpoint (save_checkpoint f completed last_error)
    = checkpoint_doc completed last_error
  ∧ contents_during f (save_checkpoint_ops completed last_error)
    = [Truncated; Document (checkpoint_doc completed last_error)]
  ∧ load_checkpoint Truncated = checkpoint_doc [] None.
Proof. repeat split. Qed.

(** C9 as stated fails: while the second job's completion is saved over a
    checkpoint holding the first, a reader can find the empty file, which is
    neither, and loads from it a checkpoint with nothing completed. *)
Lemma save_checkpoint_counterexample :
  let f := Document (checkpoint_doc [JStr "orphanet"] None) in
  Truncated ∈ contents_during f (save_checkpoint_ops [JStr "orphanet"; JStr "pubmed"] None)
  ∧ load_checkpoint Truncated = checkpoint_doc [] None
  ∧ ¬ atomic_replace f [JStr "orphanet"; JStr "pubmed"] None.
Proof.
  simpl. split; [apply list_elem_of_here|]. split; [reflexivity|].
  intros Hatomic. destruct (Hatomic Truncated) as [H|H].
  - apply list_elem_of_here.
  - discriminate.
  - discriminate.
Qed.

End OrchestratorClaims.

(** ** The deduplicator *)

Module DedupFacts.
Import Py Dedup.

Section sorting.
Context {A : Type} (k : A → Z * Z).

Lemma key_le_total (a b : Z * Z) : key_le a b = false → key_le b a = true.
Proof.
  unfold key_le. destruct a as [a1 a2], b as [b1 b2]. simpl.
  rewrite orb_false_iff, andb_false_iff, orb_true_iff, andb_true_iff.
  rewrite !Z.ltb_lt, !Z.ltb_ge, !Z.eqb_eq, !Z.eqb_neq, !Z.leb_le, Z.leb_gt. lia.
Qed.

Lemma key_le_trans (a b c : Z * Z) :
  key_le a b = true → key_le b c = true → key_le a c = true.
Proof.
  unfold key_le. destruct a as [a1 a2], b as [b1 b2], c as [c1 c2]. simpl.
  rewrite !orb_true_iff, !andb_true_iff, !Z.ltb_lt, !Z.eqb_eq, !Z.leb_le. lia.
Qed.

Lemma insert_by_perm (x : A) (l : list A) : insert_by k x l ≡ₚ x :: l.
Proof.
  induction l as [|y l IH]; simpl; [done|].
  destruct (key_le (k x) (k y)); [done|].
  rewrite IH. apply Permutation_swap.
Qed.

Lemma sorted_by_perm (l : list A) : sorted_by k l ≡ₚ l.
Proof.
  induction l as [|x l IH]; simpl; [done|].
  by rewrite insert_by_perm, IH.
Qed.

Lemma insert_by_sorted (x : A) (l : list A) :
  StronglySorted (sorts_before k) l → StronglySorted (sorts_before k) (insert_by k x l).
Proof.
  induction 1 as [|y l Hs IH Hy]; simpl.
  - repeat constructor.
  - destruct (key_le (k x) (k y)) eqn:Hxy.
    + constructor; [by constructor|]. constructor; [exact Hxy|].
      eapply Forall_impl; [exact Hy|]. intros z Hz. by eapply key_le_trans.
    + constructor; [exact IH|].
      rewrite insert_by_perm. constructor; [|exact Hy].
      by apply key_le_total.
Qed.

Lemma sorted_by_sorted (l : list A) : StronglySorted (sorts_before k) (sorted_by k l).
Proof.
  induction l as [|x l IH]; simpl; [constructor|]. by apply insert_by_sorted.
Qed.

(** The first element of the sorted list has the least key. *)
Lemma sorted_by_head (l : list A) (m : A) (rest : list A) :
  sorted_by k l = m :: rest → ∀ x, x ∈ l → key_le (k m) (k x) = true.
Proof.
  intros Hsort x Hx.
  pose proof (sorted_by_sorted l) as Hs. rewrite Hsort in Hs.
  apply StronglySorted_inv in Hs as [_ Hall].
  rewrite <- (sorted_by_perm l), Hsort in Hx.
  apply elem_of_cons in Hx as [->|Hx].
  - unfold key_le. rewrite Z.leb_refl, Z.eqb_refl. by rewrite orb_true_r.
  - rewrite Forall_forall in Hall. by apply Hall.
Qed.

End sorting.

Lemma key_le_ranks (source subdir : string) (p q : candidate) :
  key_le (key source subdir q) (key source subdir p) = true ↔
  ranks_below source subdir p q.
Proof.
  unfold key_le, key, ranks_below, count. simpl.
  rewrite orb_true_iff, andb_true_iff, Z.ltb_lt, Z.eqb_eq, Z.leb_le. lia.
Qed.

(** What [dedup_dir] does with more than one candidate. *)
Lemma dedup_dir_many (source subdir : string) (files : list candidate) :
  (1 < List.length files)%nat →
  ∃ keep removed,
    dedup_dir source subdir files = (Some keep, removed)
    ∧ files ≡ₚ keep :: removed
    ∧ ∀ x, x ∈ files → ranks_below source subdir x keep.
Proof.
  intros Hlen. unfold dedup_dir.
  destruct (List.length files <=? 1)%nat eqn:Hle; [apply Nat.leb_le in Hle; lia|].
  destruct (sorted_by (key source subdir) files) as [|keep removed] eqn:Hsort.
  - pose proof (sorted_by_perm (key source subdir) files) as Hp.
    rewrite Hsort in Hp. apply Permutation_nil_l in Hp. subst files. simpl in Hlen. lia.
  - exists keep, removed. split; [done|]. split.
    + by rewrite <- Hsort, sorted_by_perm.
    + intros x Hx. apply key_le_ranks. by eapply sorted_by_head.
Qed.

Lemma dedup_dir_few (source subdir : string) (files : list candidate) :
  (List.length files <= 1)%nat → dedup_dir source subdir files = (None, []).
Proof.
  intros Hlen. unfold dedup_dir. by apply Nat.leb_le in Hlen as ->.
Qed.

Lemma main_over_deleted sources listing :
  (main_over sources listing).2 = deleted_per_directory sources listing.
Proof.
  unfold deleted_per_directory.
  induction sources as [|[source subdir] sources IH]; simpl; [done|].
  destruct (main_over sources listing) as [kept deleted]. simpl in IH. subst deleted.
  destruct (listing source subdir) as [files|]; simpl; [|done].
  by destruct (dedup_dir source subdir files).
Qed.

Lemma count_at_least (source subdir : string) (content : option json) :
  (-1 <= record_count content source subdir)%Z.
Proof.
  unfold record_count. destruct content as [data|]; [|done].
  destruct (count_records data source) as [n|] eqn:Hcount; [|done].
  assert (∀ j m, len j = Ok m → (0 <= m)%Z) as Hlen.
  { intros [] m; simpl; intros [= <-]; lia. }
  assert (∀ body field m, len_of_field body field = Ok m → (0 <= m)%Z) as Hfield.
  { intros body field m. unfold len_of_field.
    destruct (get body field (JList [])); simpl; [apply Hlen | discriminate]. }
  unfold count_records in Hcount.
  destruct (get data "data" data) as [body|]; simpl in Hcount; [|discriminate].
  repeat match type of Hcount with
         | (if String.eqb source ?s then _ else _) = _ =>
             destruct (String.eqb source s)
         end;
    try (apply Hfield in Hcount; lia).
  - destruct (len_of_field body "drugs") as [d|] eqn:Hd; simpl in Hcount; [|discriminate].
    apply Hfield in Hd.
    destruct (negb (d =? 0)%Z); [injection Hcount as <-; lia|].
    destruct (get body "raw_response" (JDict [])); simpl in Hcount; [|discriminate].
    destruct (get _ "approximateGroup" (JDict [])); simpl in Hcount; [|discriminate].
    apply Hfield in Hcount. lia.
  - destruct (if is_list body then _ else _); simpl in Hcount; [|discriminate].
    apply Hlen in Hcount. lia.
  - destruct (get body "HPODisorderSetStatusList" (JDict [])) as [st1|];
      simpl in Hcount; [|discriminate].
    destruct (if truthy st1 then _ else _) as [st|]; simpl in Hcount; [|discriminate].
    destruct (get st "HPODisorderSetStatus" (JList [])) as [ds|];
      simpl in Hcount; [|discriminate].
    destruct (is_list ds); [apply Hlen in Hcount; lia | injection Hcount as <-; lia].
  - injection Hcount as <-. lia.
Qed.

(** A body without the fields the accessor looks up counts zero records. *)
Lemma count_no_field (source subdir : string) (top body : list (string * json)) :
  get (JDict top) "data" (JDict top) = Ok (JDict body) →
  (∀ field, field ∈ accessor_fields source → dict_get body field = None) →
  record_count (Some (JDict top)) source subdir = 0%Z.
Proof.
  intros Hbody Hnone. unfold record_count, count_records. rewrite Hbody. simpl.
  unfold accessor_fields in Hnone.
  repeat match goal with
         | |- context [String.eqb source ?s] => destruct (String.eqb source s)
         end;
    unfold len_of_field; simpl;
    repeat (rewrite Hnone by (repeat constructor); simpl); done.
Qed.

End DedupFacts.

(** ** The claims on the deduplicator *)

Module DedupClaims.
Import Py Dedup DedupFacts.

(** C4.  In a directory with more than one candidate the deduplicator keeps
    one candidate, which no candidate outranks (more records, or as many and
    newer), and deletes all the others; a directory with at most one
    candidate is left alone; [main] deletes just what is deleted in each
    directory.  With record counts 10, 25, 25 and the second file of count 25
    newer than the first, that file is kept and the other two are deleted,
    in whatever order the directory lists them. *)
Theorem dedup_keeps_best :
  (∀ (source subdir : string) (files : list candidate),
     (1 < List.length files)%nat →
     ∃ keep removed,
       dedup_dir source subdir files = (Some keep, removed)
       ∧ files ≡ₚ keep :: removed
       ∧ ∀ x, x ∈ files → ranks_below source subdir x keep)
  ∧ (∀ (source subdir : string) (files : list candidate),
       (List.length files <= 1)%nat → dedup_dir source subdir files = (None, []))
  ∧ (∀ listing, (main listing).2 = deleted_per_directory SOURCES listing)
  ∧ (∀ (source subdir : string) (a b c : candidate) (files : list candidate),
       count source subdir a = 10%Z →
       count source subdir b = 25%Z →
       count source subdir c = 25%Z →
       (mtime b < mtime c)%Z →
       files ≡ₚ [a; b; c] →
       ∃ removed, dedup_dir source subdir files = (Some c, removed)
                  ∧ removed ≡ₚ [a; b]).
Proof.
  split; [exact dedup_dir_many|]. split; [exact dedup_dir_few|].
  split; [intros listing; apply main_over_deleted|].
  intros source subdir a b c files Ha Hb Hc Ht Hperm.
  destruct (dedup_dir_many source subdir files) as (keep & removed & Hd & Hp & Hbest).
  { rewrite Hperm. simpl. lia. }
  assert (ranks_below source subdir c keep) as Hck.
  { apply Hbest. rewrite Hperm. set_solver. }
  assert (keep ∈ [a; b; c]) as Hin.
  { rewrite <- Hperm, Hp. apply list_elem_of_here. }
  assert (keep = c) as ->.
  { unfold ranks_below in Hck.
    apply elem_of_cons in Hin as [->|Hin]; [lia|].
    apply elem_of_cons in Hin as [->|Hin]; [lia|].
    by apply list_elem_of_singleton in Hin. }
  exists removed. split; [exact Hd|].
  apply (Permutation_cons_inv (a := c)).
  rewrite <- Hp, Hperm. symmetry. apply (Permutation_cons_append [a; b] c).
Qed.

Lemma dedup_keeps_best_witness :
  let a := {| path := "pubmed_20240101_000000.json";
              content := Some (JDict [("data", JDict [("articles", JList (replicate 10 JNull))])]);
              mtime := 30 |} in
  let b := {| path := "pubmed_20240102_000000.json";
              content := Some (JDict [("data", JDict [("articles", JList (replicate 25 JNull))])]);
              mtime := 10 |} in
  let c := {| path := "pubmed_20240103_000000.json";
              content := Some (JDict [("data", JDict [("articles", JList (replicate 25 JNull))])]);
              mtime := 20 |} in
  ∃ removed, dedup_dir "pubmed" "" [c; a; b] = (Some c, removed) ∧ removed ≡ₚ [a; b].
Proof.
  intros a b c.
  apply (proj2 (proj2 (proj2 dedup_keeps_best)) "pubmed" "" a b c [c; a; b]).
  - reflexivity.
  - reflexivity.
  - reflexivity.
  - reflexivity.
  - apply (Permutation_cons_append [a; b] c).
Defined.

(** C7, amended.  A candidate that cannot be opened or parsed scores -1,
    and no candidate scores less; a candidate in whose body the accessor of
    its source finds none of its fields scores 0, as a file with an empty
    record list does, which is above the unparseable one; [record_count]
    gives every candidate a score, so the directory is ranked and reduced
    whatever its files hold. *)
Theorem malformed_files_rank_last :
  (∀ source subdir : string, record_count None source subdir = (-1)%Z)
  ∧ (∀ (content : option json) (source subdir : string),
       (-1 <= record_count content source subdir)%Z)
  ∧ (∀ (source subdir : string) (top body : list (string * json)),
       get (JDict top) "data" (JDict top) = Ok (JDict body) →
       (∀ field, field ∈ accessor_fields source → dict_get body field = None) →
       record_count (Some (JDict top)) source subdir = 0%Z)
  ∧ (∀ (source subdir : string) (files : list candidate),
       (1 < List.length files)%nat →
       ∃ keep removed,
         dedup_dir source subdir files = (Some keep, removed)
         ∧ files ≡ₚ keep :: removed).
Proof.
  split; [done|]. split; [intros; apply count_at_least|].
  split; [exact count_no_field|].
  intros source subdir files Hlen.
  destruct (dedup_dir_many source subdir files Hlen) as (keep & removed & Hd & Hp & _).
  eauto.
Qed.

Lemma malformed_files_rank_last_witness :
  record_count (Some (JDict [("_header", JDict [("source", JStr "pubmed")]);
                             ("data", JDict [("query", JStr "rare disease")])]))
    "pubmed" "" = 0%Z.
Proof.
  apply (proj1 (proj2 (proj2 malformed_files_rank_last)) "pubmed" ""
           _ [("query", JStr "rare disease")]).
  - reflexivity.
  - intros field Hin. apply list_elem_of_singleton in Hin. by subst field.
Defined.

(** C7 as stated fails: of an unparseable file and a file without the
    [articles] field, the second scores higher, and it is kept although it
    is the older one. *)
Lemma malformed_files_counterexample :
  let unparseable := {| path := "pubmed_20240102_000000.json";
                        content := None; mtime := 20 |} in
  let no_field := {| path := "pubmed_20240101_000000.json";
                     content := Some (JDict [("data", JDict [])]); mtime := 10 |} in
  record_count (content unparseable) "pubmed" "" = (-1)%Z
  ∧ record_count (content no_field) "pubmed" "" = 0%Z
  ∧ record_count (content no_field) "pubmed" "" ≠ record_count (content unparseable) "pubmed" ""
  ∧ dedup_dir "pubmed" "" [unparseable; no_field] = (Some no_field, [unparseable]).
Proof.
  simpl. split; [reflexivity|]. split; [reflexivity|].
  split; [discriminate|]. reflexivity.
Qed.

End DedupClaims.

(** ** The manifest pruner *)

Module PrunerFacts.
Import Py Pruner.

Lemma kept_id_of_header (doc : json) (fid : string) :
  header_fetch_id doc = Some (JStr fid) → fid ≠ "" →
  kept_id_of doc = Ok (Some (JStr fid)).
Proof.
  intros Hh Hne. destruct doc as [ | | | | | top ]; try discriminate.
  unfold header_fetch_id in Hh. unfold kept_id_of. simpl.
  destruct (dict_get top "_header") as [[ | | | | | h ]|]; try discriminate.
  simpl. rewrite Hh. simpl.
  destruct fid; [done|]. reflexivity.
Qed.

(** The identifier of a readable artifact is in [kept_ids]. *)
Lemma collect_kept_ids_elem (raw : list (option json)) (doc : json) (fid : json) :
  Some doc ∈ raw → kept_id_of doc = Ok (Some fid) → fid ∈ collect_kept_ids raw.
Proof.
  intros Hin Hk. induction raw as [|f raw IH]; [by apply elem_of_nil in Hin|].
  apply elem_of_cons in Hin as [<-|Hin]; simpl.
  - rewrite Hk. apply list_elem_of_here.
  - destruct f as [d|]; [|by apply IH].
    destruct (kept_id_of d) as [[fid'|]|]; [right| |]; by apply IH.
Qed.

(** Every element of [kept_ids] is a truthy [fetch_id] of some artifact. *)
Lemma collect_kept_ids_inv (raw : list (option json)) (fid : json) :
  fid ∈ collect_kept_ids raw →
  ∃ doc, Some doc ∈ raw ∧ kept_id_of doc = Ok (Some fid).
Proof.
  induction raw as [|f raw IH]; simpl; [by intros ?%elem_of_nil|].
  intros Hin.
  assert (fid ∈ collect_kept_ids raw → ∃ doc, Some doc ∈ f :: raw
            ∧ kept_id_of doc = Ok (Some fid)) as Hrest.
  { intros (doc & Hd & Hk)%IH. exists doc. split; [by right | done]. }
  destruct f as [d|]; [|by apply Hrest].
  destruct (kept_id_of d) as [[fid'|]|] eqn:Hk; [|by apply Hrest..].
  apply elem_of_cons in Hin as [->|Hin]; [|by apply Hrest].
  exists d. split; [by left | done].
Qed.

Lemma id_in_spec (fid : string) (kept_ids : list json) :
  id_in fid kept_ids = true ↔ JStr fid ∈ kept_ids.
Proof.
  unfold id_in. rewrite existsb_exists. split.
  - intros (k & Hin & Heq). apply list_elem_of_In in Hin.
    destruct k; simpl in Heq; try discriminate.
    apply String.eqb_eq in Heq. by subst.
  - intros Hin. exists (JStr fid). split; [by apply list_elem_of_In|].
    simpl. apply String.eqb_refl.
Qed.

Lemma elem_of_deleted (raw : list (option json)) (meta : list string) (name : string) :
  name ∈ (main raw meta).1 ↔
  name ∈ meta ∧ is_manifest_name name = true
  ∧ id_in (manifest_fetch_id name) (collect_kept_ids raw) = false.
Proof.
  unfold main, deleted_manifests. simpl. rewrite list_elem_of_filter. tauto.
Qed.

End PrunerFacts.

(** ** The claim on the manifest pruner *)

Module PrunerClaims.
Import Py Pruner PrunerFacts.

(** C5, amended.  No manifest is deleted whose fetch identifier is the
    non-empty [fetch_id] in the header of a raw artifact that is there and
    readable; the manifests deleted are those whose fetch identifier is not
    in the set of identifiers kept, and every identifier kept is the
    [fetch_id] of such an artifact. *)
Theorem prune_keeps_retained :
  (∀ (raw : list (option json)) (meta : list string) (name : string) (doc : json)
     (fid : string),
     Some doc ∈ raw →
     header_fetch_id doc = Some (JStr fid) →
     fid ≠ "" →
     manifest_fetch_id name = fid →
     name ∉ (main raw meta).1)
  ∧ (∀ (raw : list (option json)) (meta : list string) (name : string),
       name ∈ (main raw meta).1 ↔
       name ∈ meta ∧ is_manifest_name name = true
       ∧ JStr (manifest_fetch_id name) ∉ collect_kept_ids raw)
  ∧ (∀ (raw : list (option json)) (fid : string),
       JStr fid ∈ collect_kept_ids raw ↔
       fid ≠ "" ∧ ∃ doc, Some doc ∈ raw ∧ header_fetch_id doc = Some (JStr fid)).
Proof.
  assert (∀ (raw : list (option json)) (fid : string),
       JStr fid ∈ collect_kept_ids raw ↔
       fid ≠ "" ∧ ∃ doc, Some doc ∈ raw ∧ header_fetch_id doc = Some (JStr fid)) as Hkept.
  { intros raw fid. split.
    - intros (doc & Hin & Hk)%collect_kept_ids_inv.
      unfold kept_id_of in Hk.
      destruct doc as [ | | | | | top ]; try discriminate. simpl in Hk.
      destruct (default (JDict []) (dict_get top "_header")) as [ | | | | | h ] eqn:Hh;
        try discriminate.
      simpl in Hk.
      destruct (truthy (default JNull (dict_get h "fetch_id"))) eqn:Ht; [|discriminate].
      destruct (hashable _); [|discriminate]. injection Hk as Hk.
      destruct (dict_get h "fetch_id") as [v|] eqn:Hv; simpl in Hk; [|discriminate].
      subst v. split; [by intros ->|].
      exists (JDict top). split; [done|]. simpl.
      destruct (dict_get top "_header") as [hd|]; simpl in Hh.
      + by subst hd.
      + injection Hh as <-. discriminate.
    - intros (Hne & doc & Hin & Hh).
      eapply collect_kept_ids_elem; [done|]. by apply kept_id_of_header. }
  split; [|split; [|exact Hkept]].
  - intros raw meta name doc fid Hin Hh Hne Hfid.
    rewrite elem_of_deleted. intros (_ & _ & Hnot).
    assert (id_in (manifest_fetch_id name) (collect_kept_ids raw) = true) as Hyes;
      [|congruence].
    apply id_in_spec. rewrite Hfid. apply Hkept. eauto.
  - intros raw meta name. rewrite elem_of_deleted, <- id_in_spec.
    destruct (id_in _ _); intuition congruence.
Qed.

Lemma prune_keeps_retained_witness :
  "pubmed_20240101_120000_manifest.json"
  ∉ (main [Some (JDict [("_header", JDict [("source", JStr "pubmed");
                                            ("fetch_id", JStr "pubmed_20240101_120000")]);
                        ("data", JDict [])])]
          ["pubmed_20240101_120000_manifest.json"; "pubmed_20231231_090000_manifest.json"]).1.
Proof.
  eapply (proj1 prune_keeps_retained _ _ _ _ "pubmed_20240101_120000").
  - apply list_elem_of_here.
  - reflexivity.
  - discriminate.
  - reflexivity.
Defined.

(** C5 as stated fails for the empty identifier: an artifact whose header
    holds the empty [fetch_id] adds nothing to the identifiers kept, and the
    manifest named by that identifier is deleted. *)
Lemma prune_counterexample :
  let raw := [Some (JDict [("_header", JDict [("source", JStr "pubmed");
                                               ("fetch_id", JStr "")]);
                           ("data", JDict [])])] in
  let meta := ["_manifest.json"] in
  header_fetch_id (JDict [("_header", JDict [("source", JStr "pubmed");
                                             ("fetch_id", JStr "")]);
                          ("data", JDict [])]) = Some (JStr "")
  ∧ manifest_fetch_id "_manifest.json" = ""
  ∧ (main raw meta).1 = ["_manifest.json"]
  ∧ ¬ keeps_manifests_of_retained raw meta.
Proof.
  simpl. split; [reflexivity|]. split; [reflexivity|]. split; [reflexivity|].
  intros Hkeep.
  apply (Hkeep "_manifest.json" _ "" (list_elem_of_here _ _) (list_elem_of_here _ _)
           Logic.eq_refl Logic.eq_refl).
  apply list_elem_of_here.
Qed.

End PrunerClaims.

(** ** Normal forms *)

Module NormalFormFacts.
Import NormalForm.

Lemma is_space_lower (c : ascii) : PyStr.is_space (PyStr.lower_char c) = PyStr.is_space c.
Proof. destruct c as [[] [] [] [] [] [] [] []]; reflexivity. Qed.

Lemma lower_char_twice (c : ascii) :
  PyStr.lower_char (PyStr.lower_char c) = PyStr.lower_char c.
Proof. destruct c as [[] [] [] [] [] [] [] []]; reflexivity. Qed.

Lemma is_space_eq_space (c : ascii) :
  PyStr.is_space c = true → PyStr.lower_char c = c.
Proof. destruct c as [[] [] [] [] [] [] [] []]; simpl; intros H; try reflexivity; discriminate. Qed.

Lemma rstrip_no_trailing (s : string) : no_trailing_space (PyStr.rstrip s) = true.
Proof.
  induction s as [|c s IH]; simpl; [done|].
  destruct (PyStr.rstrip s) as [|d r] eqn:Hr.
  - destruct (PyStr.is_space c) eqn:Hc; simpl; [done|]. by rewrite Hc.
  - exact IH.
Qed.

Lemma rstrip_no_leading (s : string) :
  no_leading_space s = true → no_leading_space (PyStr.rstrip s) = true.
Proof.
  destruct s as [|c s]; simpl; [done|]. intros Hc.
  destruct (PyStr.rstrip s); simpl; [|done].
  destruct (PyStr.is_space c) eqn:E; [done|]. simpl. by rewrite E.
Qed.

Lemma lstrip_no_leading (s : string) : no_leading_space (PyStr.lstrip s) = true.
Proof.
  induction s as [|c s IH]; simpl; [done|].
  destruct (PyStr.is_space c) eqn:Hc; [exact IH|]. simpl. by rewrite Hc.
Qed.

Lemma lower_no_leading (s : string) :
  no_leading_space (PyStr.lower s) = no_leading_space s.
Proof. destruct s; simpl; [done|]. by rewrite is_space_lower. Qed.

Lemma lower_no_trailing (s : string) :
  no_trailing_space (PyStr.lower s) = no_trailing_space s.
Proof.
  induction s as [|c s IH]; simpl; [done|].
  destruct s as [|d s]; simpl in *; [by rewrite is_space_lower | exact IH].
Qed.

Lemma lower_twice (s : string) : PyStr.lower (PyStr.lower s) = PyStr.lower s.
Proof. induction s as [|c s IH]; simpl; [done|]. by rewrite lower_char_twice, IH. Qed.

(** A text without whitespace at its end, if not empty, collapses to a
    text that is not empty. *)
Lemma collapse_nonempty (b : bool) (s : string) :
  no_trailing_space s = true → PyStr.nonempty s = true →
  PyStr.nonempty (PyStr.collapse_from b s) = true.
Proof.
  revert b. induction s as [|c s IH]; intros b Ht Hn; [done|].
  simpl. destruct (PyStr.is_space c) eqn:Hc.
  - destruct s as [|d s]; [simpl in Ht; by rewrite Hc in Ht|].
    destruct b; [|done]. by apply IH.
  - done.
Qed.

Lemma collapse_clean (b : bool) (s : string) :
  no_trailing_space s = true →
  PyStr.lower s = s →
  clean_from b (PyStr.collapse_from b s) = true.
Proof.
  revert b. induction s as [|c s IH]; intros b Ht Hl; [done|].
  simpl in Hl. injection Hl as Hc Hl.
  assert (no_trailing_space s = true) as Hts.
  { destruct s; [done|]. exact Ht. }
  simpl. destruct (PyStr.is_space c) eqn:Hsp.
  - assert (PyStr.nonempty s = true) as Hne.
    { destruct s; [simpl in Ht; by rewrite Hsp in Ht | done]. }
    destruct b.
    + by apply IH.
    + simpl. rewrite IH by done.
      by rewrite collapse_nonempty.
  - simpl. rewrite Hc, Ascii.eqb_refl, Hsp. simpl. by apply IH.
Qed.

Lemma collapse_no_leading (s : string) :
  no_leading_space s = true → no_leading_space (PyStr.collapse_from false s) = true.
Proof.
  destruct s as [|c s]; simpl; [done|]. intros Hc.
  destruct (PyStr.is_space c) eqn:E; [done|]. simpl. by rewrite E.
Qed.

Lemma clean_from_start (s : string) :
  clean_from false s = true → no_leading_space s = true → clean_from true s = true.
Proof.
  destruct s as [|c s]; simpl; [done|].
  destruct (PyStr.is_space c); [done|]. done.
Qed.

Lemma clean_lower (b : bool) (s : string) : clean_from b s = true → PyStr.lower s = s.
Proof.
  revert b. induction s as [|c s IH]; intros b; simpl; [done|].
  intros [Hc Hrest]%andb_true_iff. apply Ascii.eqb_eq in Hc. rewrite Hc. f_equal.
  destruct (PyStr.is_space c).
  - apply andb_true_iff in Hrest as [_ Hrest]. by eapply IH.
  - by eapply IH.
Qed.

Lemma clean_no_leading (s : string) : clean_from true s = true → no_leading_space s = true.
Proof.
  destruct s as [|c s]; simpl; [done|].
  intros [_ Hrest]%andb_true_iff. destruct (PyStr.is_space c); [|done].
  by rewrite andb_false_r in Hrest.
Qed.

Lemma clean_no_trailing (b : bool) (s : string) :
  clean_from b s = true → no_trailing_space s = true.
Proof.
  revert b. induction s as [|c s IH]; intros b; [done|].
  simpl. intros [_ Hrest]%andb_true_iff.
  destruct (PyStr.is_space c) eqn:Hc.
  - apply andb_true_iff in Hrest as [[_ Hne]%andb_true_iff Hrest].
    destruct s; [done|]. by eapply IH.
  - destruct s; [done|]. by eapply IH.
Qed.

Lemma clean_collapse (a b : bool) (s : string) :
  clean_from a s = true → (b = true → a = true) → PyStr.collapse_from b s = s.
Proof.
  revert a b. induction s as [|c s IH]; intros a b; simpl; [done|].
  intros [_ Hrest]%andb_true_iff Hab.
  destruct (PyStr.is_space c).
  - apply andb_true_iff in Hrest as [[[Hc Ha]%andb_true_iff _]%andb_true_iff Hrest].
    apply Ascii.eqb_eq in Hc. apply negb_true_iff in Ha. subst a c.
    destruct b; [by specialize (Hab Logic.eq_refl)|].
    f_equal. by eapply IH.
  - f_equal. eapply IH; [done|]. discriminate.
Qed.

Lemma lstrip_fixed (s : string) : no_leading_space s = true → PyStr.lstrip s = s.
Proof. destruct s as [|c s]; simpl; [done|]. by intros ->%negb_true_iff. Qed.

Lemma rstrip_fixed (s : string) : no_trailing_space s = true → PyStr.rstrip s = s.
Proof.
  induction s as [|c s IH]; [done|]. intros Ht. simpl.
  destruct s as [|d s].
  - simpl in *. by apply negb_true_iff in Ht as ->.
  - rewrite IH by exact Ht. done.
Qed.

(** A clean text is its own normal form. *)
Lemma clean_fixed (s : string) : clean s = true → _normalize_symptom s = s.
Proof.
  unfold clean. intros Hc. unfold _normalize_symptom.
  destruct s as [|c s]; [done|]. remember (String c s) as t. 
  replace (PyStr.nonempty t) with true by (by subst t).
  unfold PyStr.strip.
  rewrite (lstrip_fixed t) by (by apply clean_no_leading).
  rewrite (rstrip_fixed t) by (by eapply clean_no_trailing).
  rewrite (clean_lower _ t Hc). unfold PyStr.collapse_ws.
  eapply clean_collapse; [exact Hc | discriminate].
Qed.

(** A normal form is clean. *)
Lemma normalize_clean (s : string) : clean (_normalize_symptom s) = true.
Proof.
  unfold _normalize_symptom. destruct (PyStr.nonempty s); [|done].
  unfold clean, PyStr.collapse_ws, PyStr.strip.
  set (u := PyStr.lower (PyStr.rstrip (PyStr.lstrip s))).
  assert (no_trailing_space u = true) as Ht
    by (unfold u; rewrite lower_no_trailing; apply rstrip_no_trailing).
  assert (no_leading_space u = true) as Hl
    by (unfold u; rewrite lower_no_leading; apply rstrip_no_leading, lstrip_no_leading).
  apply clean_from_start; [|by apply collapse_no_leading].
  apply collapse_clean; [done|]. unfold u. apply lower_twice.
Qed.

Lemma normalize_twice (s : string) :
  _normalize_symptom (_normalize_symptom s) = _normalize_symptom s.
Proof. apply clean_fixed, normalize_clean. Qed.

End NormalFormFacts.

(** ** More on the query engine *)

Module QueryMoreFacts.
Import SymptomIndex SymptomIndexFacts.

Lemma foldl_union (first : gset triple) (others : list (gset triple)) :
  foldl (∪) first others = first ∪ ⋃ others.
Proof.
  revert first. induction others as [|X others IH]; intros first; simpl.
  - by rewrite (right_id_L ∅ (∪)).
  - rewrite IH. by rewrite (assoc_L (∪)).
Qed.

Lemma elem_of_foldl_intersection (t : triple) (first : gset triple)
    (others : list (gset triple)) :
  t ∈ foldl (∩) first others ↔ t ∈ first ∧ ∀ X, X ∈ others → t ∈ X.
Proof.
  revert first. induction others as [|X others IH]; intros first; simpl.
  - split; [intros H; split; [done|]; by intros X ?%elem_of_nil | by intros [H _]].
  - rewrite IH, elem_of_intersection. split.
    + intros [[Hf HX] Hrest]. split; [done|].
      intros Y [->|HY]%elem_of_cons; [done | by apply Hrest].
    + intros [Hf Hall]. split; [split; [done | apply Hall; by left]|].
      intros Y HY. apply Hall. by right.
Qed.

(** The sets [query] collects: the non-empty ones among the terms' sets. *)
Lemma elem_of_collect_sets (idx : index) (symptoms : list string) (X : gset triple) :
  X ∈ collect_sets idx symptoms ↔
  X ≠ ∅ ∧ ∃ s, s ∈ symptoms ∧ X = _diseases_for_symptom idx s.
Proof.
  induction symptoms as [|s symptoms IH]; simpl.
  - split; [by intros ?%elem_of_nil | by intros [_ (s & ?%elem_of_nil & _)]].
  - case_decide as Hs.
    + rewrite IH. split.
      * intros [HX (s' & Hin & ->)]. split; [done|]. exists s'. split; [by right | done].
      * intros [HX (s' & [->|Hin]%elem_of_cons & ->)]; [done|]. eauto.
    + rewrite elem_of_cons, IH. split.
      * intros [->|[HX (s' & Hin & ->)]].
        -- split; [done|]. exists s. split; [by left | done].
        -- split; [done|]. exists s'. split; [by right | done].
      * intros [HX (s' & [->|Hin]%elem_of_cons & ->)]; [by left|].
        right. eauto.
Qed.

Lemma union_collect_sets (idx : index) (symptoms : list string) :
  ⋃ collect_sets idx symptoms = ⋃ (_diseases_for_symptom idx <$> symptoms).
Proof.
  induction symptoms as [|s symptoms IH]; simpl; [done|].
  case_decide as Hs; simpl; rewrite IH; [|done].
  rewrite Hs. by rewrite (left_id_L ∅ (∪)).
Qed.

Lemma elements_make_record_nil (symptoms : list string) (X : gset triple) :
  make_record symptoms <$> elements X = [] ↔ X = ∅.
Proof.
  split.
  - intros H%fmap_nil_inv. apply leibniz_equiv. by apply elements_empty_iff.
  - intros ->. by rewrite elements_empty.
Qed.

Lemma query_nil_iff (idx : index) (symptoms : list string) (match_all : bool) :
  query idx symptoms match_all = [] ↔ as_triples (query idx symptoms match_all) = ∅.
Proof.
  rewrite as_triples_query. unfold query.
  destruct symptoms as [|s symptoms]; [done|].
  destruct (collect_sets idx (s :: symptoms)) as [|first others]; [done|].
  apply elements_make_record_nil.
Qed.

Lemma make_record_inj (symptoms : list string) : Inj (=) (=) (make_record symptoms).
Proof. intros [[o n] f] [[o' n'] f'] H. by injection H as -> -> ->. Qed.

(** The triples of a match-any query. *)
Lemma triples_match_any (idx : index) (symptoms : list string) :
  as_triples (query idx symptoms false) = ⋃ (_diseases_for_symptom idx <$> symptoms).
Proof.
  rewrite as_triples_query, <- union_collect_sets.
  destruct (collect_sets idx symptoms) as [|first others]; [done|].
  unfold combine. by rewrite foldl_union.
Qed.

(** The triples of a match-all query. *)
Lemma triples_match_all (idx : index) (symptoms : list string) (t : triple) :
  t ∈ as_triples (query idx symptoms true) ↔
  (∃ s, s ∈ symptoms ∧ _diseases_for_symptom idx s ≠ ∅)
  ∧ ∀ s, s ∈ symptoms → _diseases_for_symptom idx s = ∅ ∨ t ∈ _diseases_for_symptom idx s.
Proof.
  rewrite as_triples_query.
  destruct (collect_sets idx symptoms) as [|first others] eqn:Hsets.
  - split; [by intros ?%elem_of_empty|]. intros [(s & Hin & Hne) _]. exfalso.
    assert (_diseases_for_symptom idx s ∈ collect_sets idx symptoms) as H
      by (apply elem_of_collect_sets; eauto).
    rewrite Hsets in H. by apply elem_of_nil in H.
  - unfold combine. rewrite elem_of_foldl_intersection.
    assert (∀ X, X ∈ first :: others ↔
                 X ≠ ∅ ∧ ∃ s, s ∈ symptoms ∧ X = _diseases_for_symptom idx s) as Hmem.
    { intros X. rewrite <- Hsets. apply elem_of_collect_sets. }
    split.
    + intros [Hfirst Hothers]. split.
      * destruct (proj1 (Hmem first)) as [Hne (s & Hin & ->)]; [by left|]. eauto.
      * intros s Hin. destruct (decide (_diseases_for_symptom idx s = ∅)) as [|Hne];
          [by left | right].
        assert (_diseases_for_symptom idx s ∈ first :: others) as [->|HX]%elem_of_cons
          by (apply Hmem; eauto); [done | by apply Hothers].
    + intros [_ Hall].
      assert (∀ X, X ∈ first :: others → t ∈ X) as HX.
      { intros X [Hne (s & Hin & ->)]%Hmem. by destruct (Hall s Hin). }
      split; [apply HX; by left | intros X HXin; apply HX; by right].
Qed.

End QueryMoreFacts.

(** ** Further properties of the query engine *)

Module QueryExtras.
Import SymptomIndex SymptomIndexFacts QueryMoreFacts NormalForm NormalFormFacts.

(** X1.  Normalizing is idempotent: a normal form is clean (lower case,
    single spaces only, none at either end), and stripping, lower-casing and
    collapsing each leave it as it is. *)
Theorem normalize_idempotent (s : string) :
  _normalize_symptom (_normalize_symptom s) = _normalize_symptom s
  ∧ clean (_normalize_symptom s) = true
  ∧ PyStr.strip (_normalize_symptom s) = _normalize_symptom s
  ∧ PyStr.lower (_normalize_symptom s) = _normalize_symptom s
  ∧ PyStr.collapse_ws (_normalize_symptom s) = _normalize_symptom s.
Proof.
  pose proof (normalize_clean s) as Hc. unfold clean in Hc.
  split; [by apply clean_fixed|]. split; [exact Hc|]. split; [|split].
  - unfold PyStr.strip. rewrite lstrip_fixed by (by apply clean_no_leading).
    apply rstrip_fixed. by eapply clean_no_trailing.
  - by eapply clean_lower.
  - eapply clean_collapse; [exact Hc | discriminate].
Qed.

(** X2.  Two terms with the same normal form get the same diseases by the
    same exit; so a term and its normal form do. *)
Theorem lookup_depends_on_normal_form (idx : index) (s s' : string) :
  _normalize_symptom s = _normalize_symptom s' →
  _diseases_for_symptom_run idx s = _diseases_for_symptom_run idx s'
  ∧ _diseases_for_symptom idx (_normalize_symptom s) = _diseases_for_symptom idx s'.
Proof.
  intros H. unfold _diseases_for_symptom, _diseases_for_symptom_run.
  rewrite normalize_twice. by rewrite H.
Qed.

Lemma lookup_depends_on_normal_form_witness :
  _diseases_for_symptom_run
    {[ "acute fever" := [("558", "Marfan syndrome", "Frequent", "HP:1")] ]} "  Acute   FEVER "
  = _diseases_for_symptom_run
    {[ "acute fever" := [("558", "Marfan syndrome", "Frequent", "HP:1")] ]} "acute fever".
Proof.
  apply (lookup_depends_on_normal_form _ "  Acute   FEVER " "acute fever"). reflexivity.
Defined.

(** X3.  In match-any mode a query returns the union of the sets of its
    terms. *)
Theorem query_match_any_union (idx : index) (symptoms : list string) :
  as_triples (query idx symptoms false) = ⋃ (_diseases_for_symptom idx <$> symptoms).
Proof. apply triples_match_any. Qed.

(** X4.  In match-all mode a triple is returned exactly when some term
    yields a result and the triple is in the set of every term that does. *)
Theorem query_match_all_spec (idx : index) (symptoms : list string) (t : triple) :
  t ∈ as_triples (query idx symptoms true) ↔
  (∃ s, s ∈ symptoms ∧ _diseases_for_symptom idx s ≠ ∅)
  ∧ ∀ s, s ∈ symptoms → _diseases_for_symptom idx s = ∅ ∨ t ∈ _diseases_for_symptom idx s.
Proof. apply triples_match_all. Qed.

(** X5.  When no term yields a result the query returns the empty list in
    both modes; in match-any mode that is the only way to get it. *)
Theorem query_empty_results (idx : index) (symptoms : list string) :
  ((∀ s, s ∈ symptoms → _diseases_for_symptom idx s = ∅) →
   ∀ match_all, query idx symptoms match_all = [])
  ∧ (query idx symptoms false = [] ↔
     ∀ s, s ∈ symptoms → _diseases_for_symptom idx s = ∅).
Proof.
  assert (as_triples (query idx symptoms false) = ∅ ↔
          ∀ s, s ∈ symptoms → _diseases_for_symptom idx s = ∅) as Hany.
  { rewrite triples_match_any. split.
    - intros Hu s Hin. apply elem_of_equiv_empty_L. intros t Ht.
      assert (t ∈ ⋃ (_diseases_for_symptom idx <$> symptoms)) as H.
      { apply elem_of_union_list. eexists. split; [|exact Ht].
        apply list_elem_of_fmap. eauto. }
      rewrite Hu in H. by apply elem_of_empty in H.
    - intros Hall. apply elem_of_equiv_empty_L. intros t Ht.
      apply elem_of_union_list in Ht as (X & HX & Ht).
      apply list_elem_of_fmap in HX as (s & -> & Hin).
      rewrite (Hall s Hin) in Ht. by apply elem_of_empty in Ht. }
  split; [|by rewrite query_nil_iff].
  intros Hall [|]; apply query_nil_iff; [|by apply Hany].
  apply elem_of_equiv_empty_L. intros t [(s & Hin & Hne) _]%triples_match_all.
  by apply Hne, Hall.
Qed.

Lemma query_empty_results_witness :
  query {[ "fever" := [("558", "Marfan syndrome", "Frequent", "HP:1")] ]}
    ["cough"; " "] true = [].
Proof.
  apply (proj1 (query_empty_results _ ["cough"; " "])).
  intros s [->|[->|?%elem_of_nil]%elem_of_cons]%elem_of_cons; [by vm_compute.. | done].
Defined.

(** X6.  The triples returned depend on the set of terms asked only, not on
    their order or on repetitions. *)
Theorem query_order_irrelevant (idx : index) (symptoms symptoms' : list string)
    (match_all : bool) :
  (∀ s, s ∈ symptoms ↔ s ∈ symptoms') →
  as_triples (query idx symptoms match_all) = as_triples (query idx symptoms' match_all).
Proof.
  intros Hsame. apply set_eq. intros t. destruct match_all.
  - rewrite !triples_match_all. split; intros [(s & Hin & Hne) Hall]; (split;
      [exists s; split; [by apply Hsame | done] | intros s' Hs'; by apply Hall, Hsame]).
  - rewrite !triples_match_any, !elem_of_union_list.
    split; intros (X & (s & -> & Hin)%list_elem_of_fmap & Ht);
      (eexists; split; [apply list_elem_of_fmap; exists s; split; [done | by apply Hsame] | done]).
Qed.

Lemma query_order_irrelevant_witness :
  as_triples (query {[ "fever" := [("558", "Marfan syndrome", "Frequent", "HP:1")] ]}
                ["fever"; "cough"] true)
  = as_triples (query {[ "fever" := [("558", "Marfan syndrome", "Frequent", "HP:1")] ]}
                  ["cough"; "fever"; "cough"] true).
Proof.
  apply query_order_irrelevant. intros s.
  rewrite !elem_of_cons, !elem_of_nil. tauto.
Defined.

(** X7.  A query returns one record for each triple of its result, without
    repetition; every record carries the whole list of terms asked and the
    reference address made of the fixed prefix and its code. *)
Theorem query_records (idx : index) (symptoms : list string) (match_all : bool) :
  NoDup (query idx symptoms match_all)
  ∧ List.length (query idx symptoms match_all)
    = size (as_triples (query idx symptoms match_all))
  ∧ ∀ r, r ∈ query idx symptoms match_all →
      matched_symptoms r = symptoms
      ∧ orpha_url r
        = "https://www.orpha.net/consor/cgi-bin/OC_Exp.php?lng=en&Expert=" ++ orpha_code r.
Proof.
  unfold query. destruct symptoms as [|s symptoms].
  { split; [constructor|]. split; [done|]. by intros r ?%elem_of_nil. }
  destruct (collect_sets idx (s :: symptoms)) as [|first others].
  { split; [constructor|]. split; [done|]. by intros r ?%elem_of_nil. }
  split; [|split].
  - apply NoDup_fmap_2; [apply make_record_inj | apply NoDup_elements].
  - rewrite as_triples_make_record. by rewrite length_fmap.
  - intros r ([[o n] f] & -> & _)%list_elem_of_fmap. done.
Qed.

(** X8.  What a match-all query returns, the match-any query for the same
    terms returns too. *)
Theorem query_all_within_any (idx : index) (symptoms : list string) :
  as_triples (query idx symptoms true) ⊆ as_triples (query idx symptoms false).
Proof.
  intros t [(s & Hin & Hne) Hall]%triples_match_all.
  rewrite triples_match_any. apply elem_of_union_list.
  exists (_diseases_for_symptom idx s). split.
  - apply list_elem_of_fmap. eauto.
  - by destruct (Hall s Hin).
Qed.

End QueryExtras.

(** ** More on the index builder *)

Module BuilderMoreFacts.
Import Py PyFacts Builder BuilderFacts BuilderStatements NormalFormFacts.

(** What the extraction returns: nothing, or a code that is not empty, a
    truthy name and symptoms with truthy terms. *)
Lemma symptom_of_assoc_truthy (a : json) (sym : symptom) :
  symptom_of_assoc a = Some sym → truthy sym.1.2 = true.
Proof.
  unfold symptom_of_assoc.
  destruct (truthy (get_if_dict (get_if_dict a "HPO" (JDict [])) "HPOTerm" (JStr ""))) eqn:Ht;
    [|discriminate].
  by intros [= <-].
Qed.

Lemma extract_shape (d : json) (code : string) (name : option json) (syms : list symptom) :
  _extract_disease_and_symptoms d = Ok (Some code, name, syms) →
  PyStr.nonempty code = true
  ∧ (∃ n, name = Some n ∧ truthy n = true)
  ∧ ∀ sym, sym ∈ syms → truthy sym.1.2 = true.
Proof.
  unfold _extract_disease_and_symptoms.
  destruct (negb (truthy (get_if_dict d "Disorder" (JDict [])))); [discriminate|].
  destruct (get (get_if_dict d "Disorder" (JDict [])) "OrphaCode" JNull) as [c1|];
    simpl; [|discriminate].
  destruct (if truthy c1 then Ok c1 else _) as [c|] eqn:Hc; simpl; [|discriminate].
  destruct (get _ "Name" (JStr "")) as [n|]; simpl; [|discriminate].
  destruct (truthy c) eqn:Hct; simpl; [|discriminate].
  destruct (truthy n) eqn:Hnt; simpl; [|discriminate].
  destruct (get _ "HPODisorderAssociationList" JNull) as [al|]; simpl; [|discriminate].
  destruct (is_dict al); simpl.
  - destruct (get al "HPODisorderAssociation" JNull) as [ra|]; simpl; [|discriminate].
    intros [= <- <- <-]. split; [by apply str_truthy|]. split; [eauto|].
    intros sym (a & _ & Ha)%list_elem_of_omap. by eapply symptom_of_assoc_truthy.
  - intros [= <- <- <-]. split; [by apply str_truthy|]. split; [eauto|].
    by intros sym ?%elem_of_nil.
Qed.

(** The bucket an association leaves under its key. *)
Lemma add_symptom_str (code : string) (name : json) (idx : gmap string (list entry))
    (hpo_id freq : json) (term : string) :
  add_symptom code name idx (hpo_id, JStr term, freq)
  = let norm := _normalize_symptom term in
    let e : entry := (code, name, freq, hpo_id) in
    let bucket := default [] (idx !! norm) in
    if PyStr.nonempty norm
    then Ok (<[norm := if entry_in e bucket then bucket else (bucket ++ [e])%list]> idx)
    else Ok idx.
Proof.
  unfold add_symptom. simpl.
  destruct (PyStr.nonempty (_normalize_symptom term)); simpl; [|done].
  destruct (idx !! _normalize_symptom term) as [bucket|] eqn:Hl; simpl.
  - rewrite Hl. simpl. destruct (entry_in _ bucket); [|done].
    by rewrite insert_id.
  - rewrite lookup_insert_eq. simpl. by rewrite insert_insert_eq.
Qed.

(** An association whose term is truthy and not a text makes the loop
    raise; one whose term is falsy is passed over. *)
Lemma add_symptom_not_str (code : string) (name : json) (idx : gmap string (list entry))
    (hpo_id hpo_term freq : json) :
  (∀ s, hpo_term ≠ JStr s) →
  add_symptom code name idx (hpo_id, hpo_term, freq)
  = if truthy hpo_term then Raise AttributeError else Ok idx.
Proof.
  intros Hns. unfold add_symptom.
  destruct hpo_term as [ | b | n | s | items | fields ]; simpl;
    try (by destruct (truthy _)); try done.
  - by destruct b.
  - by destruct (negb (n =? 0)%Z).
  - by destruct (Hns s).
  - by destruct items.
  - by destruct fields.
Qed.

Lemma is_str_dec (j : json) : (∃ s, j = JStr s) ∨ (∀ s, j ≠ JStr s).
Proof. destruct j; eauto; right; discriminate. Qed.

Lemma add_symptoms_cons code name idx sym syms :
  add_symptoms code name idx (sym :: syms)
  = bind (add_symptom code name idx sym) (λ idx', add_symptoms code name idx' syms).
Proof. reflexivity. Qed.

(** The loops raise [AttributeError] only. *)
Lemma add_symptoms_raise code name syms : ∀ idx e,
  add_symptoms code name idx syms = Raise e → e = AttributeError.
Proof.
  induction syms as [|[[hpo_id hpo_term] freq] syms IH]; intros idx e; [discriminate|].
  rewrite add_symptoms_cons.
  destruct (is_str_dec hpo_term) as [[s ->]|Hns].
  - rewrite add_symptom_str. simpl. destruct (PyStr.nonempty _); simpl; apply IH.
  - rewrite add_symptom_not_str by done.
    destruct (truthy hpo_term); simpl; [by intros [= <-] | apply IH].
Qed.

Lemma extract_raise (d : json) (e : exn) :
  _extract_disease_and_symptoms d = Raise e → e = AttributeError.
Proof.
  unfold _extract_disease_and_symptoms.
  destruct (negb (truthy (get_if_dict d "Disorder" (JDict [])))); [discriminate|].
  destruct (get_if_dict d "Disorder" (JDict [])) as [ | | | | | obj ]; simpl;
    try (by intros [= <-]).
  destruct (truthy (default JNull (dict_get obj "OrphaCode"))); simpl.
  - destruct (negb _ || negb _); [discriminate|].
    destruct (is_dict _); simpl; [|discriminate].
    destruct (default JNull (dict_get obj "HPODisorderAssociationList"));
      simpl; try discriminate; by intros [= <-].
  - destruct (negb _ || negb _); [discriminate|].
    destruct (is_dict _); simpl; [|discriminate].
    destruct (default JNull (dict_get obj "HPODisorderAssociationList"));
      simpl; try discriminate; by intros [= <-].
Qed.

Lemma add_disorder_raise st d e : add_disorder st d = Raise e → e = AttributeError.
Proof.
  unfold add_disorder.
  destruct (_extract_disease_and_symptoms d) as [[[code name] syms]|e'] eqn:Hx; simpl.
  - destruct code as [code|]; [|discriminate].
    destruct (negb (PyStr.nonempty code)); [discriminate|].
    destruct (add_symptoms code _ (index st) syms) eqn:Hs; simpl; [discriminate|].
    intros [= <-]. by eapply add_symptoms_raise.
  - intros [= <-]. by eapply extract_raise.
Qed.

Lemma add_disorders_raise ds : ∀ st e, add_disorders st ds = Raise e → e = AttributeError.
Proof.
  induction ds as [|d ds IH]; intros st e; simpl; [discriminate|].
  destruct (add_disorder st d) as [st'|e'] eqn:Hd; simpl; [apply IH|].
  intros [= <-]. by eapply add_disorder_raise.
Qed.

(** One step of the inner loop, whatever the term: the index is kept, or
    one bucket, keyed by the normal form of a text term, is replaced by
    itself or by itself with the entry appended. *)
Lemma add_symptom_step code name idx hpo_id hpo_term freq idx' :
  add_symptom code name idx (hpo_id, hpo_term, freq) = Ok idx' →
  idx' = idx
  ∨ ∃ term, hpo_term = JStr term ∧ _normalize_symptom term ≠ ""
      ∧ idx' = <[_normalize_symptom term :=
                  (default [] (idx !! _normalize_symptom term)
                   ++ [(code, name, freq, hpo_id)])%list]> idx
      ∧ entry_in (code, name, freq, hpo_id)
          (default [] (idx !! _normalize_symptom term)) = false.
Proof.
  destruct (is_str_dec hpo_term) as [[term ->]|Hns].
  - rewrite add_symptom_str. simpl.
    destruct (PyStr.nonempty (_normalize_symptom term)) eqn:Hne; [|intros [= <-]; by left].
    destruct (entry_in _ _) eqn:Hin; intros [= <-].
    + left. destruct (idx !! _normalize_symptom term) as [b|] eqn:Hl; simpl in *.
      * by rewrite insert_id.
      * discriminate.
    + right. exists term. split; [done|]. split; [|done].
      intros Heq. rewrite Heq in Hne. discriminate.
  - rewrite add_symptom_not_str by done.
    destruct (truthy hpo_term); [discriminate|]. intros [= <-]. by left.
Qed.

(** A text term with a normal form that is not empty leaves an equal entry
    in the bucket of that form. *)
Lemma add_symptom_has_entry code name idx hpo_id term freq idx' :
  _normalize_symptom term ≠ "" →
  add_symptom code name idx (hpo_id, JStr term, freq) = Ok idx' →
  has_entry idx' (_normalize_symptom term) (code, name, freq, hpo_id).
Proof.
  intros Hne. rewrite add_symptom_str. simpl.
  destruct (PyStr.nonempty (_normalize_symptom term)) eqn:Hn;
    [|by apply nonempty_false in Hn].
  intros [= <-]. eexists. split; [apply lookup_insert_eq|].
  destruct (entry_in _ (default [] (idx !! _normalize_symptom term))) eqn:Hin; [done|].
  apply entry_in_elem, elem_of_app. right. apply list_elem_of_here.
Qed.

Lemma entry_in_app (e : entry) (b1 b2 : list entry) :
  entry_in e b1 = true → entry_in e (b1 ++ b2) = true.
Proof. unfold entry_in. rewrite existsb_app. by intros ->. Qed.

(** Entries stay: what a bucket holds, it holds after a step. *)
Lemma add_symptom_keeps code name idx sym idx' norm e :
  add_symptom code name idx sym = Ok idx' →
  has_entry idx norm e → has_entry idx' norm e.
Proof.
  destruct sym as [[hpo_id hpo_term] freq]. intros Hstep (bucket & Hl & Hin).
  apply add_symptom_step in Hstep as [->|(term & -> & Hne & -> & _)]; [by exists bucket|].
  destruct (decide (_normalize_symptom term = norm)) as [->|Hk].
  - eexists. split; [apply lookup_insert_eq|].
    unfold entry in *. rewrite Hl. simpl. by apply entry_in_app.
  - exists bucket. by rewrite lookup_insert_ne.
Qed.

Lemma add_symptoms_keeps code name syms norm e : ∀ idx idx',
  add_symptoms code name idx syms = Ok idx' →
  has_entry idx norm e → has_entry idx' norm e.
Proof.
  induction syms as [|sym syms IH]; intros idx idx'; [by intros [= <-]|].
  rewrite add_symptoms_cons.
  destruct (add_symptom code name idx sym) as [idx1|] eqn:H1; simpl; [|discriminate].
  intros Hrest Hhas. eapply IH; [done|]. by eapply add_symptom_keeps.
Qed.

Lemma add_symptoms_has_entry code name syms hpo_id term freq : ∀ idx idx',
  _normalize_symptom term ≠ "" →
  (hpo_id, JStr term, freq) ∈ syms →
  add_symptoms code name idx syms = Ok idx' →
  has_entry idx' (_normalize_symptom term) (code, name, freq, hpo_id).
Proof.
  induction syms as [|sym syms IH]; intros idx idx' Hne Hin; [by apply elem_of_nil in Hin|].
  rewrite add_symptoms_cons.
  destruct (add_symptom code name idx sym) as [idx1|] eqn:H1; simpl; [|discriminate].
  intros Hrest. apply elem_of_cons in Hin as [<-|Hin].
  - eapply add_symptoms_keeps; [done|]. by eapply add_symptom_has_entry.
  - by eapply IH.
Qed.

(** Where the entries of the inner loop come from. *)
Lemma add_symptoms_sound (G : string → entry → Prop) code name syms : ∀ idx idx',
  (∀ norm bucket e, idx !! norm = Some bucket → e ∈ bucket → G norm e) →
  (∀ hpo_id term freq, (hpo_id, JStr term, freq) ∈ syms →
     _normalize_symptom term ≠ "" →
     G (_normalize_symptom term) (code, name, freq, hpo_id)) →
  add_symptoms code name idx syms = Ok idx' →
  ∀ norm bucket e, idx' !! norm = Some bucket → e ∈ bucket → G norm e.
Proof.
  induction syms as [|[[hpo_id hpo_term] freq] syms IH]; intros idx idx' Hidx Hsyms;
    [by intros [= <-]|].
  rewrite add_symptoms_cons.
  destruct (add_symptom code name idx (hpo_id, hpo_term, freq)) as [idx1|] eqn:H1;
    simpl; [|discriminate].
  apply IH; [|intros ??? Hin; apply Hsyms; by right].
  apply add_symptom_step in H1 as [->|(term & -> & Hne & -> & _)]; [done|].
  intros norm bucket e. rewrite lookup_insert. case_decide as Hk.
  - intros [= <-] [Hin| ->%list_elem_of_singleton]%elem_of_app.
    + subst norm. destruct (idx !! _normalize_symptom term) as [b|] eqn:Hl; simpl in Hin.
      * by eapply Hidx.
      * by apply elem_of_nil in Hin.
    + subst norm. apply Hsyms; [by left | done].
  - apply Hidx.
Qed.

(** The body of the outer loop for a disorder that is not skipped. *)
Lemma add_disorder_kept st d code name syms :
  _extract_disease_and_symptoms d = Ok (Some code, Some name, syms) →
  add_disorder st d
  = bind (add_symptoms code name (index st) syms)
      (λ idx', Ok {| index := idx'; disease_info := <[code := name]> (disease_info st) |}).
Proof.
  intros Hx. unfold add_disorder. rewrite Hx. simpl.
  by destruct (extract_shape d code (Some name) syms Hx) as [-> _].
Qed.

(** The outcomes of the extraction. *)
Lemma extract_cases (d : json) :
  _extract_disease_and_symptoms d = Ok (None, None, [])
  ∨ (∃ code name syms, _extract_disease_and_symptoms d = Ok (Some code, Some name, syms))
  ∨ _extract_disease_and_symptoms d = Raise AttributeError.
Proof.
  destruct (_extract_disease_and_symptoms d) as [[[[code|] name] syms]|e] eqn:Hx.
  - right. left. destruct (extract_shape d code name syms Hx) as (_ & (n & -> & _) & _). eauto.
  - left. revert Hx. unfold _extract_disease_and_symptoms.
    destruct (negb (truthy _)); [done|].
    destruct (get _ "OrphaCode" JNull) as [c1|]; simpl; [|discriminate].
    destruct (if truthy c1 then _ else _); simpl; [|discriminate].
    destruct (get _ "Name" (JStr "")); simpl; [|discriminate].
    destruct (negb _ || negb _); [done|].
    destruct (get _ "HPODisorderAssociationList" JNull); simpl; [|discriminate].
    destruct (negb _); [discriminate|].
    destruct (get _ "HPODisorderAssociation" JNull); simpl; discriminate.
  - right. right. by rewrite (extract_raise d e Hx).
Qed.

Lemma add_disorder_skipped st d :
  _extract_disease_and_symptoms d = Ok (None, None, []) → add_disorder st d = Ok st.
Proof. intros Hx. unfold add_disorder. by rewrite Hx. Qed.

Lemma add_disorder_keeps st d st' norm e :
  add_disorder st d = Ok st' →
  has_entry (index st) norm e → has_entry (index st') norm e.
Proof.
  destruct (extract_cases d) as [Hx|[(code & name & syms & Hx)|Hx]].
  - rewrite add_disorder_skipped by done. by intros [= <-].
  - rewrite (add_disorder_kept _ _ _ _ _ Hx).
    destruct (add_symptoms code name (index st) syms) as [idx'|] eqn:Hs; simpl; [|discriminate].
    intros [= <-]. simpl. by eapply add_symptoms_keeps.
  - unfold add_disorder. rewrite Hx. discriminate.
Qed.

Lemma add_disorders_keeps ds norm e : ∀ st st',
  add_disorders st ds = Ok st' →
  has_entry (index st) norm e → has_entry (index st') norm e.
Proof.
  induction ds as [|d ds IH]; intros st st'; simpl; [by intros [= <-]|].
  destruct (add_disorder st d) as [st1|] eqn:H1; simpl; [|discriminate].
  intros Hrest Hhas. eapply IH; [done|]. by eapply add_disorder_keeps.
Qed.

Lemma add_disorders_has_entry ds d code name syms hpo_id term freq : ∀ st st',
  d ∈ ds →
  _extract_disease_and_symptoms d = Ok (Some code, Some name, syms) →
  (hpo_id, JStr term, freq) ∈ syms →
  _normalize_symptom term ≠ "" →
  add_disorders st ds = Ok st' →
  has_entry (index st') (_normalize_symptom term) (code, name, freq, hpo_id).
Proof.
  induction ds as [|d' ds IH]; intros st st' Hd Hx Hsym Hne; [by apply elem_of_nil in Hd|].
  simpl. destruct (add_disorder st d') as [st1|] eqn:H1; simpl; [|discriminate].
  intros Hrest. apply elem_of_cons in Hd as [<-|Hd]; [|by eapply IH].
  eapply add_disorders_keeps; [done|].
  rewrite (add_disorder_kept _ _ _ _ _ Hx) in H1.
  destruct (add_symptoms code name (index st) syms) as [idx'|] eqn:Hs; simpl in H1;
    [|discriminate].
  injection H1 as <-. simpl. by eapply add_symptoms_has_entry.
Qed.

Lemma add_disorders_sound (G : string → entry → Prop) ds : ∀ st st',
  (∀ norm bucket e, index st !! norm = Some bucket → e ∈ bucket → G norm e) →
  (∀ d code name syms hpo_id term freq,
     d ∈ ds →
     _extract_disease_and_symptoms d = Ok (Some code, Some name, syms) →
     (hpo_id, JStr term, freq) ∈ syms →
     _normalize_symptom term ≠ "" →
     G (_normalize_symptom term) (code, name, freq, hpo_id)) →
  add_disorders st ds = Ok st' →
  ∀ norm bucket e, index st' !! norm = Some bucket → e ∈ bucket → G norm e.
Proof.
  induction ds as [|d ds IH]; intros st st' Hst Hds; simpl; [by intros [= <-]|].
  destruct (add_disorder st d) as [st1|] eqn:H1; simpl; [|discriminate].
  apply IH; [|intros; eapply Hds; [by right | done..]].
  destruct (extract_cases d) as [Hx|[(code & name & syms & Hx)|Hx]].
  - rewrite add_disorder_skipped in H1 by done. by injection H1 as <-.
  - rewrite (add_disorder_kept _ _ _ _ _ Hx) in H1.
    destruct (add_symptoms code name (index st) syms) as [idx'|] eqn:Hs; simpl in H1;
      [|discriminate].
    injection H1 as <-. simpl.
    eapply add_symptoms_sound; [exact Hst | | exact Hs].
    intros hpo_id term freq Hin Hne. eapply Hds; [by left | done..].
  - unfold add_disorder in H1. rewrite Hx in H1. discriminate.
Qed.

(** The shape of keys and entries is kept by the loops. *)
Lemma add_symptoms_well_keyed code name syms : ∀ idx idx',
  code ≠ "" → truthy name = true →
  well_keyed idx →
  add_symptoms code name idx syms = Ok idx' →
  well_keyed idx'.
Proof.
  induction syms as [|[[hpo_id hpo_term] freq] syms IH]; intros idx idx' Hc Hn Hw;
    [by intros [= <-]|].
  rewrite add_symptoms_cons.
  destruct (add_symptom code name idx (hpo_id, hpo_term, freq)) as [idx1|] eqn:H1;
    simpl; [|discriminate].
  apply IH; [done..|].
  apply add_symptom_step in H1 as [->|(term & -> & Hne & -> & _)]; [done|].
  intros norm bucket. rewrite lookup_insert. case_decide as Hk; [|apply Hw].
  intros [= <-]. subst norm. split; [done|]. split; [apply normalize_twice|]. split.
  - intros Hnil. by apply app_eq_nil in Hnil as [_ ?].
  - intros e [Hin| ->%list_elem_of_singleton]%elem_of_app; [|done].
    destruct (idx !! _normalize_symptom term) as [b|] eqn:Hl; simpl in Hin.
    + by eapply Hw.
    + by apply elem_of_nil in Hin.
Qed.

Lemma add_disorders_well_keyed ds : ∀ st st',
  well_keyed (index st) → add_disorders st ds = Ok st' → well_keyed (index st').
Proof.
  induction ds as [|d ds IH]; intros st st' Hw; simpl; [by intros [= <-]|].
  destruct (add_disorder st d) as [st1|] eqn:H1; simpl; [|discriminate].
  apply IH.
  destruct (extract_cases d) as [Hx|[(code & name & syms & Hx)|Hx]].
  - rewrite add_disorder_skipped in H1 by done. by injection H1 as <-.
  - rewrite (add_disorder_kept _ _ _ _ _ Hx) in H1.
    destruct (add_symptoms code name (index st) syms) as [idx'|] eqn:Hs; simpl in H1;
      [|discriminate].
    injection H1 as <-. simpl.
    destruct (extract_shape d code (Some name) syms Hx) as (Hc & (n & [= <-] & Hn) & _).
    eapply add_symptoms_well_keyed; [| exact Hn | exact Hw | exact Hs].
    intros ->. discriminate.
  - unfold add_disorder in H1. rewrite Hx in H1. discriminate.
Qed.

Lemma add_symptoms_aborts code name syms hpo_id hpo_term freq : ∀ idx,
  (hpo_id, hpo_term, freq) ∈ syms →
  (∀ s, hpo_term ≠ JStr s) → truthy hpo_term = true →
  add_symptoms code name idx syms = Raise AttributeError.
Proof.
  induction syms as [|sym syms IH]; intros idx Hin Hns Ht; [by apply elem_of_nil in Hin|].
  rewrite add_symptoms_cons.
  apply elem_of_cons in Hin as [<-|Hin].
  - rewrite add_symptom_not_str by done. by rewrite Ht.
  - destruct (add_symptom code name idx sym) as [idx1|e] eqn:H1; simpl; [by apply IH|].
    destruct sym as [[i t] f]. destruct (is_str_dec t) as [[s ->]|Hns'].
    + rewrite add_symptom_str in H1. simpl in H1. by destruct (PyStr.nonempty _).
    + rewrite add_symptom_not_str in H1 by done.
      destruct (truthy t); [|discriminate]. by injection H1 as <-.
Qed.

Lemma add_disorders_aborts before after d :
  (∀ st, add_disorder st d = Raise AttributeError) →
  ∀ st, add_disorders st (before ++ d :: after) = Raise AttributeError.
Proof.
  intros Hd st. rewrite add_disorders_app.
  destruct (add_disorders st before) as [st1|e] eqn:Hb; simpl.
  - by rewrite Hd.
  - by rewrite (add_disorders_raise _ _ _ Hb).
Qed.

Lemma disease_info_bound ds : ∀ st st',
  add_disorders st ds = Ok st' →
  (size (disease_info st') <= size (disease_info st) + List.length ds)%nat.
Proof.
  induction ds as [|d ds IH]; intros st st'; simpl; [intros [= <-]; lia|].
  destruct (add_disorder st d) as [st1|] eqn:H1; simpl; [|discriminate].
  intros Hrest. apply IH in Hrest.
  assert (size (disease_info st1) <= S (size (disease_info st)))%nat; [|lia].
  destruct (extract_cases d) as [Hx|[(code & name & syms & Hx)|Hx]].
  - rewrite add_disorder_skipped in H1 by done. injection H1 as <-. lia.
  - rewrite (add_disorder_kept _ _ _ _ _ Hx) in H1.
    destruct (add_symptoms code name (index st) syms) as [idx'|]; simpl in H1; [|discriminate].
    injection H1 as <-. simpl.
    destruct (disease_info st !! code) as [n|] eqn:Hl.
    + rewrite <- (insert_delete_id (disease_info st) code n Hl) at 2.
      rewrite <- insert_delete_eq.
      rewrite !map_size_insert_None by apply lookup_delete_eq. lia.
    + by rewrite map_size_insert_None.
  - unfold add_disorder in H1. rewrite Hx in H1. discriminate.
Qed.

Lemma extract_disorders_not_dict (raw : json) :
  (∀ fields, raw ≠ JDict fields) → _extract_disorders raw = JList [].
Proof. intros H. destruct raw; try done. by destruct (H fields). Qed.

Lemma extract_disorders_envelope (header data : json) :
  (∀ fields, data = JDict fields → dict_get fields "data" = None) →
  _extract_disorders (envelope header data) = _extract_disorders data.
Proof.
  intros H. unfold _extract_disorders, envelope. simpl.
  destruct data as [ | | | | | fields ]; try done.
  simpl. by rewrite (H fields).
Qed.

End BuilderMoreFacts.

(** ** Further properties of the index builder *)

Module BuilderExtras.
Import Py PyFacts Builder BuilderFacts BuilderStatements BuilderMoreFacts.

(** X9.  In an index built, every key is a normal form that is not empty,
    no bucket is empty, and every entry has a code that is not empty and a
    truthy name; the disease count is at most the number of disorders read. *)
Theorem built_index_well_keyed (raw : json) (p : payload) (disorders : list json) :
  build_symptom_index raw = Ok p →
  iter (_extract_disorders raw) = Ok disorders →
  well_keyed (symptom_to_diseases p)
  ∧ symptom_count p = size (symptom_to_diseases p)
  ∧ (disease_count p <= List.length disorders)%nat.
Proof.
  unfold build_symptom_index. intros Hbuild Hiter. rewrite Hiter in Hbuild. simpl in Hbuild.
  destruct (add_disorders empty_state disorders) as [st|] eqn:Hst; simpl in Hbuild;
    [|discriminate].
  injection Hbuild as <-. simpl. split; [|split; [done|]].
  - eapply add_disorders_well_keyed; [|exact Hst].
    intros norm bucket H. simpl in H. by rewrite lookup_empty in H.
  - apply disease_info_bound in Hst. simpl in Hst. by rewrite map_size_empty in Hst.
Qed.

Lemma built_index_well_keyed_witness :
  well_keyed
    {[ "arachnodactyly" :=
         [("558", JStr "Marfan syndrome", JStr "Very frequent", JStr "HP:0001166")] ]}.
Proof.
  pose (raw := dataset [JDict [("Disorder",
       JDict [("OrphaCode", JStr "558"); ("Name", JStr "Marfan syndrome");
              ("HPODisorderAssociationList",
               JDict [("HPODisorderAssociation",
                 JDict [("HPO", JDict [("HPOId", JStr "HP:0001166");
                                       ("HPOTerm", JStr " Arachnodactyly")]);
                        ("HPOFrequency", JDict [("Name", JStr "Very frequent")])])])])]]).
  exact (proj1 (built_index_well_keyed raw _ _ Logic.eq_refl Logic.eq_refl)).
Defined.

(** X10.  The disorder list is read leniently: a dataset that is not an
    object gives no disorder and an empty index; a single disorder object in
    place of the list counts as a list of one; and the envelope of a raw
    artifact is looked through when the data has no field named data. *)
Theorem extract_disorders_lenient :
  (∀ raw : json,
     (∀ fields, raw ≠ JDict fields) →
     _extract_disorders raw = JList []
     ∧ build_symptom_index raw
       = Ok {| symptom_to_diseases := ∅; disease_count := 0; symptom_count := 0 |})
  ∧ (∀ fields : list (string * json),
       _extract_disorders
         (JDict [("HPODisorderSetStatusList",
                  JDict [("HPODisorderSetStatus", JDict fields)])])
       = JList [JDict fields])
  ∧ (∀ header data : json,
       (∀ fields, data = JDict fields → dict_get fields "data" = None) →
       _extract_disorders (envelope header data) = _extract_disorders data
       ∧ build_symptom_index (envelope header data) = build_symptom_index data).
Proof.
  split; [|split].
  - intros raw H. split; [by apply extract_disorders_not_dict|].
    unfold build_symptom_index. by rewrite extract_disorders_not_dict.
  - done.
  - intros header data H. split; [by apply extract_disorders_envelope|].
    unfold build_symptom_index. by rewrite extract_disorders_envelope.
Qed.

Lemma extract_disorders_lenient_witness :
  build_symptom_index (JList [JStr "not a dataset"])
  = Ok {| symptom_to_diseases := ∅; disease_count := 0; symptom_count := 0 |}.
Proof.
  apply (proj1 extract_disorders_lenient (JList [JStr "not a dataset"])).
  discriminate.
Defined.

(** X11.  An index built holds what the dataset says and nothing else:
    every entry of a bucket comes from an association, with a text term of
    that normal form, of a disorder that has a code and a name; and every
    such association has an equal entry in the bucket of its normal form. *)
Theorem build_sound_and_complete (raw : json) (p : payload) (disorders : list json) :
  build_symptom_index raw = Ok p →
  iter (_extract_disorders raw) = Ok disorders →
  (∀ norm bucket e,
     symptom_to_diseases p !! norm = Some bucket → e ∈ bucket →
     generated disorders norm e)
  ∧ (∀ norm e, generated disorders norm e → has_entry (symptom_to_diseases p) norm e).
Proof.
  unfold build_symptom_index. intros Hbuild Hiter. rewrite Hiter in Hbuild. simpl in Hbuild.
  destruct (add_disorders empty_state disorders) as [st|] eqn:Hst; simpl in Hbuild;
    [|discriminate].
  injection Hbuild as <-. simpl. split.
  - eapply (add_disorders_sound (generated disorders)); [| |exact Hst].
    + intros norm bucket e H. simpl in H. by rewrite lookup_empty in H.
    + intros d code name syms hpo_id term freq Hd Hx Hsym Hne.
      exists d, code, name, syms, hpo_id, term, freq. done.
  - intros norm e (d & code & name & syms & hpo_id & term & freq
                     & Hd & Hx & Hsym & <- & Hne & ->).
    by eapply add_disorders_has_entry.
Qed.

Lemma build_sound_and_complete_witness :
  has_entry
    {[ "arachnodactyly" :=
         [("558", JStr "Marfan syndrome", JStr "Very frequent", JStr "HP:0001166")] ]}
    "arachnodactyly"
    ("558", JStr "Marfan syndrome", JStr "Very frequent", JStr "HP:0001166").
Proof.
  pose (d := JDict [("Disorder",
       JDict [("OrphaCode", JStr "558"); ("Name", JStr "Marfan syndrome");
              ("HPODisorderAssociationList",
               JDict [("HPODisorderAssociation",
                 JDict [("HPO", JDict [("HPOId", JStr "HP:0001166");
                                       ("HPOTerm", JStr " Arachnodactyly")]);
                        ("HPOFrequency", JDict [("Name", JStr "Very frequent")])])])])]).
  apply (proj2 (build_sound_and_complete (dataset [d]) _ [d] Logic.eq_refl Logic.eq_refl)).
  exists d, "558", (JStr "Marfan syndrome"),
    [(JStr "HP:0001166", JStr " Arachnodactyly", JStr "Very frequent")],
    (JStr "HP:0001166"), " Arachnodactyly", (JStr "Very frequent").
  split; [apply list_elem_of_here|]. split; [reflexivity|].
  split; [apply list_elem_of_here|]. split; [reflexivity|]. split; [discriminate|].
  reflexivity.
Defined.

(** X12.  One association whose term is truthy and not a text, in a
    disorder that has a code and a name, makes the whole build raise
    [AttributeError], wherever the disorder stands in the dataset. *)
Theorem build_aborts_on_term_not_text (before after : list json) (d : json)
    (code : string) (name : json) (syms : list symptom) (hpo_id hpo_term freq : json) :
  _extract_disease_and_symptoms d = Ok (Some code, Some name, syms) →
  (hpo_id, hpo_term, freq) ∈ syms →
  (∀ s, hpo_term ≠ JStr s) →
  build_symptom_index (dataset (before ++ d :: after)) = Raise AttributeError.
Proof.
  intros Hx Hin Hns. rewrite build_dataset.
  rewrite add_disorders_aborts; [done|].
  intros st. rewrite (add_disorder_kept _ _ _ _ _ Hx).
  rewrite (add_symptoms_aborts _ _ _ hpo_id hpo_term freq); [done..|].
  destruct (extract_shape d code (Some name) syms Hx) as (_ & _ & Ht).
  by apply (Ht _ Hin).
Qed.

Lemma build_aborts_on_term_not_text_witness :
  build_symptom_index
    (dataset [JDict [("Disorder",
       JDict [("OrphaCode", JStr "558"); ("Name", JStr "Marfan syndrome");
              ("HPODisorderAssociationList",
               JDict [("HPODisorderAssociation",
                 JDict [("HPO", JDict [("HPOId", JStr "HP:0001166");
                                       ("HPOTerm", JNum 7)])])])])]])
  = Raise AttributeError.
Proof.
  apply (build_aborts_on_term_not_text [] [] _ "558" (JStr "Marfan syndrome")
           [(JStr "HP:0001166", JNum 7, JStr "")] (JStr "HP:0001166") (JNum 7) (JStr "")).
  - reflexivity.
  - apply list_elem_of_here.
  - discriminate.
Defined.

End BuilderExtras.

(** ** More on the orchestrator *)

Module OrchestratorMoreFacts.
Import Py Orchestrator OrchestratorFacts.

Lemma key_in_app (k : string) (c c' : list json) :
  key_in k (c ++ c') = key_in k c || key_in k c'.
Proof. unfold key_in. apply existsb_app. Qed.

Lemma key_in_singleton (k key : string) :
  key_in k [JStr key] = true ↔ k = key.
Proof.
  unfold key_in. simpl. rewrite orb_false_r, String.eqb_eq. split; congruence.
Qed.

(** What a run of the loop does, whatever the collaborators do: the keys it
    invokes were not completed before and are invoked once each; those
    fetched are appended to the completed list, and at most the last key
    invoked is not among them. *)
Lemma run_jobs_trace fetch jobs : ∀ st,
  ∃ called fetched,
    invoked (end_state (run_jobs fetch st jobs)) = (invoked st ++ called)%list
    ∧ completed (end_state (run_jobs fetch st jobs))
      = (completed st ++ (JStr <$> fetched))%list
    ∧ (called = fetched ∨ ∃ k, called = (fetched ++ [k])%list)
    ∧ NoDup called
    ∧ ∀ k, k ∈ called → key_in k (completed st) = false ∧ k ∈ job_key <$> jobs.
Proof.
  induction jobs as [|[[key name] kwargs] jobs IH]; intros st.
  { exists [], []. simpl. rewrite !app_nil_r.
    split_and!; [done | done | by left | constructor | by intros k ?%elem_of_nil]. }
  simpl. destruct (key_in key (completed st)) eqn:Hkey.
  { destruct (IH st) as (called & fetched & Hi & Hc & Hlast & Hnd & Hk).
    exists called, fetched. split_and!; [done..|].
    intros k Hin. split; [by apply Hk | right; by apply Hk]. }
  destruct (negb (bool_decide (key ∈ fetcher_map))); simpl.
  { exists [], []. simpl. rewrite !app_nil_r.
    split_and!; [done | done | by left | constructor | by intros k ?%elem_of_nil]. }
  destruct (fetch (invoked st) key kwargs); simpl.
  - match goal with |- context [run_jobs fetch ?s jobs] =>
      destruct (IH s) as (called & fetched & Hi & Hc & Hlast & Hnd & Hk) end.
    simpl in Hi, Hc, Hk.
    exists (key :: called), (key :: fetched).
    rewrite Hi, Hc, <- !app_assoc. simpl. split_and!; [done | done | | |].
    + destruct Hlast as [->|[k ->]]; [by left | right; by exists k].
    + constructor; [|done]. intros Hin. apply Hk in Hin as [Hin _].
      rewrite key_in_app in Hin. apply orb_false_iff in Hin as [_ Hin].
      assert (key_in key [JStr key] = true) by (by apply key_in_singleton). congruence.
    + intros k [->|Hin]%elem_of_cons; [split; [done | by left]|].
      apply Hk in Hin as [Hin Hjob]. rewrite key_in_app in Hin.
      apply orb_false_iff in Hin as [? _]. split; [done | by right].
  - exists [key], []. simpl. rewrite app_nil_r. split_and!; [done | done | | |].
    + right. by exists key.
    + apply NoDup_singleton.
    + intros k ->%list_elem_of_singleton. split; [done | by left].
Qed.

(** The checkpoint a run leaves once a job has been attempted, and always
    after the loop ran through and [main] saved. *)
Lemma run_jobs_exited fetch jobs : ∀ st st',
  run_jobs fetch st jobs = Exited st' →
  ∃ msg, checkpoint st' = Document (checkpoint_doc (completed st') (Some msg)).
Proof.
  induction jobs as [|[[key name] kwargs] jobs IH]; intros st st'; simpl; [discriminate|].
  destruct (key_in key (completed st)); [apply IH|].
  destruct (negb (bool_decide (key ∈ fetcher_map))); [intros [= <-]; simpl; eauto|].
  destruct (fetch (invoked st) key kwargs); [apply IH|].
  intros [= <-]. simpl. eauto.
Qed.

Lemma key_in_mono (k : string) (c added : list json) :
  key_in k c = true → key_in k (c ++ added) = true.
Proof. intros H. by rewrite key_in_app, H. Qed.

Lemma run_jobs_ran_through fetch jobs : ∀ st st',
  run_jobs fetch st jobs = RanThrough st' → all_completed jobs (completed st').
Proof.
  induction jobs as [|[[key name] kwargs] jobs IH]; intros st st'; simpl; [constructor|].
  intros Hrun.
  assert (∃ added, completed st' = (completed st ++ added)%list) as [added Hadd].
  { pose proof (run_jobs_grows fetch ((key, name, kwargs) :: jobs) st) as [Hc _].
    simpl in Hc. by rewrite Hrun in Hc. }
  destruct (key_in key (completed st)) eqn:Hkey.
  { constructor; [|by eapply IH]. unfold job_key. simpl. rewrite Hadd. by apply key_in_mono. }
  destruct (negb (bool_decide (key ∈ fetcher_map))); [discriminate|].
  destruct (fetch (invoked st) key kwargs); [|discriminate].
  constructor; [|by eapply IH].
  pose proof (run_jobs_grows fetch jobs
    {| completed := (completed st ++ [JStr key])%list;
       checkpoint := save_checkpoint (checkpoint st) (completed st ++ [JStr key]) None;
       invoked := (invoked st ++ [key])%list |}) as [[added' Hc] _].
  rewrite Hrun in Hc. simpl in Hc. unfold job_key. simpl. rewrite Hc.
  apply key_in_mono. rewrite key_in_app. apply orb_true_iff. right.
  by apply key_in_singleton.
Qed.

(** The start of a run, read from the file. *)
Lemma startup_checkpoint_doc (argv : list string) (cs : list json)
    (last_error : option string) :
  "--reset" ∉ argv →
  startup argv (Document (checkpoint_doc cs last_error))
  = Ok {| completed := cs;
          checkpoint := Document (checkpoint_doc cs last_error);
          invoked := [] |}.
Proof.
  intros Hreset. unfold startup. simpl.
  rewrite bool_decide_false by done.
  destruct last_error as [msg|]; simpl; [|done]. by destruct (PyStr.nonempty msg).
Qed.

Lemma startup_invoked (argv : list string) (f : file) (st0 : state) :
  startup argv f = Ok st0 → invoked st0 = [].
Proof.
  unfold startup.
  destruct (get (load_checkpoint f) "completed" (JList [])) as [c|]; simpl; [|discriminate].
  destruct (iter c); simpl; [|discriminate].
  destruct (get (load_checkpoint f) "last_error" JNull) as [e|]; simpl; [|discriminate].
  destruct (if truthy e then _ else _); simpl; [|discriminate].
  destruct (bool_decide _); by intros [= <-].
Qed.


(** When every collaborator returns, the loop runs through and invokes
    every job that was not completed. *)
Lemma run_jobs_all_fetched (fetch : collaborator) jobs :
  (∀ history key kwargs, fetch history key kwargs = Fetched) →
  ∀ st,
  Forall (λ j, job_key j ∈ fetcher_map) jobs →
  ∃ st' called,
    run_jobs fetch st jobs = RanThrough st'
    ∧ invoked st' = (invoked st ++ called)%list
    ∧ completed st' = (completed st ++ (JStr <$> called))%list
    ∧ ∀ j, j ∈ jobs → key_in (job_key j) (completed st) = false → job_key j ∈ called.
Proof.
  intros Hfetch. induction jobs as [|[[key name] kwargs] jobs IH]; intros st Hmap.
  { exists st, []. simpl. rewrite !app_nil_r. split_and!; [done..|]. by intros j ?%elem_of_nil. }
  apply Forall_cons in Hmap as [Hkey Hmap]. unfold job_key in Hkey. simpl in Hkey.
  simpl. destruct (key_in key (completed st)) eqn:Hin.
  { destruct (IH st Hmap) as (st' & called & Hrun & Hi & Hc & Hall).
    exists st', called. split_and!; [done..|].
    intros j [->|Hj]%elem_of_cons Hnot; [|by apply Hall].
    unfold job_key in Hnot. simpl in Hnot. congruence. }
  rewrite bool_decide_true by done. simpl. rewrite Hfetch.
  match goal with |- context [run_jobs fetch ?s jobs] =>
    destruct (IH s Hmap) as (st' & called & Hrun & Hi & Hc & Hall) end.
  simpl in Hi, Hc, Hall.
  exists st', (key :: called). rewrite Hi, Hc, <- !app_assoc. simpl.
  split_and!; [done..|].
  intros j [->|Hj]%elem_of_cons Hnot; [by left|].
  destruct (decide (job_key j = key)) as [<-|Hne]; [by left|]. right.
  apply Hall; [done|]. rewrite key_in_app, Hnot. simpl.
  apply not_true_iff_false. intros Hk. by apply key_in_singleton in Hk.
Qed.

(** After a run that got past reading the checkpoint, the file holds the
    completed list reached. *)
Lemma exit_code_matches_checkpoint_core (jobs : list job) (argv : list string)
    (fetch : collaborator) (f : file) (st0 : state) :
  startup argv f = Ok st0 →
  ∃ st, final (main_with jobs argv fetch f) = Some st
        ∧ ∃ le, checkpoint st = Document (checkpoint_doc (completed st) le).
Proof.
  intros Hstart. unfold main_with. rewrite Hstart.
  destruct (run_jobs fetch st0 jobs) as [st|st] eqn:Hrun; simpl.
  - eexists. split; [done|]. by exists None.
  - exists st. split; [done|].
    destruct (run_jobs_exited _ _ _ _ Hrun) as [msg Hmsg]. by exists (Some msg).
Qed.



End OrchestratorMoreFacts.

(** ** Further properties of the orchestrator *)

Module OrchestratorExtras.
Import Py Orchestrator OrchestratorFacts OrchestratorMoreFacts.

(** X13.  Whatever the collaborators do, a run that gets past reading the
    checkpoint invokes only jobs of the list whose key the checkpoint did not
    hold, each key at most once; the keys fetched are appended to the
    completed list in the order they were invoked, and at most the last key
    invoked is missing from it. *)
Theorem run_never_repeats (jobs : list job) (argv : list string) (fetch : collaborator)
    (f : file) (st0 : state) :
  startup argv f = Ok st0 →
  ∃ st fetched,
    final (main_with jobs argv fetch f) = Some st
    ∧ NoDup (invoked st)
    ∧ (∀ k, k ∈ invoked st → key_in k (completed st0) = false ∧ k ∈ job_key <$> jobs)
    ∧ completed st = (completed st0 ++ (JStr <$> fetched))%list
    ∧ (invoked st = fetched ∨ ∃ k, invoked st = (fetched ++ [k])%list).
Proof.
  intros Hstart. unfold main_with. rewrite Hstart.
  destruct (run_jobs_trace fetch jobs st0) as (called & fetched & Hi & Hc & Hlast & Hnd & Hk).
  rewrite (startup_invoked _ _ _ Hstart) in Hi. simpl in Hi.
  destruct (run_jobs fetch st0 jobs) as [st|st]; simpl in *;
    (eexists; exists fetched; split; [reflexivity|]); simpl; rewrite Hi; by split_and!.
Qed.

Lemma run_never_repeats_witness :
  ∃ st fetched,
    final (main [] (λ _ key _, if String.eqb key "pmc"
                               then Failed "Timeout" "read timed out" else Fetched)
             (Document (checkpoint_doc [JStr "orphanet"] None))) = Some st
    ∧ NoDup (invoked st)
    ∧ (∀ k, k ∈ invoked st →
         key_in k [JStr "orphanet"] = false ∧ k ∈ job_key <$> CONFIG)
    ∧ completed st = ([JStr "orphanet"] ++ (JStr <$> fetched))%list
    ∧ (invoked st = fetched ∨ ∃ k, invoked st = (fetched ++ [k])%list).
Proof.
  apply (run_never_repeats CONFIG [] _ (Document (checkpoint_doc [JStr "orphanet"] None))
           {| completed := [JStr "orphanet"];
              checkpoint := Document (checkpoint_doc [JStr "orphanet"] None);
              invoked := [] |}).
  reflexivity.
Defined.



(** X15.  When every collaborator returns and every job has a fetcher, the
    run ends with exit code 0, having invoked exactly the jobs whose key the
    checkpoint did not hold and appended their keys, in the order invoked, to
    the completed list. *)
Theorem run_completes_when_all_fetch (jobs : list job) (argv : list string)
    (fetch : collaborator) (f : file) (st0 : state) :
  startup argv f = Ok st0 →
  (∀ history key kwargs, fetch history key kwargs = Fetched) →
  Forall (λ j, job_key j ∈ fetcher_map) jobs →
  ∃ st,
    main_with jobs argv fetch f = {| status := ExitCode 0; final := Some st |}
    ∧ completed st = (completed st0 ++ (JStr <$> invoked st))%list
    ∧ checkpoint st = Document (checkpoint_doc (completed st) None)
    ∧ ∀ k, k ∈ invoked st ↔
           k ∈ job_key <$> jobs ∧ key_in k (completed st0) = false.
Proof.
  intros Hstart Hfetch Hmap. unfold main_with. rewrite Hstart.
  destruct (run_jobs_all_fetched fetch jobs Hfetch st0 Hmap)
    as (st' & called & Hrun & Hi & Hc & Hall).
  destruct (run_jobs_trace fetch jobs st0) as (called' & _ & Hi' & _ & _ & _ & Hk).
  rewrite Hrun in Hi'. simpl in Hi'. rewrite Hi in Hi'. apply app_inv_head in Hi'. subst called'.
  rewrite (startup_invoked _ _ _ Hstart) in Hi. simpl in Hi.
  rewrite Hrun. eexists. split; [done|]. simpl. rewrite Hi. split_and!; [done..|].
  intros k. split; [intros Hin; apply Hk in Hin; tauto|].
  intros [([[key name] kwargs] & -> & Hj)%list_elem_of_fmap Hnot]. by apply (Hall _ Hj).
Qed.

Lemma run_completes_when_all_fetch_witness :
  ∃ st,
    main [] (λ _ _ _, Fetched)
      (Document (checkpoint_doc (JStr <$> take 7 fetcher_map) (Some "Timeout: read timed out")))
    = {| status := ExitCode 0; final := Some st |}
    ∧ invoked st = ["ncbi_bookshelf"; "openstax"].
Proof.
  destruct (run_completes_when_all_fetch CONFIG [] (λ _ _ _, Fetched)
              (Document (checkpoint_doc (JStr <$> take 7 fetcher_map)
                           (Some "Timeout: read timed out")))
              {| completed := JStr <$> take 7 fetcher_map;
                 checkpoint := Document (checkpoint_doc (JStr <$> take 7 fetcher_map)
                                           (Some "Timeout: read timed out"));
                 invoked := [] |}) as (st & Hmain & _).
  - reflexivity.
  - reflexivity.
  - repeat constructor.
  - exists st. split; [exact Hmain|].
    vm_compute in Hmain. by injection Hmain as <-.
Defined.

(** X16.  A run resumes where the previous one stopped: started without
    [--reset] on the checkpoint any run left, it gets past reading it, keeps
    every key that run had completed and invokes none of them again. *)
Theorem resume_after_any_run (jobs : list job) (argv argv' : list string)
    (fetch fetch' : collaborator) (f : file) (st0 st1 : state) :
  startup argv f = Ok st0 →
  final (main_with jobs argv fetch f) = Some st1 →
  "--reset" ∉ argv' →
  ∃ st2 fetched,
    final (main_with jobs argv' fetch' (checkpoint st1)) = Some st2
    ∧ completed st2 = (completed st1 ++ (JStr <$> fetched))%list
    ∧ ∀ k, k ∈ invoked st2 → key_in k (completed st1) = false.
Proof.
  intros Hstart Hfinal Hreset.
  destruct (exit_code_matches_checkpoint_core jobs argv fetch f st0 Hstart)
    as (st & Hst & Hfile).
  rewrite Hfinal in Hst. injection Hst as <-.
  destruct Hfile as [le Hfile].
  pose proof (startup_checkpoint_doc argv' (completed st1) le Hreset) as Hstart'.
  rewrite <- Hfile in Hstart'.
  destruct (run_jobs_trace fetch' jobs
              {| completed := completed st1; checkpoint := checkpoint st1; invoked := [] |})
    as (called & fetched & Hi & Hc & _ & _ & Hk).
  unfold main_with. rewrite Hstart'.
  destruct (run_jobs fetch' _ jobs) as [st|st]; simpl in *;
    (eexists; exists fetched; split; [reflexivity|]); simpl; rewrite Hi;
    (split; [done|]); intros k Hin; by apply Hk.
Qed.

Lemma resume_after_any_run_witness :
  ∃ st2 fetched,
    final (main [] (λ _ _ _, Fetched)
             (Document (checkpoint_doc [JStr "orphanet"]
                          (Some "RetryError: 5 attempts")))) = Some st2
    ∧ completed st2 = ([JStr "orphanet"] ++ (JStr <$> fetched))%list
    ∧ ∀ k, k ∈ invoked st2 → key_in k [JStr "orphanet"] = false.
Proof.
  apply (resume_after_any_run CONFIG [] []
           (λ _ key _, if String.eqb key "pubmed"
                       then Failed "RetryError" "5 attempts" else Fetched)
           (λ _ _ _, Fetched) Absent
           {| completed := []; checkpoint := Absent; invoked := [] |}
           {| completed := [JStr "orphanet"];
              checkpoint := Document (checkpoint_doc [JStr "orphanet"]
                                        (Some "RetryError: 5 attempts"));
              invoked := ["orphanet"; "pubmed"] |}).
  - reflexivity.
  - reflexivity.
  - apply not_elem_of_nil.
Defined.



End OrchestratorExtras.

(** ** More on the deduplicator and the pruner *)

Module CleanupMoreFacts.
Import Py Dedup DedupFacts Pruner PrunerFacts CleanupStatements.

(** The sort is stable: its first element is the first of the list that no
    other element precedes in the order. *)
Lemma sorted_by_first {A} (k : A → Z * Z) (l : list A) (m : A) (rest : list A) :
  sorted_by k l = m :: rest →
  ∃ pre post, l = (pre ++ m :: post)%list ∧ ∀ x, x ∈ pre → key_le (k x) (k m) = false.
Proof.
  revert m rest. induction l as [|x l IH]; intros m rest; simpl; [discriminate|].
  destruct (sorted_by k l) as [|m' rest'] eqn:Hs; simpl.
  - intros [= <- <-]. exists [], l. split; [done|]. by intros y ?%elem_of_nil.
  - destruct (key_le (k x) (k m')) eqn:Hle.
    + intros [= <- <-]. exists [], l. split; [done|]. by intros y ?%elem_of_nil.
    + intros [= <- <-]. destruct (IH m' rest' Logic.eq_refl) as (pre & post & -> & Hpre).
      exists (x :: pre), post. split; [done|].
      intros y [->|Hy]%elem_of_cons; [done | by apply Hpre].
Qed.

Lemma key_le_false_ranks (source subdir : string) (p q : candidate) :
  key_le (key source subdir p) (key source subdir q) = false →
  ranks_strictly_below source subdir p q.
Proof.
  unfold key_le, key, ranks_strictly_below, count. simpl.
  rewrite orb_false_iff, andb_false_iff, Z.ltb_ge, Z.eqb_neq, Z.leb_gt. lia.
Qed.

Lemma collect_kept_ids_app (raw raw' : list (option json)) :
  collect_kept_ids (raw ++ raw') = (collect_kept_ids raw ++ collect_kept_ids raw')%list.
Proof.
  induction raw as [|f raw IH]; simpl; [done|].
  destruct f as [doc|]; [|done].
  destruct (kept_id_of doc) as [[fid|]|]; simpl; by rewrite ?IH.
Qed.

Lemma id_in_app (fid : string) (k k' : list json) :
  id_in fid (k ++ k') = id_in fid k || id_in fid k'.
Proof. unfold id_in. apply existsb_app. Qed.

Lemma elem_of_left (raw : list (option json)) (meta : list string) (name : string) :
  name ∈ (main raw meta).2 ↔ name ∈ meta ∧ name ∉ (main raw meta).1.
Proof.
  unfold main. cbn [fst snd]. rewrite list_elem_of_filter. tauto.
Qed.

Lemma filter_ext_in {A} (P Q : A → Prop) `{!∀ x, Decision (P x), !∀ x, Decision (Q x)}
    (l : list A) :
  (∀ x, x ∈ l → P x ↔ Q x) → filter P l = filter Q l.
Proof.
  induction l as [|x l IH]; intros Hext; [done|].
  rewrite !filter_cons.
  rewrite IH by (intros y Hy; apply Hext; by right).
  destruct (decide (P x)) as [HP|HP], (decide (Q x)) as [HQ|HQ]; try done.
  - destruct HQ. apply Hext; [by left | done].
  - destruct HP. apply Hext; [by left | done].
Qed.

Lemma main_partition (raw : list (option json)) (meta : list string) :
  ((main raw meta).1 ++ (main raw meta).2)%list ≡ₚ meta.
Proof.
  unfold main. cbn [fst snd].
  set (P := λ name, is_manifest_name name = true
                    ∧ id_in (manifest_fetch_id name) (collect_kept_ids raw) = false).
  assert (deleted_manifests (collect_kept_ids raw) meta = filter P meta) as -> by done.
  rewrite (filter_ext_in (λ name, name ∉ filter P meta) (λ name, ¬ P name)).
  - apply filter_app_complement.
  - intros name Hin. rewrite list_elem_of_filter. tauto.
Qed.

Lemma main_settles (raw : list (option json)) (meta : list string) :
  main raw (main raw meta).2 = ([], (main raw meta).2).
Proof.
  assert ((main raw (main raw meta).2).1 = []) as Hnil.
  { apply elem_of_nil_inv. intros name Hin.
    apply elem_of_deleted in Hin as (Hleft & Hm & Hid).
    apply elem_of_left in Hleft as [Hmeta Hnot]. apply Hnot.
    by apply elem_of_deleted. }
  unfold main in *. cbn [fst snd] in *. rewrite Hnil. f_equal.
  rewrite (filter_ext_in _ (λ _, True)).
  - clear Hnil. induction (filter _ meta) as [|x l IH]; [done|].
    rewrite filter_cons. destruct (decide True); [by rewrite IH | done].
  - intros name _. split; [done|]. intros _. apply not_elem_of_nil.
Qed.

Lemma collect_kept_ids_perm (raw raw' : list (option json)) :
  raw ≡ₚ raw' → collect_kept_ids raw ≡ₚ collect_kept_ids raw'.
Proof.
  induction 1 as [|f raw raw' _ IH|f g raw|raw raw' raw'' _ IH _ IH']; simpl.
  - done.
  - destruct f as [doc|]; [|done]. destruct (kept_id_of doc) as [[fid|]|]; by rewrite ?IH.
  - destruct f as [doc|], g as [doc'|]; try done;
      repeat match goal with |- context [kept_id_of ?d] =>
        destruct (kept_id_of d) as [[?|]|] end; try done.
    apply Permutation_swap.
  - by rewrite IH.
Qed.

Lemma deleted_manifests_ext (k k' : list json) (meta : list string) :
  (∀ fid, JStr fid ∈ k ↔ JStr fid ∈ k') →
  deleted_manifests k meta = deleted_manifests k' meta.
Proof.
  intros Hsame. unfold deleted_manifests. apply list_filter_iff. intros name.
  assert (id_in (manifest_fetch_id name) k = id_in (manifest_fetch_id name) k') as ->; [|done].
  apply eq_true_iff_eq. rewrite !id_in_spec. apply Hsame.
Qed.

End CleanupMoreFacts.

(** ** Further properties of the deduplicator and the pruner *)

Module CleanupExtras.
Import Py Dedup DedupFacts Pruner PrunerFacts CleanupStatements CleanupMoreFacts.

(** X18.  Ties go to the file listed first: every candidate the directory
    lists before the one kept ranks strictly below it, so of several files
    with the best record count and the same modification time the first
    listed survives. *)
Theorem dedup_keeps_first_of_equals (source subdir : string) (files removed : list candidate)
    (keep : candidate) :
  dedup_dir source subdir files = (Some keep, removed) →
  ∃ pre post,
    files = (pre ++ keep :: post)%list
    ∧ (∀ x, x ∈ pre → ranks_strictly_below source subdir x keep)
    ∧ (∀ x, x ∈ post → ranks_below source subdir x keep).
Proof.
  unfold dedup_dir. destruct (List.length files <=? 1)%nat; [discriminate|].
  destruct (sorted_by (key source subdir) files) as [|m rest] eqn:Hs; [discriminate|].
  intros [= -> <-].
  destruct (sorted_by_first _ _ _ _ Hs) as (pre & post & -> & Hpre).
  exists pre, post. split; [done|]. split.
  - intros x Hx. by apply key_le_false_ranks, Hpre.
  - intros x Hx. apply key_le_ranks. eapply sorted_by_head; [exact Hs|].
    apply elem_of_app. right. by right.
Qed.

Lemma dedup_keeps_first_of_equals_witness :
  let a := {| path := "who_20240101_000000.json"; content := None; mtime := 5 |} in
  let b := {| path := "who_20240102_000000.json"; content := None; mtime := 5 |} in
  ∃ pre post,
    [a; b] = (pre ++ a :: post)%list
    ∧ (∀ x, x ∈ pre → ranks_strictly_below "who" "documents" x a)
    ∧ (∀ x, x ∈ post → ranks_below "who" "documents" x a).
Proof.
  intros a b.
  apply (dedup_keeps_first_of_equals "who" "documents" [a; b] [b] a). reflexivity.
Defined.

(** X19.  The pruner splits the metadata directory in two: what it deletes
    and what it leaves; it deletes only names that end in [_manifest.json];
    and run again on what it left, with the same raw artifacts, it deletes
    nothing. *)
Theorem prune_partitions_and_settles (raw : list (option json)) (meta : list string) :
  ((main raw meta).1 ++ (main raw meta).2)%list ≡ₚ meta
  ∧ (∀ name, name ∈ (main raw meta).1 → is_manifest_name name = true)
  ∧ main raw (main raw meta).2 = ([], (main raw meta).2).
Proof.
  split; [apply main_partition|]. split.
  - intros name Hin. by apply elem_of_deleted in Hin as (_ & ? & _).
  - apply main_settles.
Qed.

(** X20.  What the pruner deletes depends on the identifiers of the
    readable artifacts only: an artifact that cannot be opened or parsed
    keeps no manifest, the order in which the artifacts are listed does not
    matter, and with more artifacts no further manifest is deleted. *)
Theorem prune_depends_on_kept_ids (meta : list string) :
  (∀ raw raw' : list (option json),
     main (raw ++ None :: raw') meta = main (raw ++ raw') meta)
  ∧ (∀ raw raw' : list (option json), raw ≡ₚ raw' → main raw meta = main raw' meta)
  ∧ (∀ (raw more : list (option json)) (name : string),
       name ∈ (main (raw ++ more) meta).1 → name ∈ (main raw meta).1).
Proof.
  split; [|split].
  - intros raw raw'. unfold main. by rewrite !collect_kept_ids_app.
  - intros raw raw' Hperm. unfold main.
    rewrite (deleted_manifests_ext (collect_kept_ids raw) (collect_kept_ids raw')); [done|].
    intros fid. by rewrite (collect_kept_ids_perm _ _ Hperm).
  - intros raw more name. rewrite !elem_of_deleted, collect_kept_ids_app, id_in_app.
    intros (Hm & Hn & [Hid _]%orb_false_iff). done.
Qed.

(** X21.  For a raw Orphanet artifact whose status list is an object that
    is not empty and holds the disorders as a list or as one object, the
    record count the deduplicator ranks it by is the number of disorders the
    index builder reads from it. *)
Theorem orphanet_count_is_disorders_read (header : json) (body status : list (string * json))
    (subdir : string) :
  dict_get body "HPODisorderSetStatusList" = Some (JDict status) →
  status ≠ [] →
  is_list (default (JList []) (dict_get status "HPODisorderSetStatus"))
  || is_dict (default (JList []) (dict_get status "HPODisorderSetStatus")) = true →
  ∃ disorders,
    iter (Builder._extract_disorders (BuilderStatements.envelope header (JDict body)))
    = Ok disorders
    ∧ record_count (Some (BuilderStatements.envelope header (JDict body))) "orphanet" subdir
      = Z.of_nat (List.length disorders).
Proof.
  intros Hstatus Hne Hshape.
  unfold record_count, count_records, Builder._extract_disorders, BuilderStatements.envelope.
  simpl. rewrite Hstatus. simpl.
  destruct status as [|kv status]; [done|]. remember (kv :: status) as st. 
  replace (match st with [] => false | _ :: _ => true end) with true by (by subst st).
  simpl.
  destruct (default (JList []) (dict_get st "HPODisorderSetStatus"))
    as [ | | | | items | fields ]; try discriminate; simpl; eauto.
Qed.

Lemma orphanet_count_is_disorders_read_witness :
  ∃ disorders,
    iter (Builder._extract_disorders
            (BuilderStatements.envelope (JDict [("fetch_id", JStr "orphanet_20240101_000000")])
               (JDict [("HPODisorderSetStatusList",
                        JDict [("HPODisorderSetStatus", JList [JNull; JNull; JNull])])])))
    = Ok disorders
    ∧ record_count
        (Some (BuilderStatements.envelope
                 (JDict [("fetch_id", JStr "orphanet_20240101_000000")])
                 (JDict [("HPODisorderSetStatusList",
                          JDict [("HPODisorderSetStatus", JList [JNull; JNull; JNull])])])))
        "orphanet" "phenotypes"
      = Z.of_nat (List.length disorders).
Proof.
  apply (orphanet_count_is_disorders_read _ _
           [("HPODisorderSetStatus", JList [JNull; JNull; JNull])]).
  - reflexivity.
  - discriminate.
  - reflexivity.
Defined.

End CleanupExtras.

(** ** The writer and the pruner together *)

Module StorageFacts.
Import Py Pruner Storage PrunerFacts.

Lemma append_nil_r (s : string) : s ++ "" = s.
Proof. induction s as [|c s IH]; [done|]. by rewrite append_cons, IH. Qed.

Lemma append_assoc (a b c : string) : (a ++ b) ++ c = a ++ (b ++ c).
Proof. induction a as [|x a IH]; [done|]. by rewrite !append_cons, IH. Qed.

Lemma length_append (a b : string) :
  String.length (a ++ b) = (String.length a + String.length b)%nat.
Proof. induction a as [|x a IH]; [done|]. rewrite append_cons. simpl. by rewrite IH. Qed.

Lemma substring_append (a b : string) : String.substring 0 (String.length a) (a ++ b) = a.
Proof.
  induction a as [|x a IH]; simpl.
  - by destruct b.
  - by rewrite IH.
Qed.

Lemma rev_app_acc (s acc : string) : String.rev_app s acc = String.rev s ++ acc.
Proof.
  unfold String.rev. revert acc. induction s as [|x s IH]; intros acc; [done|].
  simpl. rewrite (IH (String x acc)), (IH (String x "")). by rewrite append_assoc.
Qed.

Lemma rev_append (a b : string) : String.rev (a ++ b) = String.rev b ++ String.rev a.
Proof.
  rewrite <- rev_app_acc. unfold String.rev. generalize "".
  induction a as [|x a IH]; intros acc; [done|].
  rewrite append_cons. simpl. apply IH.
Qed.

Lemma ends_with_append (s suffix : string) : ends_with (s ++ suffix) suffix = true.
Proof. unfold ends_with. rewrite rev_append. apply prefix_spec. eauto. Qed.

(** A prefix of [s ++ t] lies within [s] or straddles the two. *)
Lemma prefix_app_split (p s t : string) :
  String.prefix p (s ++ t) = true →
  String.prefix p s = true ∨ ∃ p2, p = s ++ p2 ∧ p2 ≠ "" ∧ String.prefix p2 t = true.
Proof.
  revert s. induction p as [|a p IH]; intros s H.
  - left. by destruct s.
  - destruct s as [|b s].
    + right. exists (String a p). by rewrite append_nil in H.
    + rewrite append_cons in H. simpl in H |- *.
      destruct (ascii_dec a b) as [->|]; [|discriminate].
      destruct (IH s H) as [Hp|(p2 & -> & Hne & Hp)]; [by left|].
      right. by exists p2.
Qed.

(** No proper suffix of [_manifest] starts with an underscore. *)
Lemma manifest_no_straddle (s p2 t : string) :
  "_manifest" = s ++ p2 → s ≠ "" → p2 ≠ "" → String.prefix p2 (String "_" t) = false.
Proof.
  intros Heq Hs Hp.
  do 9 (destruct s as [|? s];
        [first [done | rewrite append_nil in Heq; subst p2; reflexivity]
        | rewrite append_cons in Heq; injection Heq as <- Heq]).
  destruct s; [|discriminate]. rewrite append_nil in Heq. by subst p2.
Qed.

Lemma prefix_manifest_app (c : ascii) (s t : string) :
  String.prefix "_manifest" (String c s) = false →
  String.prefix "_manifest" (String c s ++ String "_" t) = false.
Proof.
  intros Hp.
  destruct (String.prefix "_manifest" (String c s ++ String "_" t)) eqn:H; [|done].
  apply prefix_app_split in H as [H|(p2 & Heq & Hne & H)]; [congruence|].
  by rewrite (manifest_no_straddle (String c s) p2 t) in H.
Qed.


Lemma remove_from_cons (old : string) (c : ascii) (r : string) :
  remove_from 0 old (String c r)
  = if String.prefix old (String c r)
    then remove_from (String.length old - 1) old r
    else String c (remove_from 0 old r).
Proof. reflexivity. Qed.

Lemma remove_from_manifest_app (s t : string) :
  PyStr.contains "_manifest" s = false →
  remove_from 0 "_manifest" (s ++ String "_" t)
  = s ++ remove_from 0 "_manifest" (String "_" t).
Proof.
  intros Hs. induction s as [|c s IH]; [done|].
  rewrite contains_unfold in Hs. apply orb_false_iff in Hs as [Hp Hs].
  pose proof (prefix_manifest_app c s t Hp) as Hp'.
  rewrite append_cons in Hp' |- *. rewrite remove_from_cons, Hp', IH; done.
Qed.

Lemma stem_manifest_name (fid : string) : stem (manifest_name fid) = fid ++ "_manifest".
Proof.
  unfold stem, manifest_name.
  change "_manifest.json" with ("_manifest" ++ ".json").
  rewrite <- append_assoc, length_append.
  replace (String.length (fid ++ "_manifest") + String.length ".json" - 5)%nat
    with (String.length (fid ++ "_manifest")) by (simpl; lia).
  apply substring_append.
Qed.

Lemma is_manifest_name_manifest_name (fid : string) :
  is_manifest_name (manifest_name fid) = true.
Proof. apply ends_with_append. Qed.

Lemma manifest_fetch_id_manifest_name (fid : string) :
  PyStr.contains "_manifest" fid = false →
  manifest_fetch_id (manifest_name fid) = fid.
Proof.
  intros H. unfold manifest_fetch_id. rewrite stem_manifest_name.
  change "_manifest" with (String "_" "manifest") at 2.
  rewrite remove_from_manifest_app by done.
  change (remove_from 0 "_manifest" (String "_" "manifest")) with "".
  apply append_nil_r.
Qed.







(** *** The directories *)

Lemma kept_ids_spec (raw : list (option json)) (fid : string) :
  JStr fid ∈ collect_kept_ids raw ↔
  fid ≠ "" ∧ ∃ doc, Some doc ∈ raw ∧ header_fetch_id doc = Some (JStr fid).
Proof.
  split.
  - intros (doc & Hin & Hk)%collect_kept_ids_inv.
    unfold kept_id_of in Hk.
    destruct doc as [ | | | | | top ]; try discriminate. simpl in Hk.
    destruct (default (JDict []) (dict_get top "_header")) as [ | | | | | h ] eqn:Hh;
      try discriminate.
    simpl in Hk.
    destruct (truthy (default JNull (dict_get h "fetch_id"))) eqn:Ht; [|discriminate].
    destruct (hashable _); [|discriminate]. injection Hk as Hk.
    destruct (dict_get h "fetch_id") as [v|] eqn:Hv; simpl in Hk; [|discriminate].
    subst v. split; [by intros ->|].
    exists (JDict top). split; [done|]. simpl.
    destruct (dict_get top "_header") as [hd|]; simpl in Hh.
    + by subst hd.
    + injection Hh as <-. discriminate.
  - intros (Hne & doc & Hin & Hh).
    eapply collect_kept_ids_elem; [done|]. by apply kept_id_of_header.
Qed.

Lemma elem_of_raw_listing (d : disk) (doc : json) :
  Some doc ∈ raw_listing d ↔
  ∃ path, raw d !! path = Some (Some doc) ∧ ends_with path ".json" = true.
Proof.
  unfold raw_listing. rewrite list_elem_of_fmap. split.
  - intros ([path o] & -> & Hin). simpl.
    apply elem_of_map_to_list, map_lookup_filter_Some in Hin as [H1 H2]. eauto.
  - intros (path & Hl & He). exists (path, Some doc). split; [done|].
    by apply elem_of_map_to_list, map_lookup_filter_Some.
Qed.

Lemma kept_on_disk (d : disk) (fid : string) :
  id_in fid (collect_kept_ids (raw_listing d)) = true ↔ fid ≠ "" ∧ holds_id d fid.
Proof.
  rewrite id_in_spec, kept_ids_spec. unfold holds_id.
  split; intros [Hne H]; (split; [done|]).
  - destruct H as (doc & (path & Hl & He)%elem_of_raw_listing & Hh). eauto.
  - destruct H as (path & doc & Hl & He & Hh). exists doc. split; [|done].
    apply elem_of_raw_listing. eauto.
Qed.

Lemma elem_of_meta_listing (d : disk) (name : string) :
  name ∈ meta_listing d ↔ is_Some (metadata d !! name).
Proof.
  unfold meta_listing. rewrite list_elem_of_fmap. split.
  - intros ([n m] & -> & Hin%elem_of_map_to_list). by exists m.
  - intros [m Hm]. exists (name, m). split; [done|]. by apply elem_of_map_to_list.
Qed.

(** What the pruner leaves of the metadata directory. *)
Lemma cleanup_metadata_lookup (d : disk) (name : string) :
  metadata (cleanup_metadata d) !! name
  = if is_manifest_name name
       && negb (id_in (manifest_fetch_id name) (collect_kept_ids (raw_listing d)))
    then None else metadata d !! name.
Proof.
  unfold cleanup_metadata. cbn [metadata]. apply option_eq. intros m.
  rewrite map_lookup_filter_Some. cbn [fst].
  rewrite elem_of_deleted, elem_of_meta_listing.
  destruct (is_manifest_name name), (id_in _ _); simpl; split;
    try discriminate; try (intros [? ?]; done); try (intros ?; split; [done|]; by intros (_ & ? & ?)).
  intros [Hm Hnot]. exfalso. apply Hnot. eauto.
Qed.

Lemma save_manifest_created (now source fetch_id api_endpoint : string)
    (query_params : json) (record_count : Z) (total_available : option Z)
    (file_path status : string) (error checksum_sha256 : option string)
    (schema_version : string) (meta : gmap string json) :
  save_manifest
    (create_manifest now source fetch_id api_endpoint query_params record_count
       total_available file_path status error checksum_sha256 schema_version) meta
  = Some (<[manifest_name fetch_id :=
              create_manifest now source fetch_id api_endpoint query_params record_count
                total_available file_path status error checksum_sha256 schema_version]> meta).
Proof. reflexivity. Qed.

Lemma artifact_path_json (source : string) (subdir : option string) (fetch_id : string) :
  ends_with (artifact_path source subdir fetch_id) ".json" = true.
Proof.
  unfold artifact_path. rewrite <- !append_assoc. apply ends_with_append.
Qed.

End StorageFacts.

(** ** Properties of the writer with the pruner *)

Module StorageExtras.
Import Py Pruner Storage PrunerFacts StorageFacts.




(** X24.  After [write_raw] with the header, under an identifier that is
    not empty and does not contain [_manifest], the artifact is on the disk
    and the pruner keeps its manifest, which records the identifier, the
    status [success] and the checksum of the artifact. *)
Theorem written_artifact_keeps_manifest (sha256 : json → string)
    (base now now' source fetch_id : string) (data : json) (api_endpoint : string)
    (query_params : json) (record_count : Z) (total_available : option Z)
    (subdir : option string) (d : disk) :
  fetch_id ≠ "" →
  PyStr.contains "_manifest" fetch_id = false →
  ∃ d' manifest,
    write_raw sha256 base now now' source fetch_id data api_endpoint query_params
      record_count total_available subdir true d = Some d'
    ∧ raw d' !! artifact_path source subdir fetch_id
      = Some (Some (payload now source fetch_id data true))
    ∧ raw (cleanup_metadata d') = raw d'
    ∧ metadata (cleanup_metadata d') !! manifest_name fetch_id = Some manifest
    ∧ get manifest "fetch_id" JNull = Ok (JStr fetch_id)
    ∧ get manifest "status" JNull = Ok (JStr "success")
    ∧ get manifest "checksum_sha256" JNull
      = Ok (JStr (sha256 (payload now source fetch_id data true))).
Proof.
  intros Hne Hc. unfold write_raw. rewrite save_manifest_created.
  exists {| raw := <[artifact_path source subdir fetch_id :=
                       Some (payload now source fetch_id data true)]> (raw d);
            metadata := <[manifest_name fetch_id :=
                            create_manifest now' source fetch_id api_endpoint
                              query_params record_count total_available
                              (base ++ "/" ++ artifact_path source subdir fetch_id)
                              "success" None
                              (Some (sha256 (payload now source fetch_id data true)))
                              "1.0"]> (metadata d) |},
    (create_manifest now' source fetch_id api_endpoint query_params record_count
       total_available (base ++ "/" ++ artifact_path source subdir fetch_id)
       "success" None (Some (sha256 (payload now source fetch_id data true))) "1.0").
  split; [reflexivity|].
  split; [apply lookup_insert_eq|]. split; [done|].
  split; [|split_and!; reflexivity].
  rewrite cleanup_metadata_lookup, is_manifest_name_manifest_name,
    manifest_fetch_id_manifest_name by done.
  match goal with |- context [id_in fetch_id ?kept] =>
    assert (id_in fetch_id kept = true) as -> end.
  { apply kept_on_disk. split; [done|].
    exists (artifact_path source subdir fetch_id), (payload now source fetch_id data true).
    split_and!; [apply lookup_insert_eq | apply artifact_path_json | reflexivity]. }
  simpl. apply lookup_insert_eq.
Qed.

Lemma written_artifact_keeps_manifest_witness :
  ∃ d' manifest,
    write_raw (λ _, "0f3a") "data/raw" "2024-01-01T12:00:00Z" "2024-01-01T12:00:01Z"
      "openfda" "openfda_20240101_120000" (JDict [("results", JList [])])
      "https://api.fda.gov/drug/label.json" (JDict []) 0 None (Some "label") true
      {| raw := ∅; metadata := ∅ |} = Some d'
    ∧ raw d' !! artifact_path "openfda" (Some "label") "openfda_20240101_120000"
      = Some (Some (payload "2024-01-01T12:00:00Z" "openfda" "openfda_20240101_120000"
                      (JDict [("results", JList [])]) true))
    ∧ raw (cleanup_metadata d') = raw d'
    ∧ metadata (cleanup_metadata d') !! manifest_name "openfda_20240101_120000"
      = Some manifest
    ∧ get manifest "fetch_id" JNull = Ok (JStr "openfda_20240101_120000")
    ∧ get manifest "status" JNull = Ok (JStr "success")
    ∧ get manifest "checksum_sha256" JNull
      = Ok (JStr ((λ _ : json, "0f3a")
                    (payload "2024-01-01T12:00:00Z" "openfda" "openfda_20240101_120000"
                       (JDict [("results", JList [])]) true))).
Proof.
  apply (written_artifact_keeps_manifest (λ _, "0f3a") "data/raw" "2024-01-01T12:00:00Z"
           "2024-01-01T12:00:01Z" "openfda" "openfda_20240101_120000"
           (JDict [("results", JList [])]) "https://api.fda.gov/drug/label.json"
           (JDict []) 0 None (Some "label") {| raw := ∅; metadata := ∅ |}).
  - discriminate.
  - reflexivity.
Defined.



End StorageExtras.

(** ** The pipeline runner *)

Module PipelineFacts.
Import Py Pipeline.

Lemma dict_get_set_item (fields : list (string * json)) (k k' : string) (v : json) :
  dict_get (set_item fields k v) k'
  = if String.eqb k k' then Some v else dict_get fields k'.
Proof.
  induction fields as [|[k0 v0] fields IH]; simpl.
  - by destruct (String.eqb k k').
  - destruct (String.eqb k0 k) eqn:H0; simpl.
    + apply String.eqb_eq in H0 as ->. by destruct (String.eqb k k').
    + destruct (String.eqb k0 k') eqn:H1; [|done].
      apply String.eqb_eq in H1 as ->. by rewrite String.eqb_sym, H0.
Qed.

(** The flag of a dict. *)
Lemma get_flag (fields : list (string * json)) (k : string) :
  get (JDict fields) k JNull = Ok (default JNull (dict_get fields k)).
Proof. reflexivity. Qed.

Lemma get_not_dict (j : json) (k : string) (dflt : json) :
  is_dict j = false → get j k dflt = Raise AttributeError.
Proof. by destruct j. Qed.

Lemma flagged_document (fields : list (string * json)) (k : string) :
  flagged (Orchestrator.Document (JDict fields)) k
  = truthy (default JNull (dict_get fields k)).
Proof. reflexivity. Qed.

Lemma flagged_set_item (fields : list (string * json)) (k k' : string) :
  flagged (save_checkpoint (JDict (set_item fields k (JBool true)))) k'
  = if String.eqb k k' then true else truthy (default JNull (dict_get fields k')).
Proof.
  unfold save_checkpoint. rewrite flagged_document, dict_get_set_item.
  by destruct (String.eqb k k').
Qed.

Lemma fresh_flag (k : string) :
  truthy (default JNull
            (dict_get [("fetch", JBool false); ("symptom_index", JBool false)] k))
  = false.
Proof.
  cbn [dict_get]. destruct (String.eqb "fetch" k); [done|].
  by destruct (String.eqb "symptom_index" k).
Qed.

(** How a run starts: the dict is what the file holds, or it is the fresh
    one and the file holds no document. *)
Lemma pipeline_startup_cases (argv : list string) (f : Orchestrator.file) :
  ran (startup argv f) = []
  ∧ (checkpoint (startup argv f) = Orchestrator.Document (cp (startup argv f))
     ∨ (cp (startup argv f) = fresh
        ∧ ∀ k, flagged (checkpoint (startup argv f)) k = false)).
Proof.
  unfold startup. destruct (bool_decide ("--reset" ∈ argv)); simpl.
  - split; [done|]. by left.
  - split; [done|]. destruct f; simpl; auto.
Qed.

(** The flags the file shows are those of the dict. *)
Lemma pipeline_startup_flags (argv : list string) (f : Orchestrator.file)
    (fields : list (string * json)) (k : string) :
  cp (startup argv f) = JDict fields →
  flagged (checkpoint (startup argv f)) k = truthy (default JNull (dict_get fields k)).
Proof.
  intros Hcp. destruct (pipeline_startup_cases argv f) as [_ [Hdoc|[Hfresh Hnone]]].
  - by rewrite Hdoc, Hcp.
  - rewrite Hnone. rewrite Hfresh in Hcp. injection Hcp as <-. by rewrite fresh_flag.
Qed.

(** [main] from a checkpoint that is a dict, by the flags and the return
    codes. *)
Lemma main_dict (argv : list string) (proc : processes) (f : Orchestrator.file)
    (fields : list (string * json)) :
  cp (startup argv f) = JDict fields →
  main argv proc f
  = let st0 := startup argv f in
    let save fields' cmds :=
      {| cp := JDict fields'; checkpoint := save_checkpoint (JDict fields'); ran := cmds |} in
    let index_from fields' (st : state) :=
      if truthy (default JNull (dict_get fields "symptom_index"))
      then {| status := Orchestrator.ExitCode 0; final := st |}
      else if (proc (ran st) INDEX =? 0)%Z
           then {| status := Orchestrator.ExitCode 0;
                   final := save (set_item fields' "symptom_index" (JBool true))
                                 (ran st ++ [INDEX])%list |}
           else {| status := Orchestrator.ExitCode 1;
                   final := {| cp := cp st; checkpoint := checkpoint st;
                               ran := (ran st ++ [INDEX])%list |} |} in
    if truthy (default JNull (dict_get fields "fetch"))
    then index_from fields st0
    else if (proc [] FETCH =? 0)%Z
         then index_from (set_item fields "fetch" (JBool true))
                (save (set_item fields "fetch" (JBool true)) [FETCH; CLEANUP])
         else {| status := Orchestrator.ExitCode 1;
                 final := {| cp := cp st0; checkpoint := checkpoint st0;
                             ran := [FETCH] |} |}.
Proof.
  intros Hcp. destruct (pipeline_startup_cases argv f) as [Hran _].
  unfold main. destruct (startup argv f) as [c ck r]. simpl in Hcp, Hran. subst c r.
  unfold fetch_step, index_step, run, mark.
  cbn [cp ran checkpoint app negb]. rewrite ?get_flag.
  destruct (truthy (default JNull (dict_get fields "fetch")));
    cbn [cp ran checkpoint app negb]; rewrite ?get_flag.
  - destruct (truthy (default JNull (dict_get fields "symptom_index")));
      cbn [cp ran checkpoint app negb]; [done|].
    by destruct (proc [] INDEX =? 0)%Z.
  - destruct (proc [] FETCH =? 0)%Z; [|done].
    cbn [cp ran checkpoint app negb]. rewrite ?get_flag, dict_get_set_item.
    change (String.eqb "fetch" "symptom_index") with false. cbn iota.
    destruct (truthy (default JNull (dict_get fields "symptom_index")));
      cbn [cp ran checkpoint app negb]; [done|].
    by destruct (proc [FETCH; CLEANUP] INDEX =? 0)%Z.
Qed.

Lemma main_not_dict (argv : list string) (proc : processes) (f : Orchestrator.file) :
  is_dict (cp (startup argv f)) = false →
  main argv proc f
  = {| status := Orchestrator.Uncaught AttributeError; final := startup argv f |}.
Proof.
  intros Hcp. unfold main, fetch_step. by rewrite get_not_dict.
Qed.

Lemma pipeline_startup_no_reset (argv : list string) (f : Orchestrator.file) :
  "--reset" ∉ argv →
  startup argv f = {| cp := load_checkpoint f; checkpoint := f; ran := [] |}.
Proof. intros H. unfold startup. by rewrite bool_decide_eq_false_2. Qed.

Lemma pipeline_startup_reset (argv : list string) (f : Orchestrator.file) :
  "--reset" ∈ argv →
  startup argv f = {| cp := fresh; checkpoint := save_checkpoint fresh; ran := [] |}.
Proof. intros H. unfold startup. by rewrite bool_decide_eq_true_2. Qed.

Lemma flagged_inv (f : Orchestrator.file) (k : string) :
  flagged f k = true →
  ∃ fields, f = Orchestrator.Document (JDict fields)
            ∧ truthy (default JNull (dict_get fields k)) = true.
Proof.
  destruct f as [| | |j]; try discriminate. destruct j; try discriminate. eauto.
Qed.

(** With both flags in the file and no reset, nothing is run. *)
Lemma main_both_flagged (argv : list string) (proc : processes) (f : Orchestrator.file) :
  "--reset" ∉ argv →
  flagged f "fetch" = true →
  flagged f "symptom_index" = true →
  main argv proc f
  = {| status := Orchestrator.ExitCode 0;
       final := {| cp := load_checkpoint f; checkpoint := f; ran := [] |} |}.
Proof.
  intros Hno (fields & -> & Hf)%flagged_inv Hi. rewrite flagged_document in Hi.
  rewrite (main_dict argv proc _ fields) by (by rewrite pipeline_startup_no_reset).
  cbv zeta. rewrite Hf, Hi. by rewrite pipeline_startup_no_reset.
Qed.

(** With the fetch flag in the file and no reset, the index is built or
    the run ends there. *)
Lemma main_fetch_flagged (argv : list string) (proc : processes)
    (fields : list (string * json)) :
  "--reset" ∉ argv →
  truthy (default JNull (dict_get fields "fetch")) = true →
  truthy (default JNull (dict_get fields "symptom_index")) = false →
  ran (final (main argv proc (Orchestrator.Document (JDict fields)))) = [INDEX]
  ∧ status (main argv proc (Orchestrator.Document (JDict fields)))
    = Orchestrator.ExitCode (if (proc [] INDEX =? 0)%Z then 0 else 1).
Proof.
  intros Hno Hf Hi.
  rewrite (main_dict argv proc _ fields) by (by rewrite pipeline_startup_no_reset).
  cbv zeta. rewrite Hf, Hi, pipeline_startup_no_reset by done. cbn [ran app].
  by destruct (proc [] INDEX =? 0)%Z.
Qed.

(** The fetch command is run only from a dict without the fetch flag. *)
Lemma main_fetch_ran (argv : list string) (proc : processes) (f : Orchestrator.file) :
  FETCH ∈ ran (final (main argv proc f)) →
  ∃ fields, cp (startup argv f) = JDict fields
            ∧ truthy (default JNull (dict_get fields "fetch")) = false.
Proof.
  destruct (pipeline_startup_cases argv f) as [Hnil _].
  destruct (cp (startup argv f)) as [ | | | | |fields] eqn:Hcp;
    try (rewrite main_not_dict by (by rewrite Hcp); cbn [final]; rewrite Hnil;
         by intros ?%elem_of_nil).
  rewrite (main_dict argv proc f fields Hcp). cbv zeta.
  destruct (truthy (default JNull (dict_get fields "fetch"))) eqn:Hff; [|by eauto].
  rewrite Hnil. intros Hran. exfalso.
  destruct (truthy (default JNull (dict_get fields "symptom_index")));
    [|destruct (proc [] INDEX =? 0)%Z]; cbn [final ran app] in Hran;
    rewrite ?Hnil in Hran;
    repeat (apply elem_of_cons in Hran as [?|Hran]; [done|]);
    by apply elem_of_nil in Hran.
Qed.

(** A fetch that does not return 0 leaves the file without the flag. *)
Lemma main_fetch_failed (argv : list string) (proc : processes) (f : Orchestrator.file) :
  FETCH ∈ ran (final (main argv proc f)) →
  proc [] FETCH ≠ 0%Z →
  flagged (checkpoint (final (main argv proc f))) "fetch" = false.
Proof.
  intros (fields & Hcp & Hff)%main_fetch_ran Hrc.
  rewrite (main_dict argv proc f fields Hcp). cbv zeta. rewrite Hff.
  apply Z.eqb_neq in Hrc. rewrite Hrc. cbn [final checkpoint].
  by rewrite (pipeline_startup_flags argv f fields "fetch" Hcp).
Qed.

End PipelineFacts.

(** ** Properties of the pipeline runner *)

Module PipelineExtras.
Import Py Pipeline PipelineFacts.

(** X26.  When the pipeline ends with exit code 0, the checkpoint file
    holds both flags, and a later run without [--reset] runs no command,
    ends with exit code 0 and leaves the file as it is. *)
Theorem pipeline_success_is_recorded (argv : list string) (proc : processes)
    (f : Orchestrator.file) :
  status (main argv proc f) = Orchestrator.ExitCode 0 →
  flagged (checkpoint (final (main argv proc f))) "fetch" = true
  ∧ flagged (checkpoint (final (main argv proc f))) "symptom_index" = true
  ∧ ∀ (argv' : list string) (proc' : processes),
      "--reset" ∉ argv' →
      main argv' proc' (checkpoint (final (main argv proc f)))
      = {| status := Orchestrator.ExitCode 0;
           final := {| cp := cp (final (main argv proc f));
                       checkpoint := checkpoint (final (main argv proc f));
                       ran := [] |} |}.
Proof.
  intros Hok.
  assert (flagged (checkpoint (final (main argv proc f))) "fetch" = true
          ∧ flagged (checkpoint (final (main argv proc f))) "symptom_index" = true
          ∧ load_checkpoint (checkpoint (final (main argv proc f)))
            = cp (final (main argv proc f))) as (Hf & Hi & Hload).
  { destruct (cp (startup argv f)) as [ | | | | |fields] eqn:Hcp;
      try (rewrite main_not_dict in Hok by (by rewrite Hcp); discriminate).
    pose proof (pipeline_startup_flags argv f fields "fetch" Hcp) as Hsf.
    pose proof (pipeline_startup_flags argv f fields "symptom_index" Hcp) as Hsi.
    rewrite (main_dict argv proc f fields Hcp) in Hok |- *. cbv zeta in Hok |- *.
    destruct (truthy (default JNull (dict_get fields "fetch"))) eqn:Hff.
    - destruct (truthy (default JNull (dict_get fields "symptom_index"))) eqn:Hfi.
      + cbn [final]. split_and!; [done..|].
        destruct (pipeline_startup_cases argv f) as [_ [->|[_ Hnone]]]; [done|].
        by rewrite Hnone in Hsf.
      + destruct (proc (ran (startup argv f)) INDEX =? 0)%Z; [|discriminate].
        cbn [final checkpoint cp]. rewrite !flagged_set_item.
        change (String.eqb "symptom_index" "fetch") with false.
        change (String.eqb "symptom_index" "symptom_index") with true.
        cbn iota. by rewrite Hff.
    - destruct (proc [] FETCH =? 0)%Z; [|discriminate].
      destruct (truthy (default JNull (dict_get fields "symptom_index"))) eqn:Hfi.
      + cbn [final checkpoint cp]. rewrite !flagged_set_item.
        change (String.eqb "fetch" "fetch") with true.
        change (String.eqb "fetch" "symptom_index") with false.
        cbn iota. by rewrite Hfi.
      + cbn [ran] in Hok |- *.
        destruct (proc [FETCH; CLEANUP] INDEX =? 0)%Z; [|discriminate].
        cbn [final checkpoint cp]. rewrite !flagged_set_item, dict_get_set_item.
        change (String.eqb "symptom_index" "fetch") with false.
        change (String.eqb "fetch" "fetch") with true.
        by change (String.eqb "symptom_index" "symptom_index") with true. }
  split_and!; [done..|].
  intros argv' proc' Hno. by rewrite main_both_flagged, Hload.
Qed.

Lemma pipeline_success_is_recorded_witness :
  flagged (checkpoint (final (main ["run_pipeline_with_checkpoint.py"] (λ _ _, 0%Z)
                                Orchestrator.Absent))) "fetch" = true
  ∧ flagged (checkpoint (final (main ["run_pipeline_with_checkpoint.py"] (λ _ _, 0%Z)
                                  Orchestrator.Absent))) "symptom_index" = true
  ∧ ∀ (argv' : list string) (proc' : processes),
      "--reset" ∉ argv' →
      main argv' proc'
        (checkpoint (final (main ["run_pipeline_with_checkpoint.py"] (λ _ _, 0%Z)
                              Orchestrator.Absent)))
      = {| status := Orchestrator.ExitCode 0;
           final := {| cp := cp (final (main ["run_pipeline_with_checkpoint.py"]
                                          (λ _ _, 0%Z) Orchestrator.Absent));
                       checkpoint :=
                         checkpoint (final (main ["run_pipeline_with_checkpoint.py"]
                                              (λ _ _, 0%Z) Orchestrator.Absent));
                       ran := [] |} |}.
Proof.
  apply (pipeline_success_is_recorded ["run_pipeline_with_checkpoint.py"] (λ _ _, 0%Z)
           Orchestrator.Absent).
  reflexivity.
Defined.

(** X27.  The index is built only after a fetch that is recorded in the
    file or has just returned 0.  When the fetch command is run and does not
    return 0, the run ends with exit code 1 after that one command and
    records nothing; when it returns 0, the cleanup is run next and the
    fetch flag is saved, whatever the cleanup returns. *)
Theorem fetch_gates_index (argv : list string) (proc : processes) (f : Orchestrator.file) :
  (INDEX ∈ ran (final (main argv proc f)) →
     (("--reset" ∉ argv) ∧ flagged f "fetch" = true) ∨ proc [] FETCH = 0%Z)
  ∧ (FETCH ∈ ran (final (main argv proc f)) → proc [] FETCH ≠ 0%Z →
       status (main argv proc f) = Orchestrator.ExitCode 1
       ∧ ran (final (main argv proc f)) = [FETCH]
       ∧ checkpoint (final (main argv proc f)) = checkpoint (startup argv f))
  ∧ (FETCH ∈ ran (final (main argv proc f)) → proc [] FETCH = 0%Z →
       (∃ rest, ran (final (main argv proc f)) = FETCH :: CLEANUP :: rest)
       ∧ flagged (checkpoint (final (main argv proc f))) "fetch" = true).
Proof.
  destruct (cp (startup argv f)) as [ | | | | |fields] eqn:Hcp;
    try (rewrite main_not_dict by (by rewrite Hcp); cbn [final];
         rewrite (proj1 (pipeline_startup_cases argv f));
         split_and!; by intros ?%elem_of_nil).
  pose proof (pipeline_startup_flags argv f fields "fetch" Hcp) as Hsf.
  destruct (pipeline_startup_cases argv f) as [Hran _].
  rewrite (main_dict argv proc f fields Hcp). cbv zeta.
  destruct (truthy (default JNull (dict_get fields "fetch"))) eqn:Hff.
  - assert (("--reset" ∉ argv) ∧ flagged f "fetch" = true) as Hstart.
    { destruct (decide ("--reset" ∈ argv)) as [Hr|Hr].
      - by rewrite pipeline_startup_reset in Hsf.
      - by rewrite pipeline_startup_no_reset in Hsf. }
    assert (∀ r : outcome, ran (final r) = [] ∨ ran (final r) = [INDEX] →
              FETCH ∈ ran (final r) → False) as Hnever.
    { intros r [->| ->]; [by intros ?%elem_of_nil|].
      intros [?|?%elem_of_nil]%elem_of_cons; done. }
    destruct (truthy (default JNull (dict_get fields "symptom_index"))).
    + split_and!;
        [by intros _; left | intros H; exfalso; revert H; apply Hnever; cbn [final]; auto..].
    + rewrite Hran. cbn [app].
      destruct (proc [] INDEX =? 0)%Z;
        (split_and!;
           [by intros _; left
           | intros H; exfalso; revert H; apply Hnever; cbn [final ran]; auto..]).
  - destruct (proc [] FETCH =? 0)%Z eqn:Hrc.
    + apply Z.eqb_eq in Hrc.
      assert (flagged (save_checkpoint (JDict (set_item fields "fetch" (JBool true)))) "fetch"
              = true) as Hsaved.
      { rewrite flagged_set_item. by change (String.eqb "fetch" "fetch") with true. }
      destruct (truthy (default JNull (dict_get fields "symptom_index"))).
      * cbn [final ran checkpoint].
        split_and!; [by intros _; right | by intros _ ? | intros _ _; eauto].
      * cbn [ran app].
        destruct (proc [FETCH; CLEANUP] INDEX =? 0)%Z; cbn [final ran checkpoint].
        -- split_and!; [by intros _; right | by intros _ ? | intros _ _; split; [eauto|]].
           rewrite flagged_set_item, dict_get_set_item.
           by change (String.eqb "symptom_index" "fetch") with false.
        -- split_and!; [by intros _; right | by intros _ ? | intros _ _; eauto].
    + apply Z.eqb_neq in Hrc. cbn [final ran checkpoint].
      split_and!; [|done|done].
      intros [?|?%elem_of_nil]%elem_of_cons; done.
Qed.

(** X28.  After a run in which the fetch returned 0 and that ended with
    exit code 1, the next run without [--reset] runs the index command only,
    and ends with exit code 0 exactly when that command returns 0. *)
Theorem pipeline_resumes_at_index (argv argv' : list string) (proc proc' : processes)
    (f : Orchestrator.file) :
  FETCH ∈ ran (final (main argv proc f)) →
  proc [] FETCH = 0%Z →
  status (main argv proc f) = Orchestrator.ExitCode 1 →
  "--reset" ∉ argv' →
  ran (final (main argv' proc' (checkpoint (final (main argv proc f))))) = [INDEX]
  ∧ (status (main argv' proc' (checkpoint (final (main argv proc f))))
     = Orchestrator.ExitCode 0 ↔ proc' [] INDEX = 0%Z).
Proof.
  intros Hran Hrc Hstatus Hno.
  assert (∃ fields', checkpoint (final (main argv proc f)) = Orchestrator.Document (JDict fields')
                     ∧ truthy (default JNull (dict_get fields' "fetch")) = true
                     ∧ truthy (default JNull (dict_get fields' "symptom_index")) = false)
    as (fields' & -> & Hf & Hi).
  { destruct (cp (startup argv f)) as [ | | | | |fields] eqn:Hcp;
      try (rewrite main_not_dict in Hstatus by (by rewrite Hcp); discriminate).
    destruct (pipeline_startup_cases argv f) as [Hnil _].
    rewrite (main_dict argv proc f fields Hcp) in Hran, Hstatus |- *.
    cbv zeta in Hran, Hstatus |- *.
    destruct (truthy (default JNull (dict_get fields "fetch"))) eqn:Hff.
    - exfalso. rewrite Hnil in Hran.
      destruct (truthy (default JNull (dict_get fields "symptom_index")));
        [|destruct (proc [] INDEX =? 0)%Z]; cbn [final ran app] in Hran;
        rewrite ?Hnil in Hran;
        repeat (apply elem_of_cons in Hran as [?|Hran]; [done|]);
        by apply elem_of_nil in Hran.
    - rewrite Hrc in Hstatus |- *. cbn [Z.eqb] in Hstatus |- *.
      destruct (truthy (default JNull (dict_get fields "symptom_index"))) eqn:Hfi;
        [discriminate|].
      cbn [ran] in Hstatus |- *.
      destruct (proc [FETCH; CLEANUP] INDEX =? 0)%Z; [discriminate|].
      cbn [final checkpoint]. eexists. split; [reflexivity|].
      rewrite !dict_get_set_item.
      change (String.eqb "fetch" "fetch") with true.
      change (String.eqb "fetch" "symptom_index") with false.
      cbn iota. by rewrite Hfi. }
  destruct (main_fetch_flagged argv' proc' fields' Hno Hf Hi) as [-> ->].
  split; [done|]. destruct (proc' [] INDEX =? 0)%Z eqn:Hrc'.
  - apply Z.eqb_eq in Hrc'. done.
  - apply Z.eqb_neq in Hrc'. split; [discriminate | done].
Qed.

Lemma pipeline_resumes_at_index_witness :
  ran (final (main ["run_pipeline_with_checkpoint.py"] (λ _ _, 0%Z)
                (checkpoint (final (main ["run_pipeline_with_checkpoint.py"]
                                      (λ _ cmd, if bool_decide (cmd = INDEX) then 2%Z else 0%Z)
                                      Orchestrator.Absent))))) = [INDEX]
  ∧ (status (main ["run_pipeline_with_checkpoint.py"] (λ _ _, 0%Z)
               (checkpoint (final (main ["run_pipeline_with_checkpoint.py"]
                                     (λ _ cmd, if bool_decide (cmd = INDEX) then 2%Z else 0%Z)
                                     Orchestrator.Absent))))
     = Orchestrator.ExitCode 0
     ↔ (λ (_ : list (list string)) (_ : list string), 0%Z) [] INDEX = 0%Z).
Proof.
  apply (pipeline_resumes_at_index ["run_pipeline_with_checkpoint.py"]
           ["run_pipeline_with_checkpoint.py"]
           (λ _ cmd, if bool_decide (cmd = INDEX) then 2%Z else 0%Z) (λ _ _, 0%Z)
           Orchestrator.Absent).
  - vm_compute. apply list_elem_of_here.
  - reflexivity.
  - reflexivity.
  - vm_compute. intros [H|H]%elem_of_cons; [discriminate | by apply elem_of_nil in H].
Defined.

(** X29.  A checkpoint file that holds a JSON value other than an object
    ends the run with an uncaught [AttributeError] before any command, and
    stays as it is; a file that is missing, empty or not JSON starts the
    pipeline from the first step, as a missing one does; and with [--reset]
    what the file held does not matter. *)
Theorem checkpoint_not_an_object (argv : list string) (proc : processes) :
  (∀ j, is_dict j = false → "--reset" ∉ argv →
     main argv proc (Orchestrator.Document j)
     = {| status := Orchestrator.Uncaught AttributeError;
          final := {| cp := j; checkpoint := Orchestrator.Document j; ran := [] |} |})
  ∧ (∀ f, f = Orchestrator.Truncated ∨ f = Orchestrator.Corrupt →
       status (main argv proc f) = status (main argv proc Orchestrator.Absent)
       ∧ ran (final (main argv proc f)) = ran (final (main argv proc Orchestrator.Absent))
       ∧ cp (final (main argv proc f)) = cp (final (main argv proc Orchestrator.Absent))
       ∧ FETCH ∈ ran (final (main argv proc f)))
  ∧ (∀ f f', "--reset" ∈ argv → main argv proc f = main argv proc f').
Proof.
  split_and!.
  - intros j Hj Hno. rewrite main_not_dict; rewrite pipeline_startup_no_reset by done; done.
  - assert (∀ f, cp (startup argv f) = fresh → ran (startup argv f) = [] →
              status (main argv proc f)
              = Orchestrator.ExitCode
                  (if (proc [] FETCH =? 0)%Z
                   then if (proc [FETCH; CLEANUP] INDEX =? 0)%Z then 0 else 1 else 1)
              ∧ ran (final (main argv proc f))
                = (if (proc [] FETCH =? 0)%Z then [FETCH; CLEANUP; INDEX] else [FETCH])
              ∧ cp (final (main argv proc f))
                = (if (proc [] FETCH =? 0)%Z
                   then if (proc [FETCH; CLEANUP] INDEX =? 0)%Z
                        then JDict [("fetch", JBool true); ("symptom_index", JBool true)]
                        else JDict [("fetch", JBool true); ("symptom_index", JBool false)]
                   else fresh)) as Hfresh.
    { intros f Hcp Hran. rewrite (main_dict argv proc f _ Hcp). cbv zeta.
      cbn [dict_get String.eqb default truthy].
      change (String.eqb "fetch" "fetch") with true.
      change (String.eqb "fetch" "symptom_index") with false.
      change (String.eqb "symptom_index" "symptom_index") with true.
      cbn [dict_get default truthy ran app].
      destruct (proc [] FETCH =? 0)%Z; [|by rewrite Hcp].
      by destruct (proc [FETCH; CLEANUP] INDEX =? 0)%Z. }
    assert (∀ f, f = Orchestrator.Absent ∨ f = Orchestrator.Truncated ∨ f = Orchestrator.Corrupt →
              cp (startup argv f) = fresh ∧ ran (startup argv f) = []) as Hstart.
    { intros f Hf. unfold startup. destruct (bool_decide ("--reset" ∈ argv)); [done|].
      by destruct Hf as [->|[->| ->]]. }
    intros f Hf.
    destruct (Hstart f) as [Hc Hr]; [by destruct Hf; auto|].
    destruct (Hstart Orchestrator.Absent) as [Hc' Hr']; [auto|].
    destruct (Hfresh f Hc Hr) as (-> & -> & ->).
    destruct (Hfresh Orchestrator.Absent Hc' Hr') as (-> & -> & ->).
    split_and!; [done..|]. destruct (proc [] FETCH =? 0)%Z; apply list_elem_of_here.
  - intros f f' Hreset. unfold main. by rewrite !pipeline_startup_reset.
Qed.

(** X30.  The pipeline with the fetch orchestrator as its fetch command:
    when the fetch command was run and the file then holds the fetch flag,
    the orchestrator ended with every configured source completed and its
    own checkpoint saved without an error. *)
Theorem fetch_flag_means_all_fetched (argv : list string) (proc : processes)
    (f : Orchestrator.file) (fetch : Orchestrator.collaborator)
    (fetch_checkpoint : Orchestrator.file) :
  proc [] FETCH
  = returncode (Orchestrator.main ["scripts/fetch_all_checkpointed.py"] fetch
                  fetch_checkpoint) →
  FETCH ∈ ran (final (main argv proc f)) →
  flagged (checkpoint (final (main argv proc f))) "fetch" = true →
  ∃ st, Orchestrator.final
          (Orchestrator.main ["scripts/fetch_all_checkpointed.py"] fetch fetch_checkpoint)
        = Some st
        ∧ Orchestrator.all_completed Orchestrator.CONFIG (Orchestrator.completed st)
        ∧ Orchestrator.checkpoint st
          = Orchestrator.Document
              (Orchestrator.checkpoint_doc (Orchestrator.completed st) None).
Proof.
  intros Hproc Hran Hflag.
  assert (proc [] FETCH = 0%Z) as Hrc.
  { destruct (decide (proc [] FETCH = 0%Z)) as [|Hne]; [done|].
    by rewrite (main_fetch_failed argv proc f Hran Hne) in Hflag. }
  rewrite Hrc in Hproc. revert Hproc.
  unfold returncode, Orchestrator.main, Orchestrator.main_with.
  destruct (Orchestrator.startup _ fetch_checkpoint) as [st0|e]; [|discriminate].
  destruct (Orchestrator.run_jobs fetch st0 Orchestrator.CONFIG) as [st|st] eqn:Hjobs;
    [|discriminate].
  intros _. cbn [Orchestrator.final]. eexists. split; [reflexivity|].
  cbn [Orchestrator.completed Orchestrator.checkpoint]. split; [|done].
  by eapply OrchestratorMoreFacts.run_jobs_ran_through.
Qed.

Lemma fetch_flag_means_all_fetched_witness :
  ∃ st, Orchestrator.final
          (Orchestrator.main ["scripts/fetch_all_checkpointed.py"]
             (λ _ _ _, Orchestrator.Fetched) Orchestrator.Absent)
        = Some st
        ∧ Orchestrator.all_completed Orchestrator.CONFIG (Orchestrator.completed st)
        ∧ Orchestrator.checkpoint st
          = Orchestrator.Document
              (Orchestrator.checkpoint_doc (Orchestrator.completed st) None).
Proof.
  apply (fetch_flag_means_all_fetched ["run_pipeline_with_checkpoint.py"]
           (λ _ cmd, if bool_decide (cmd = FETCH)
                     then returncode
                            (Orchestrator.main ["scripts/fetch_all_checkpointed.py"]
                               (λ _ _ _, Orchestrator.Fetched) Orchestrator.Absent)
                     else 0%Z)
           Orchestrator.Absent).
  - reflexivity.
  - vm_compute. apply list_elem_of_here.
  - reflexivity.
Defined.

End PipelineExtras.
